(** * Flash-deal cart reservation: reservation store, cart and checkout

    A shallow embedding of the reservation and checkout core of the
    repository, service by service:

    - [RedisService]    (services/redisService.js, the second file of
                         src/unnamed/part_000): the reservation store,
    - [UserService]     (src/src/services/userService.js),
    - [ProductService]  (src/src/services/productService.js): the stock
                         ledger,
    - [CartService]     (services/cartService.js, the file that follows the
                         README in src/README.md): multi-item reservation,
    - [CheckoutService] (src/src/services/checkoutService.js).

    Every [async] method is a computation in a state-and-exception monad
    over a [World] that holds the Redis database, the MongoDB collections,
    the wall clock, the console log and a trace of the writes that reached
    a backend.  Each awaited driver call first consumes one [event] of the
    environment's schedule: time may pass before the call is served, and the
    call may be rejected by the backend.

    Quantities and times to live are integers; prices and amounts are
    JavaScript numbers, that is IEEE 754 doubles; user ids and SKUs are
    strings, and the Redis keys are the strings the services build from
    them. *)

From Stdlib Require Import ZArith List Bool Ascii String Lia.
From Stdlib Require Import PrimFloat.
From stdpp Require Import base option list gmap strings fin_maps.

Local Open Scope Z_scope.
#[local] Set Warnings "-inexact-float".

(** ** Redis: keys with a time to live *)

(** A stored value with its absolute expiry instant in milliseconds
    ([None]: the key is persistent).  The services store only decimal
    renderings of integers ([newQty.toString()], INCRBY) and read them back
    with [parseInt]; the value is kept as the integer itself. *)
Record entry : Type := Entry { value : Z; expiry : option Z }.

Definition live (t : Z) (e : entry) : bool :=
  match expiry e with
  | None => true
  | Some x => t <? x
  end.

Definition lookup_live (db : gmap string entry) (t : Z) (k : string) : option entry :=
  match db !! k with
  | Some e => if live t e then Some e else None
  | None => None
  end.

(** GET: [null] for a missing or expired key. *)
Definition redis_get (db : gmap string entry) (t : Z) (k : string) : option Z :=
  value <$> lookup_live db t k.

(** TTL: -2 for a missing key, -1 for a persistent one, otherwise the
    remaining life rounded to the nearest second, as the server does. *)
Definition redis_ttl (db : gmap string entry) (t : Z) (k : string) : Z :=
  match lookup_live db t k with
  | None => -2
  | Some e =>
      match expiry e with
      | None => -1
      | Some x => (x - t + 500) / 1000
      end
  end.

(** [s.split(sep)] for a one-character separator. *)
Fixpoint split_on (sep : ascii) (s : string) : list string :=
  match s with
  | EmptyString => [EmptyString]
  | String c s' =>
      if Ascii.eqb c sep then EmptyString :: split_on sep s'
      else match split_on sep s' with
           | seg :: segs => String c seg :: segs
           | [] => [String c EmptyString]
           end
  end.

(** The glob-style patterns of KEYS: [?] stands for one character, [*]
    for any run of characters, [[ae]] for one of the listed characters,
    [[^e]] for one not listed, [[a-c]] for one of a range, and a backslash
    takes the character after it literally, inside a class too. *)
Inductive class_item : Type :=
| One (c : ascii)
| Range (first last : ascii).

Inductive token : Type :=
| Star
| AnyChar
| Class (negated : bool) (items : list class_item)
| Lit (c : ascii).

(** A pattern as its tokens.  In a class, [x-y] is a range whenever two
    more characters follow [x], and a class that the pattern leaves open
    ends with the pattern; a backslash that ends the pattern stands for
    itself. *)
Fixpoint parse (p : string) : list token :=
  match p with
  | EmptyString => []
  | String c p1 =>
      if Ascii.eqb c "*" then Star :: parse p1
      else if Ascii.eqb c "?" then AnyChar :: parse p1
      else if Ascii.eqb c "[" then
        match p1 with
        | String d p2 =>
            if Ascii.eqb d "^" then parse_class true [] p2
            else parse_class false [] p1
        | EmptyString => parse_class false [] p1
        end
      else if Ascii.eqb c "\" then
        match p1 with
        | String d p2 => Lit d :: parse p2
        | EmptyString => [Lit c]
        end
      else Lit c :: parse p1
  end
with parse_class (negated : bool) (items : list class_item) (p : string) : list token :=
  match p with
  | EmptyString => [Class negated items]
  | String c p1 =>
      match p1 with
      | String d p2 =>
          if Ascii.eqb c "\" then parse_class negated (items ++ [One d]) p2
          else if Ascii.eqb c "]" then Class negated items :: parse p1
          else if Ascii.eqb d "-" then
            match p2 with
            | String e p3 => parse_class negated (items ++ [Range c e]) p3
            | EmptyString => parse_class negated (items ++ [One c]) p1
            end
          else parse_class negated (items ++ [One c]) p1
      | EmptyString =>
          if Ascii.eqb c "]" then [Class negated items]
          else [Class negated (items ++ [One c])]
      end
  end.

(** The server compares the characters of a range as C [char]s. *)
Definition char_code (c : ascii) : Z :=
  let n := Z.of_N (N_of_ascii c) in
  if n <? 128 then n else n - 256.

Definition in_class_item (c : ascii) (item : class_item) : bool :=
  match item with
  | One d => Ascii.eqb d c
  | Range first last =>
      let lo := Z.min (char_code first) (char_code last) in
      let hi := Z.max (char_code first) (char_code last) in
      (lo <=? char_code c) && (char_code c <=? hi)
  end.

Fixpoint match_tokens (ts : list token) : string -> bool :=
  match ts with
  | [] => fun s => match s with EmptyString => true | _ => false end
  | Star :: ts' =>
      fix star (s : string) : bool :=
        match_tokens ts' s || match s with
                              | EmptyString => false
                              | String _ s' => star s'
                              end
  | AnyChar :: ts' =>
      fun s => match s with
               | EmptyString => false
               | String _ s' => match_tokens ts' s'
               end
  | Class negated items :: ts' =>
      fun s => match s with
               | EmptyString => false
               | String c s' =>
                   xorb negated (existsb (in_class_item c) items) && match_tokens ts' s'
               end
  | Lit d :: ts' =>
      fun s => match s with
               | EmptyString => false
               | String c s' => Ascii.eqb d c && match_tokens ts' s'
               end
  end.

Definition glob (p : string) (s : string) : bool := match_tokens (parse p) s.

(** KEYS: the live keys that match the pattern, in the order of the
    keyspace. *)
Definition redis_keys (db : gmap string entry) (t : Z) (p : string) : list string :=
  List.filter (fun k => glob p k && bool_decide (is_Some (lookup_live db t k)))
              (fst <$> map_to_list db).

(** The commands queued on a MULTI. *)
Inductive cmd : Type :=
| SETEX (k : string) (seconds : Z) (v : Z)
| INCRBY (k : string) (n : Z)
| DECRBY (k : string) (n : Z)
| EXPIRE (k : string) (seconds : Z)
| DEL (k : string).

Definition incr_by (db : gmap string entry) (t : Z) (k : string) (n : Z) : gmap string entry :=
  match lookup_live db t k with
  | Some e => <[k := Entry (value e + n) (expiry e)]> db
  | None => <[k := Entry n None]> db
  end.

(** One command served at instant [t].  SETEX with a non-positive time to
    live is rejected by the server and leaves the key as it was (the services
    are run with a positive one; the properties below say so where it
    matters); INCRBY and DECRBY start a missing key from 0 and give it no
    expiry; EXPIRE with a non-positive time deletes the key. *)
Definition apply_cmd (t : Z) (db : gmap string entry) (c : cmd) : gmap string entry :=
  match c with
  | SETEX k s v => if 0 <? s then <[k := Entry v (Some (t + 1000 * s))]> db else db
  | INCRBY k n => incr_by db t k n
  | DECRBY k n => incr_by db t k (- n)
  | EXPIRE k s =>
      match lookup_live db t k with
      | Some e => if 0 <? s then <[k := Entry (value e) (Some (t + 1000 * s))]> db
                  else delete k db
      | None => db
      end
  | DEL k => delete k db
  end.

(** EXEC: the queued commands run in order, with nothing in between. *)
Definition redis_exec (t : Z) (cmds : list cmd) (db : gmap string entry) : gmap string entry :=
  fold_left (apply_cmd t) cmds db.

(** ** MongoDB collections *)

(** A JavaScript number that holds a price or an amount: an IEEE 754
    double, with the arithmetic of the language. *)
Definition Number : Type := PrimFloat.float.

Module Number.

Definition zero : Number := PrimFloat.zero.
Definition add (x y : Number) : Number := PrimFloat.add x y.
Definition mul (x y : Number) : Number := PrimFloat.mul x y.

Fixpoint of_pos (p : positive) : Number :=
  match p with
  | xH => PrimFloat.one
  | xO p' => PrimFloat.mul PrimFloat.two (of_pos p')
  | xI p' => PrimFloat.add (PrimFloat.mul PrimFloat.two (of_pos p')) PrimFloat.one
  end.

(** The number that holds an integer quantity: exact below 2^53 in
    absolute value, the integers a JavaScript number holds exactly. *)
Definition of_Z (z : Z) : Number :=
  match z with
  | Z0 => PrimFloat.zero
  | Zpos p => of_pos p
  | Zneg p => PrimFloat.opp (of_pos p)
  end.

End Number.

(** models/Product.js (the schema that follows config/redis.js in
    src/src/routes/checkoutRoutes.js): [name], the unique [sku],
    [totalStock], [price], [description] and [isActive], with the [_id] of
    the document.  The collection is keyed by the unique [sku]; the
    description, which no service reads, is left out. *)
Record Product : Type := mkProduct {
  p_id : string;
  p_name : string;
  p_totalStock : Z;
  p_price : Number;
  p_isActive : bool
}.

Record OrderItem : Type := mkOrderItem {
  oi_productId : string;
  oi_sku : string;
  oi_quantity : Z;
  oi_price : Number
}.

(** Modelled from the spec: models/Order.js is not part of the sources.
    Order is [{orderId, userId, items, totalAmount, status}]; the id is the
    position of the document in the append-only collection. *)
Record Order : Type := mkOrder {
  o_id : nat;
  o_userId : string;
  o_items : list OrderItem;
  o_totalAmount : Number;
  o_status : string
}.

(** ** Errors, log lines and backend writes *)

Record Item : Type := mkItem { item_sku : string; item_quantity : Z }.

Inductive violation : Type :=
| QuantityMismatch (s : string) (reserved cart : Z)
    (* `Quantity mismatch for ${sku}. Reserved: .., Cart: ..` *)
| InsufficientStockFor (s : string) (available required : Z).
    (* `Insufficient stock for ${sku}. Available: .., Required: ..` *)

Inductive error : Type :=
| UserNotFound                      (* 'User not found' *)
| InvalidItem (i : Item)            (* `Invalid item: ${JSON.stringify(item)}` *)
| InsufficientStockSku (s : string) (available requested : Z)
    (* `Insufficient stock for SKU ${sku}. Available: .., Requested: ..` *)
| ProductNotFound                   (* 'Product not found' *)
| InsufficientStock                 (* 'Insufficient stock' *)
| EmptyCart                         (* 'Cart is empty' *)
| CheckoutValidationFailed (vs : list violation)
    (* `Checkout validation failed: ${validationErrors.join('; ')}` *)
| OverRelease                       (* 'Cannot release more than reserved' *)
| BackendError.                     (* a rejected driver call *)

(** The [console.error] calls, by their message. *)
Inductive logline : Type :=
| LogReserving (e : error)          (* 'Error reserving stock in Redis:' *)
| LogReservedQuantity (e : error)   (* 'Error getting reserved quantity:' *)
| LogTotalReserved (e : error)      (* 'Error getting total reserved stock:' *)
| LogCancelling (e : error)         (* 'Error cancelling reservation:' *)
| LogReleasing (e : error)          (* 'Error releasing reservation:' *)
| LogUserReservations (e : error)   (* 'Error getting user reservations:' *)
| LogRollback (e : error)           (* 'Error during rollback:' *)
| LogFetchingProduct (s : string) (e : error). (* `Error fetching product ${sku}:` *)

(** The writes that reached a backend, oldest first. *)
Inductive effect : Type :=
| OrderSaved (id : nat)
| StockSaved (s : string) (newStock : Z)
| RedisExec (cmds : list cmd).

(** ** The world and the monad of the services *)

(** What the environment does at one awaited driver call: [delay]
    milliseconds pass before the call is served, and the backend rejects it
    when [fails] is set. *)
Record event : Type := mkEvent { delay : N; fails : bool }.

Definition quiet_event : event := mkEvent 0 false.

Record World : Type := mkWorld {
  redis : gmap string entry;
  now : Z;
  sched : list event;
  products : gmap string Product;
  users : gmap string bool;       (* ObjectId -> isActive *)
  orders : list Order;
  log : list logline;
  effects : list effect
}.

Inductive result (A : Type) : Type :=
| Ok (a : A)
| Throw (e : error).
Arguments Ok {A} a.
Arguments Throw {A} e.

Definition M (A : Type) : Type := World -> result A * World.

Definition ret {A} (a : A) : M A := fun w => (Ok a, w).
Definition throw {A} (e : error) : M A := fun w => (Throw e, w).
Definition bind {A B} (m : M A) (k : A -> M B) : M B :=
  fun w => match m w with
           | (Ok a, w') => k a w'
           | (Throw e, w') => (Throw e, w')
           end.
(** [try { m } catch (error) { h error }] *)
Definition try_catch {A} (m : M A) (h : error -> M A) : M A :=
  fun w => match m w with
           | (Ok a, w') => (Ok a, w')
           | (Throw e, w') => h e w'
           end.

Notation "x <- m ;; k" := (bind m (fun x => k))
  (at level 100, m at next level, right associativity).
Notation "m ;;; k" := (bind m (fun _ => k))
  (at level 100, right associativity).

Definition set_redis (db : gmap string entry) (w : World) : World :=
  mkWorld db (now w) (sched w) (products w) (users w) (orders w) (log w) (effects w).
Definition set_products (ps : gmap string Product) (w : World) : World :=
  mkWorld (redis w) (now w) (sched w) ps (users w) (orders w) (log w) (effects w).
Definition set_orders (os : list Order) (w : World) : World :=
  mkWorld (redis w) (now w) (sched w) (products w) (users w) os (log w) (effects w).
Definition add_effect (e : effect) (w : World) : World :=
  mkWorld (redis w) (now w) (sched w) (products w) (users w) (orders w) (log w)
          (effects w ++ [e]).
Definition add_log (l : logline) (w : World) : World :=
  mkWorld (redis w) (now w) (sched w) (products w) (users w) (orders w) (log w ++ [l])
          (effects w).

(** [console.error(..)] *)
Definition console_error (l : logline) : M unit := fun w => (Ok tt, add_log l w).

(** The environment's part of an awaited driver call: the next event of
    the schedule (a quiet one when the schedule is exhausted), and the world
    once its delay has passed. *)
Definition next_event (w : World) : event := hd quiet_event (sched w).

Definition served (w : World) : World :=
  mkWorld (redis w) (now w + Z.of_N (delay (next_event w))) (tl (sched w)) (products w)
          (users w) (orders w) (log w) (effects w).

Definition await : M unit :=
  fun w => if fails (next_event w) then (Throw BackendError, served w)
           else (Ok tt, served w).

(** The clock between two requests. *)
Definition elapse (ms : Z) (w : World) : World :=
  mkWorld (redis w) (now w + ms) (sched w) (products w) (users w) (orders w) (log w)
          (effects w).

Module client.
Definition get (k : string) : M (option Z) :=
  await ;;; fun w => (Ok (redis_get (redis w) (now w) k), w).
Definition ttl (k : string) : M Z :=
  await ;;; fun w => (Ok (redis_ttl (redis w) (now w) k), w).
Definition keys (p : string) : M (list string) :=
  await ;;; fun w => (Ok (redis_keys (redis w) (now w) p), w).
(** [multi.exec()] for the commands queued on [multi]. *)
Definition exec (cmds : list cmd) : M unit :=
  await ;;; fun w =>
    (Ok tt, add_effect (RedisExec cmds) (set_redis (redis_exec (now w) cmds (redis w)) w)).
End client.

(** ** services/redisService.js *)

Module RedisService.

Definition getReservationKey (userId sku : string) : string :=
  "reservation:" +:+ userId +:+ ":" +:+ sku.

Definition getReservedStockKey (sku : string) : string :=
  "reserved_stock:" +:+ sku.

Definition reserveStock (userId sku : string) (quantity ttlSeconds : Z) : M bool :=
  let reservationKey := getReservationKey userId sku in
  let reservedStockKey := getReservedStockKey sku in
  try_catch
    (existingReservation <- client.get reservationKey ;;
     let existingQty := match existingReservation with Some v => v | None => 0 end in
     let newQty := existingQty + quantity in
     client.exec [SETEX reservationKey ttlSeconds newQty;
                  INCRBY reservedStockKey quantity;
                  EXPIRE reservedStockKey ttlSeconds] ;;;
     ret true)
    (fun e => console_error (LogReserving e) ;;; throw e).

Definition getReservedQuantity (userId sku : string) : M Z :=
  let reservationKey := getReservationKey userId sku in
  try_catch
    (reserved <- client.get reservationKey ;;
     ret (match reserved with Some v => v | None => 0 end))
    (fun e => console_error (LogReservedQuantity e) ;;; ret 0).

Definition getTotalReservedStock (sku : string) : M Z :=
  let reservedStockKey := getReservedStockKey sku in
  try_catch
    (reserved <- client.get reservedStockKey ;;
     ret (match reserved with Some v => v | None => 0 end))
    (fun e => console_error (LogTotalReserved e) ;;; ret 0).

(** The first queued command of cancel and release: the remainder is
    stored again with the key's remaining time to live, or with 600
    seconds when the TTL reply is not positive; nothing remaining deletes
    the key. *)
Definition keep_or_delete (reservationKey : string) (remainingQty : Z) : M cmd :=
  if 0 <? remainingQty then
    ttl <- client.ttl reservationKey ;;
    if 0 <? ttl then ret (SETEX reservationKey ttl remainingQty)
    else ret (SETEX reservationKey 600 remainingQty)
  else ret (DEL reservationKey).

(** [quantity = None] is the omitted (or [null]) argument. *)
Definition cancelReservation (userId sku : string) (quantity : option Z) : M Z :=
  let reservationKey := getReservationKey userId sku in
  let reservedStockKey := getReservedStockKey sku in
  try_catch
    (existingReservation <- client.get reservationKey ;;
     match existingReservation with
     | None => ret 0
     | Some existingQty =>
         let cancelQty := match quantity with
                          | Some q => Z.min q existingQty
                          | None => existingQty
                          end in
         let remainingQty := existingQty - cancelQty in
         first <- keep_or_delete reservationKey remainingQty ;;
         client.exec [first; DECRBY reservedStockKey cancelQty] ;;;
         ret cancelQty
     end)
    (fun e => console_error (LogCancelling e) ;;; throw e).

Definition releaseReservation (userId sku : string) (quantity : Z) : M bool :=
  let reservationKey := getReservationKey userId sku in
  let reservedStockKey := getReservedStockKey sku in
  try_catch
    (existingReservation <- client.get reservationKey ;;
     match existingReservation with
     | None => ret false
     | Some existingQty =>
         if existingQty <? quantity then throw OverRelease
         else
           let remainingQty := existingQty - quantity in
           first <- keep_or_delete reservationKey remainingQty ;;
           client.exec [first; DECRBY reservedStockKey quantity] ;;;
           ret true
     end)
    (fun e => console_error (LogReleasing e) ;;; throw e).

(** [key.split(':')[2]] *)
Definition sku_of_key (key : string) : string :=
  nth 2 (split_on ":" key) EmptyString.

(** The loop over the keys; [reservations] is the array being filled. *)
Fixpoint collect_reservations (keys : list string) (reservations : list Item)
  : M (list Item) :=
  match keys with
  | [] => ret reservations
  | key :: keys' =>
      quantity <- client.get key ;;
      let sku := sku_of_key key in
      collect_reservations keys'
        (match quantity with
         | Some q => reservations ++ [mkItem sku q]
         | None => reservations
         end)
  end.

Definition getUserReservations (userId : string) : M (list Item) :=
  let pattern := getReservationKey userId "*" in
  try_catch
    (keys <- client.keys pattern ;;
     collect_reservations keys [])
    (fun e => console_error (LogUserReservations e) ;;; ret []).

End RedisService.

(** ** services/userService.js *)

Module UserService.

Definition is_hex (c : ascii) : bool :=
  let n := nat_of_ascii c in
  ((48 <=? n) && (n <=? 57) || (65 <=? n) && (n <=? 70) || (97 <=? n) && (n <=? 102))%nat.

Fixpoint all_hex (s : string) : bool :=
  match s with
  | EmptyString => true
  | String c s' => is_hex c && all_hex s'
  end.

(** [mongoose.Types.ObjectId.isValid] on a string: twelve characters, or
    twenty-four hexadecimal digits. *)
Definition isValid (userId : string) : bool :=
  let n := String.length userId in
  ((n =? 12) || (n =? 24) && all_hex userId)%nat.

(** [User.findById(userId).where({ isActive: true })] *)
Definition findActiveById (userId : string) : M bool :=
  await ;;; fun w => (Ok (bool_decide (users w !! userId = Some true)), w).

Definition userExists (userId : string) : M bool :=
  if negb (isValid userId) then ret false
  else findActiveById userId.

End UserService.

(** ** services/productService.js *)

Record StockCheck : Type := mkStockCheck {
  isAvailable : bool;
  availableStock : Z;
  totalStock : Z;
  reservedStock : Z
}.

Record ProductStatus : Type := mkProductStatus {
  ps_productId : string;
  ps_name : string;
  ps_sku : string;
  ps_totalStock : Z;
  ps_reservedStock : Z;
  ps_availableStock : Z;
  ps_price : Number;
  ps_isActive : bool
}.

Module ProductService.

(** [Product.findOne({ sku, isActive: true })], then the test on the
    document found. *)
Definition getProductBySku (sku : string) : M Product :=
  await ;;; fun w =>
    match products w !! sku with
    | Some product => if p_isActive product then (Ok product, w)
                      else (Throw ProductNotFound, w)
    | None => (Throw ProductNotFound, w)
    end.

Definition checkStockAvailability (sku : string) (quantity : Z) : M StockCheck :=
  product <- getProductBySku sku ;;
  reservedStock <- RedisService.getTotalReservedStock sku ;;
  let availableStock := p_totalStock product - reservedStock in
  ret (mkStockCheck (quantity <=? availableStock) (Z.max 0 availableStock)
                    (p_totalStock product) reservedStock).

(** [product.save()] *)
Definition save (sku : string) (product : Product) : M unit :=
  await ;;; fun w =>
    (Ok tt, add_effect (StockSaved sku (p_totalStock product))
              (set_products (<[sku := product]> (products w)) w)).

Definition reduceStock (sku : string) (quantity : Z) : M Product :=
  product <- getProductBySku sku ;;
  if p_totalStock product <? quantity then throw InsufficientStock
  else
    let product' := mkProduct (p_id product) (p_name product)
                              (p_totalStock product - quantity)
                              (p_price product) (p_isActive product) in
    save sku product' ;;;
    ret product'.

Definition getProductStatus (sku : string) : M ProductStatus :=
  product <- getProductBySku sku ;;
  reservedStock <- RedisService.getTotalReservedStock sku ;;
  let availableStock := Z.max 0 (p_totalStock product - reservedStock) in
  ret (mkProductStatus (p_id product) (p_name product) sku (p_totalStock product)
                       reservedStock availableStock (p_price product)
                       (p_isActive product)).

End ProductService.

(** ** services/cartService.js *)

Record CartItem : Type := mkCartItem {
  ci_productId : string;
  ci_sku : string;
  ci_name : string;
  ci_price : Number;
  ci_quantity : Z;
  ci_totalPrice : Number
}.

Record Cart : Type := mkCart {
  cart_userId : string;
  cart_items : list CartItem;
  cart_totalItems : Z;
  cart_totalAmount : Number
}.

(** An item of a cancellation request: the quantity may be left out. *)
Record CancelItem : Type := mkCancelItem {
  cancel_sku : string;
  cancel_quantity : option Z
}.

(** How [cartService.cancelReservation] can fail: with its own
    'SKU is required for cancellation', or with an error of the services it
    calls. *)
Inductive cancel_failure : Type :=
| SkuRequired
| Raised (e : error).

Module CartService.

(** The body of the [for] loop inside the [try] of [reserveItems], in its
    two parts: the checks up to and including the availability check, and
    the reservation that follows the next await. *)
Definition check_item (item : Item) : M unit :=
  let sku := item_sku item in
  let quantity := item_quantity item in
  if String.eqb sku EmptyString || (quantity =? 0) || (quantity <=? 0)
  then throw (InvalidItem item)
  else
    stockCheck <- ProductService.checkStockAvailability sku quantity ;;
    if negb (isAvailable stockCheck)
    then throw (InsufficientStockSku sku (availableStock stockCheck) quantity)
    else ret tt.

Definition reserve_item (userId : string) (ttlSeconds : Z) (item : Item) : M unit :=
  RedisService.reserveStock userId (item_sku item) (item_quantity item) ttlSeconds ;;;
  ret tt.

Definition reserve_one (userId : string) (ttlSeconds : Z) (item : Item) : M unit :=
  check_item item ;;; reserve_item userId ttlSeconds item.

(** The loop of the [try] block.  [reservedItems] is the array declared
    before the [try]; it is returned with the outcome because the [catch]
    block reads it. *)
Fixpoint reserve_loop (userId : string) (ttlSeconds : Z) (items reservedItems : list Item)
  (w : World) : result unit * list Item * World :=
  match items with
  | [] => (Ok tt, reservedItems, w)
  | item :: items' =>
      match reserve_one userId ttlSeconds item w with
      | (Ok _, w') =>
          reserve_loop userId ttlSeconds items' (reservedItems ++ [item]) w'
      | (Throw e, w') => (Throw e, reservedItems, w')
      end
  end.

(** The loop of the [catch] block. *)
Fixpoint rollback (userId : string) (reservedItems : list Item) : M unit :=
  match reservedItems with
  | [] => ret tt
  | item :: items' =>
      try_catch
        (RedisService.cancelReservation userId (item_sku item) (Some (item_quantity item)) ;;;
         ret tt)
        (fun rollbackError => console_error (LogRollback rollbackError)) ;;;
      rollback userId items'
  end.

Definition reserveItems (userId : string) (items : list Item) (ttlSeconds : Z)
  : M (list Item) :=
  userExists <- UserService.userExists userId ;;
  if negb userExists then throw UserNotFound
  else fun w =>
    match reserve_loop userId ttlSeconds items [] w with
    | (Ok _, reservedItems, w') => (Ok reservedItems, w')
    | (Throw e, reservedItems, w') => (rollback userId reservedItems ;;; throw e) w'
    end.

(** The loop of [getUserCart]; [cartItems] is the array being filled. *)
Fixpoint collect_cart (reservations : list Item) (cartItems : list CartItem)
  : M (list CartItem) :=
  match reservations with
  | [] => ret cartItems
  | reservation :: rest =>
      cartItems' <-
        try_catch
          (product <- ProductService.getProductBySku (item_sku reservation) ;;
           ret (cartItems ++
                [mkCartItem (p_id product) (item_sku reservation) (p_name product)
                            (p_price product) (item_quantity reservation)
                            (Number.mul (p_price product)
                                        (Number.of_Z (item_quantity reservation)))]))
          (fun e => console_error (LogFetchingProduct (item_sku reservation) e) ;;;
                    ret cartItems) ;;
      collect_cart rest cartItems'
  end.

Definition getUserCart (userId : string) : M Cart :=
  reservations <- RedisService.getUserReservations userId ;;
  cartItems <- collect_cart reservations [] ;;
  ret (mkCart userId cartItems
              (fold_left (fun sum item => sum + ci_quantity item) cartItems 0)
              (fold_left (fun sum item => Number.add sum (ci_totalPrice item)) cartItems
                         Number.zero)).

(** [quantity || null]: a quantity of 0 counts as left out. *)
Definition or_null (quantity : option Z) : option Z :=
  match quantity with
  | Some 0 => None
  | _ => quantity
  end.

(** The loop of [cancelReservation]; [cancelledItems] is the array being
    filled. *)
Fixpoint cancel_loop (userId : string) (items : list CancelItem) (cancelledItems : list Item)
  (w : World) : (cancel_failure + list Item) * World :=
  match items with
  | [] => (inr cancelledItems, w)
  | item :: items' =>
      if String.eqb (cancel_sku item) EmptyString then (inl SkuRequired, w)
      else
        match RedisService.cancelReservation userId (cancel_sku item)
                (or_null (cancel_quantity item)) w with
        | (Ok cancelledQty, w') =>
            cancel_loop userId items'
              (if 0 <? cancelledQty
               then cancelledItems ++ [mkItem (cancel_sku item) cancelledQty]
               else cancelledItems) w'
        | (Throw e, w') => (inl (Raised e), w')
        end
  end.

Definition cancelReservation (userId : string) (items : list CancelItem) (w : World)
  : (cancel_failure + list Item) * World :=
  match UserService.userExists userId w with
  | (Ok true, w') => cancel_loop userId items [] w'
  | (Ok false, w') => (inl (Raised UserNotFound), w')
  | (Throw e, w') => (inl (Raised e), w')
  end.

End CartService.

(** ** services/checkoutService.js *)

Record Receipt : Type := mkReceipt {
  r_orderId : nat;
  r_userId : string;
  r_items : list OrderItem;
  r_totalAmount : Number
}.

Module CheckoutService.

(** The validation loop; [validationErrors] is the array being filled. *)
Fixpoint validate (userId : string) (items : list CartItem)
  (validationErrors : list violation) : M (list violation) :=
  match items with
  | [] => ret validationErrors
  | item :: items' =>
      reservedQty <- RedisService.getReservedQuantity userId (ci_sku item) ;;
      let errs1 :=
        if reservedQty <? ci_quantity item
        then validationErrors ++ [QuantityMismatch (ci_sku item) reservedQty (ci_quantity item)]
        else validationErrors in
      stockCheck <- ProductService.checkStockAvailability (ci_sku item) (ci_quantity item) ;;
      let errs2 :=
        if negb (isAvailable stockCheck)
        then errs1 ++ [InsufficientStockFor (ci_sku item) (availableStock stockCheck)
                                            (ci_quantity item)]
        else errs1 in
      validate userId items' errs2
  end.

Definition order_item (item : CartItem) : OrderItem :=
  mkOrderItem (ci_productId item) (ci_sku item) (ci_quantity item) (ci_price item).

(** [new Order({..})] followed by [order.save()]. *)
Definition save_order (userId : string) (orderItems : list OrderItem) (totalAmount : Number)
  : M Order :=
  await ;;; fun w =>
    let order := mkOrder (length (orders w)) userId orderItems totalAmount "completed" in
    (Ok order, add_effect (OrderSaved (o_id order)) (set_orders (orders w ++ [order]) w)).

Fixpoint reduce_all (items : list CartItem) : M unit :=
  match items with
  | [] => ret tt
  | item :: items' =>
      ProductService.reduceStock (ci_sku item) (ci_quantity item) ;;;
      reduce_all items'
  end.

Fixpoint release_all (userId : string) (items : list CartItem) : M unit :=
  match items with
  | [] => ret tt
  | item :: items' =>
      RedisService.releaseReservation userId (ci_sku item) (ci_quantity item) ;;;
      release_all userId items'
  end.

Definition processCheckout (userId : string) : M Receipt :=
  userExists <- UserService.userExists userId ;;
  if negb userExists then throw UserNotFound
  else
    cart <- CartService.getUserCart userId ;;
    if (length (cart_items cart) =? 0)%nat then throw EmptyCart
    else
      validationErrors <- validate userId (cart_items cart) [] ;;
      if (0 <? length validationErrors)%nat
      then throw (CheckoutValidationFailed validationErrors)
      else
        let orderItems := map order_item (cart_items cart) in
        order <- save_order userId orderItems (cart_totalAmount cart) ;;
        reduce_all (cart_items cart) ;;;
        release_all userId (cart_items cart) ;;;
        ret (mkReceipt (o_id order) userId orderItems (cart_totalAmount cart)).

End CheckoutService.

(** ** controllers/cartController.js *)

(** What a controller sends: the HTTP status with the data of a success
    ([success: true]) or with the error whose message is reported
    ([success: false]). *)
Inductive reply (A : Type) : Type :=
| Replied (status : nat) (data : A)
| Failed (status : nat) (e : error).
Arguments Replied {A} status data.
Arguments Failed {A} status e.

Module CartController.

(** [getUserCart]: [res.json(..)] answers with status 200. *)
Definition getUserCart (userId : string) (w : World) : reply Cart * World :=
  match CartService.getUserCart userId w with
  | (Ok cart, w') => (Replied 200 cart, w')
  | (Throw e, w') => (Failed 500 e, w')
  end.

End CartController.

(** ** Reading the stores, and quiet environments *)

(** What [getReservedQuantity] and [getTotalReservedStock] read when the
    backend answers. *)
Definition held (w : World) (userId sku : string) : Z :=
  default 0 (redis_get (redis w) (now w) (RedisService.getReservationKey userId sku)).

Definition aggregate (w : World) (sku : string) : Z :=
  default 0 (redis_get (redis w) (now w) (RedisService.getReservedStockKey sku)).

(** A quiet environment: no delay and no rejected call from here on. *)
Definition quiet (w : World) : Prop := sched w = [].

(** The world after a transaction that the backend accepted. *)
Definition after_exec (cmds : list cmd) (w : World) : World :=
  add_effect (RedisExec cmds) (set_redis (redis_exec (now w) cmds (redis w)) w).

(** The key a command writes. *)
Definition cmd_key (c : cmd) : string :=
  match c with
  | SETEX k _ _ | INCRBY k _ | DECRBY k _ | EXPIRE k _ | DEL k => k
  end.

(** The first command that cancel and release queue when the TTL lookup is
    served from store [db] at instant [t]. *)
Definition stored_remainder (db : gmap string entry) (t : Z) (k : string) (remaining : Z)
  : cmd :=
  if 0 <? remaining then
    if 0 <? redis_ttl db t k then SETEX k (redis_ttl db t k) remaining
    else SETEX k 600 remaining
  else DEL k.


(** ** Rejected driver calls *)

Definition accepted (ev : event) : Prop := fails ev = false.

(** [on_rejection m outcome line]: a run of [m] consumes the events [es] of
    the schedule, one per driver call, and either every call was accepted, or
    the rejected call is the last one made, the run ends with [outcome], and
    [line] is the one line it has written on the console. *)
Definition on_rejection {A} (m : M A) (outcome : result A) (line : logline) : Prop :=
  forall (w w' : World) (r : result A),
    m w = (r, w') ->
    exists es : list event,
      sched w = es ++ sched w'
      /\ (Forall accepted es
          \/ exists (es0 : list event) (ev : event),
               es = es0 ++ [ev] /\ Forall accepted es0 /\ fails ev = true
               /\ r = outcome /\ log w' = log w ++ [line]).

(** The body of a [try] block: it writes nothing on the console, and a
    rejected call is the last one it makes and is thrown as the backend's
    error. *)
Definition fail_fast {A} (m : M A) : Prop :=
  forall (w w' : World) (r : result A),
    m w = (r, w') ->
    log w' = log w
    /\ exists es : list event,
         sched w = es ++ sched w'
         /\ (Forall accepted es
             \/ exists (es0 : list event) (ev : event),
                  es = es0 ++ [ev] /\ Forall accepted es0 /\ fails ev = true
                  /\ r = Throw BackendError).

(** ** The stock ledger and the batch *)

(** The document that [Product.findOne({ sku, isActive: true })] finds. *)
Definition active_product (w : World) (sku : string) : option Product :=
  match products w !! sku with
  | Some product => if p_isActive product then Some product else None
  | None => None
  end.

(** The units of [sku] in a list of items. *)
Fixpoint units_of (sku : string) (items : list Item) : Z :=
  match items with
  | [] => 0
  | item :: items' =>
      (if String.eqb (item_sku item) sku then item_quantity item else 0) + units_of sku items'
  end.

(** The transaction of [reserveStock] for a hold that reads [existingQty]. *)
Definition reserve_cmds (userId sku : string) (existingQty quantity ttlSeconds : Z) : list cmd :=
  [SETEX (RedisService.getReservationKey userId sku) ttlSeconds (existingQty + quantity);
   INCRBY (RedisService.getReservedStockKey sku) quantity;
   EXPIRE (RedisService.getReservedStockKey sku) ttlSeconds].

(** What [checkStockAvailability] answers for a product and a counter reading. *)
Definition stock_check (product : Product) (reserved quantity : Z) : StockCheck :=
  mkStockCheck (quantity <=? p_totalStock product - reserved)
               (Z.max 0 (p_totalStock product - reserved))
               (p_totalStock product) reserved.


(** ** The cart and the checkout *)

(** The world with more lines on the console. *)
Definition logged (ls : list logline) (w : World) : World :=
  mkWorld (redis w) (now w) (sched w) (products w) (users w) (orders w) (log w ++ ls)
          (effects w).

(** The entry that [getUserReservations] makes for a key. *)
Definition reservation_of_key (w : World) (key : string) : option Item :=
  mkItem (RedisService.sku_of_key key) <$> redis_get (redis w) (now w) key.

Definition user_reservations (w : World) (userId : string) : list Item :=
  omap (reservation_of_key w)
       (redis_keys (redis w) (now w) (RedisService.getReservationKey userId "*")).

(** The cart line of a reservation: none when its SKU has no active
    product. *)
Definition cart_item (w : World) (reservation : Item) : option CartItem :=
  match active_product w (item_sku reservation) with
  | Some product =>
      Some (mkCartItem (p_id product) (item_sku reservation) (p_name product)
                       (p_price product) (item_quantity reservation)
                       (Number.mul (p_price product)
                                   (Number.of_Z (item_quantity reservation))))
  | None => None
  end.

Definition fetch_failure (w : World) (reservation : Item) : option logline :=
  match active_product w (item_sku reservation) with
  | Some _ => None
  | None => Some (LogFetchingProduct (item_sku reservation) ProductNotFound)
  end.

Definition sumZ (l : list Z) : Z := foldr Z.add 0 l.

(** The sum of numbers as [reduce((sum, x) => sum + x, 0)] adds them: from
    the left, starting from 0, each addition rounded. *)
Definition sum_left (l : list Number) : Number := fold_left Number.add l Number.zero.

(** The checks of the checkout on one cart line, as the specification words
    them: the hold must cover the cart quantity, and the availability check
    must still pass. *)
Definition violations_of (w : World) (userId : string) (item : CartItem) : list violation :=
  (if held w userId (ci_sku item) <? ci_quantity item
   then [QuantityMismatch (ci_sku item) (held w userId (ci_sku item)) (ci_quantity item)]
   else [])
  ++ match active_product w (ci_sku item) with
     | Some product =>
         let check := stock_check product (aggregate w (ci_sku item)) (ci_quantity item) in
         if isAvailable check then []
         else [InsufficientStockFor (ci_sku item) (availableStock check) (ci_quantity item)]
     | None => []
     end.

(** The total stock of a SKU in the ledger (0 when there is no document). *)
Definition stock (w : World) (sku : string) : Z :=
  match products w !! sku with
  | Some product => p_totalStock product
  | None => 0
  end.

(** What [processCheckout] does once the validation has passed. *)
Definition settle (userId : string) (cart : Cart) : M Receipt :=
  let orderItems := map CheckoutService.order_item (cart_items cart) in
  order <- CheckoutService.save_order userId orderItems (cart_totalAmount cart) ;;
  CheckoutService.reduce_all (cart_items cart) ;;;
  CheckoutService.release_all userId (cart_items cart) ;;;
  ret (mkReceipt (o_id order) userId orderItems (cart_totalAmount cart)).

Definition is_exec (e : effect) : Prop := exists cmds, e = RedisExec cmds.

(** The stock decrements of a checkout, as the ledger saw them. *)
Definition stock_saves (w : World) (items : list CartItem) : list effect :=
  map (fun item => StockSaved (ci_sku item) (stock w (ci_sku item) - ci_quantity item)) items.

(** ** Computations that write nothing *)

(** Two worlds with the same stores: only the clock, the schedule and the
    console may differ. *)
Definition same_stores (w w' : World) : Prop :=
  redis w' = redis w /\ products w' = products w /\ users w' = users w
  /\ orders w' = orders w /\ effects w' = effects w.

Definition reads_only {A} (m : M A) : Prop :=
  forall (w w' : World) (r : result A), m w = (r, w') -> same_stores w w'.

(** [throws P m]: every error that [m] ends with satisfies [P]. *)
Definition throws {A} (P : error -> Prop) (m : M A) : Prop :=
  forall (w w' : World) (e : error), m w = (Throw e, w') -> P e.

(** The errors of the writing part of a checkout. *)
Definition settle_error (e : error) : Prop :=
  e = BackendError \/ e = ProductNotFound \/ e = InsufficientStock \/ e = OverRelease.

Definition is_stock_save (e : effect) : Prop := exists s n, e = StockSaved s n.

(** The writes of one checkout, in the order the backends may see them:
    none, or the order, then stock decrements, then release transactions. *)
Definition checkout_writes (l : list effect) : Prop :=
  l = []
  \/ exists id saves releases,
      l = OrderSaved id :: saves ++ releases
      /\ Forall is_stock_save saves /\ Forall is_exec releases.

(** ** Scenarios *)

Definition alice : string := "64b7f0c2a1d3e4f5a6b7c8d9".
Definition bob : string := "64b7f0c2a1d3e4f5a6b7c8da".

Definition flash_deal (totalStock : Z) : Product :=
  mkProduct "p1" "Flash Deal Product" totalStock 9999%float true.

Definition second_deal (totalStock : Z) : Product :=
  mkProduct "p2" "Second Deal Product" totalStock 500%float true.

(** A shop with one product, two users, and nothing reserved. *)
Definition shop (totalStock : Z) : World :=
  mkWorld ∅ 0 [] {[ "FLASH-001" := flash_deal totalStock ]}
          {[ alice := true; bob := true ]} [] [] [].

(** The same with a second product. *)
Definition shop2 (stock1 stock2 : Z) : World :=
  mkWorld ∅ 0 [] {[ "FLASH-001" := flash_deal stock1; "FLASH-002" := second_deal stock2 ]}
          {[ alice := true; bob := true ]} [] [] [].

(** The world after a computation, whatever it returned. *)
Definition after {A} (m : M A) (w : World) : World := snd (m w).

(** Two requests for the last unit, interleaved at the await between the
    availability check of [reserveItems] and its call of [reserveStock]:
    both are checked before either reserves. *)
Definition race_for_last_unit : M unit :=
  CartService.check_item (mkItem "FLASH-001" 1) ;;;
  CartService.check_item (mkItem "FLASH-001" 1) ;;;
  CartService.reserve_item alice 600 (mkItem "FLASH-001" 1) ;;;
  CartService.reserve_item bob 600 (mkItem "FLASH-001" 1).

(** Alice reserves 5 of 10 at time 0 and Bob 1 five minutes later, each for
    600 seconds; the world one second after Alice's hold has expired. *)
Definition after_alice_expired : World :=
  elapse 301000
    (after (CartService.reserveItems bob [mkItem "FLASH-001" 1] 600)
       (elapse 300000
          (after (CartService.reserveItems alice [mkItem "FLASH-001" 5] 600) (shop 10)))).

(** Alice reserves 5 of 10 for 600 seconds; 599.7 seconds later, when the
    TTL reply for her key rounds to 0, she cancels 2 of them. *)
Definition before_late_cancel : World :=
  elapse 599700 (after (CartService.reserveItems alice [mkItem "FLASH-001" 5] 600) (shop 10)).

Definition after_late_cancel : World :=
  elapse 1300
    (after (RedisService.cancelReservation alice "FLASH-001" (Some 2)) before_late_cancel).

(** Alice holds 2 of 200. *)
Definition alice_holds_two : World :=
  after (CartService.reserveItems alice [mkItem "FLASH-001" 2] 600) (shop 200).

(** The same, with the next driver call rejected by the backend. *)
Definition backend_down : World :=
  mkWorld (redis alice_holds_two) (now alice_holds_two) [mkEvent 0 true]
          (products alice_holds_two) (users alice_holds_two) (orders alice_holds_two)
          (log alice_holds_two) (effects alice_holds_two).


(** Alice holds 3 of 5 units of one product and 4 of 6 of another. *)
Definition alice_holds_most : World :=
  after (CartService.reserveItems alice [mkItem "FLASH-001" 3; mkItem "FLASH-002" 4] 600)
        (shop2 5 6).

(** ** Further notions for the properties of the services *)

(** No [:] in a string. *)
Fixpoint colon_free (s : string) : bool :=
  match s with
  | EmptyString => true
  | String c s' => negb (Ascii.eqb c ":") && colon_free s'
  end.

(** No character that a KEYS pattern reads as other than itself. *)
Definition plain_char (c : ascii) : bool :=
  negb (Ascii.eqb c "*") && negb (Ascii.eqb c "?") && negb (Ascii.eqb c "[")
  && negb (Ascii.eqb c "\").

Fixpoint plain (s : string) : bool :=
  match s with
  | EmptyString => true
  | String c s' => plain_char c && plain s'
  end.

(** Every document of the ledger has a total stock of at least 0. *)
Definition stock_nonneg (w : World) : Prop :=
  forall s p, products w !! s = Some p -> 0 <= p_totalStock p.

(** [preserves R m]: every run of [m] takes a world to one related by [R]. *)
Definition preserves (R : World -> World -> Prop) {A} (m : M A) : Prop :=
  forall (w w' : World) (r : result A), m w = (r, w') -> R w w'.

(** A cart line whose total is its price times its quantity. *)
Definition line_ok (item : CartItem) : Prop :=
  ci_totalPrice item = Number.mul (ci_price item) (Number.of_Z (ci_quantity item)).

(** The amount that [cancelReservation] takes off a hold of [h]. *)
Definition cancelled (quantity : option Z) (h : Z) : Z :=
  match quantity with
  | Some q => Z.min q h
  | None => h
  end.

(** The fixed part of the keys, and of the KEYS pattern, of a user. *)
Definition key_prefix (userId : string) : string :=
  "reservation:" +:+ userId +:+ ":".

(** Worlds with the same MongoDB collections. *)
Definition same_ledger (w w' : World) : Prop :=
  products w' = products w /\ orders w' = orders w /\ users w' = users w.

(** Worlds with the same Redis store and the same orders. *)
Definition same_redis_and_orders (w w' : World) : Prop :=
  redis w' = redis w /\ orders w' = orders w.

(** The invariant of the ledger is carried from the first world to the
    second. *)
Definition carries_stock_nonneg (w w' : World) : Prop :=
  stock_nonneg w -> stock_nonneg w'.

(** The errors of a checkout other than the ledger's 'Insufficient stock'. *)
Definition other_error (e : error) : Prop :=
  e = BackendError \/ e = ProductNotFound \/ e = OverRelease.

(** ** Further scenarios *)

(** A shop of ten units where the product lookup of the next call is
    answered and the read of the counter after it is rejected. *)
Definition counter_read_fails : World :=
  mkWorld ∅ 0 [mkEvent 0 false; mkEvent 0 true] {[ "FLASH-001" := flash_deal 10 ]}
          {[ alice := true; bob := true ]} [] [] [].

(** A shop with two products of five units whose SKUs are [A] and [A:x]. *)
Definition shop_colon : World :=
  mkWorld ∅ 0 []
          {[ "A" := mkProduct "pa" "Deal A" 5 100%float true;
             "A:x" := mkProduct "pax" "Deal A, variant x" 5 100%float true ]}
          {[ alice := true ]} [] [] [].

(** Alice reserves all 5 units of [A] for 600 seconds and cancels 2 of them
    599.7 seconds later, so that her remaining 3 are stored again for 600
    seconds while the counter of [A] expires; 1.3 seconds later she reserves
    3 units of [A:x]. *)
Definition alice_holds_twice : World :=
  after (CartService.reserveItems alice [mkItem "A:x" 3] 600)
    (elapse 1300
       (after (RedisService.cancelReservation alice "A" (Some 2))
          (elapse 599700
             (after (CartService.reserveItems alice [mkItem "A" 5] 600) shop_colon)))).

(** Alice reserves 1 unit of [A] and 1 unit of [A:x] in one batch. *)
Definition alice_holds_both : World :=
  after (CartService.reserveItems alice [mkItem "A" 1; mkItem "A:x" 1] 600) shop_colon.

(** Alice reserves 2 units of [A:x], and the product [A:x] is then
    deactivated; [A] stays active and nobody holds any of it. *)
Definition variant_withdrawn : World :=
  (fun w =>
     set_products (<[ "A:x" := mkProduct "pax" "Deal A, variant x" 5 100%float false ]>
                     (products w)) w)
    (after (CartService.reserveItems alice [mkItem "A:x" 2] 600) shop_colon).

(** A product priced 99.99, of which Alice holds 3 units. *)
Definition alice_holds_three : World :=
  after (CartService.reserveItems alice [mkItem "FLASH-001" 3] 600)
    (mkWorld ∅ 0 []
             {[ "FLASH-001" := mkProduct "p1" "Flash Deal Product" 100 99.99%float true ]}
             {[ alice := true ]} [] [] []).

(** * Properties *)

(** ** The key scheme *)

Lemma append_inj_r (p a b : string) : p +:+ a = p +:+ b -> a = b.
Proof.
  induction p as [|c p IH]; simpl; intros H; [exact H|].
  injection H as H. auto.
Qed.

Lemma reservation_key_inj (u s1 s2 : string) :
  RedisService.getReservationKey u s1 = RedisService.getReservationKey u s2 -> s1 = s2.
Proof.
  unfold RedisService.getReservationKey. intros H.
  apply append_inj_r in H. apply append_inj_r in H. apply append_inj_r in H. exact H.
Qed.

Lemma stock_key_inj (s1 s2 : string) :
  RedisService.getReservedStockKey s1 = RedisService.getReservedStockKey s2 -> s1 = s2.
Proof. unfold RedisService.getReservedStockKey. apply append_inj_r. Qed.

Lemma reservation_key_not_stock_key (u s s' : string) :
  RedisService.getReservationKey u s <> RedisService.getReservedStockKey s'.
Proof.
  unfold RedisService.getReservationKey, RedisService.getReservedStockKey.
  intros H. cbv [String.append] in H. discriminate H.
Qed.


Lemma served_quiet (w : World) : quiet w -> served w = w.
Proof.
  unfold quiet, served, next_event. destruct w as [db t sc ps us os lg ef]. simpl.
  intros ->. simpl. f_equal. lia.
Qed.

Lemma await_quiet (w : World) : quiet w -> await w = (Ok tt, w).
Proof.
  intros Hq. unfold await. rewrite (served_quiet w Hq).
  unfold next_event. rewrite Hq. reflexivity.
Qed.

Lemma await_served (w : World) :
  fails (next_event w) = false -> await w = (Ok tt, served w).
Proof. unfold await. intros ->. reflexivity. Qed.

Lemma await_rejected (w : World) :
  fails (next_event w) = true -> await w = (Throw BackendError, served w).
Proof. unfold await. intros ->. reflexivity. Qed.

Lemma bind_ok {A B} (m : M A) (k : A -> M B) (w w' : World) (a : A) :
  m w = (Ok a, w') -> bind m k w = k a w'.
Proof. unfold bind. intros ->. reflexivity. Qed.

Lemma bind_throw {A B} (m : M A) (k : A -> M B) (w w' : World) (e : error) :
  m w = (Throw e, w') -> bind m k w = (Throw e, w').
Proof. unfold bind. intros ->. reflexivity. Qed.

Lemma try_ok {A} (m : M A) (h : error -> M A) (w w' : World) (a : A) :
  m w = (Ok a, w') -> try_catch m h w = (Ok a, w').
Proof. unfold try_catch. intros ->. reflexivity. Qed.

Lemma try_throw {A} (m : M A) (h : error -> M A) (w w' : World) (e : error) :
  m w = (Throw e, w') -> try_catch m h w = h e w'.
Proof. unfold try_catch. intros ->. reflexivity. Qed.

Lemma get_quiet (k : string) (w : World) :
  quiet w -> client.get k w = (Ok (redis_get (redis w) (now w) k), w).
Proof. intros Hq. unfold client.get. rewrite (bind_ok _ _ _ _ _ (await_quiet w Hq)). reflexivity. Qed.

Lemma ttl_quiet (k : string) (w : World) :
  quiet w -> client.ttl k w = (Ok (redis_ttl (redis w) (now w) k), w).
Proof. intros Hq. unfold client.ttl. rewrite (bind_ok _ _ _ _ _ (await_quiet w Hq)). reflexivity. Qed.

Lemma keys_quiet (p : string) (w : World) :
  quiet w -> client.keys p w = (Ok (redis_keys (redis w) (now w) p), w).
Proof. intros Hq. unfold client.keys. rewrite (bind_ok _ _ _ _ _ (await_quiet w Hq)). reflexivity. Qed.

Lemma exec_quiet (cmds : list cmd) (w : World) :
  quiet w -> client.exec cmds w = (Ok tt, after_exec cmds w).
Proof. intros Hq. unfold client.exec. rewrite (bind_ok _ _ _ _ _ (await_quiet w Hq)). reflexivity. Qed.

Lemma after_exec_quiet (cmds : list cmd) (w : World) : quiet w -> quiet (after_exec cmds w).
Proof. unfold quiet. auto. Qed.

Lemma getReservedQuantity_quiet (u s : string) (w : World) :
  quiet w -> RedisService.getReservedQuantity u s w = (Ok (held w u s), w).
Proof.
  intros Hq. unfold RedisService.getReservedQuantity, held.
  erewrite try_ok; [reflexivity|].
  rewrite (bind_ok _ _ _ _ _ (get_quiet _ w Hq)). unfold ret.
  destruct (redis_get _ _ _); reflexivity.
Qed.

Lemma getTotalReservedStock_quiet (s : string) (w : World) :
  quiet w -> RedisService.getTotalReservedStock s w = (Ok (aggregate w s), w).
Proof.
  intros Hq. unfold RedisService.getTotalReservedStock, aggregate.
  erewrite try_ok; [reflexivity|].
  rewrite (bind_ok _ _ _ _ _ (get_quiet _ w Hq)). unfold ret.
  destruct (redis_get _ _ _); reflexivity.
Qed.

Lemma get_served (k : string) (w : World) :
  fails (next_event w) = false ->
  client.get k w = (Ok (redis_get (redis w) (now (served w)) k), served w).
Proof. intros Hf. unfold client.get. rewrite (bind_ok _ _ _ _ _ (await_served w Hf)). reflexivity. Qed.

Lemma ttl_served (k : string) (w : World) :
  fails (next_event w) = false ->
  client.ttl k w = (Ok (redis_ttl (redis w) (now (served w)) k), served w).
Proof. intros Hf. unfold client.ttl. rewrite (bind_ok _ _ _ _ _ (await_served w Hf)). reflexivity. Qed.

Lemma exec_served (cmds : list cmd) (w : World) :
  fails (next_event w) = false ->
  client.exec cmds w = (Ok tt, after_exec cmds (served w)).
Proof. intros Hf. unfold client.exec. rewrite (bind_ok _ _ _ _ _ (await_served w Hf)). reflexivity. Qed.

(** ** The Redis commands *)

Lemma lookup_live_insert (db : gmap string entry) (t : Z) (k : string) (e : entry) :
  lookup_live (<[k := e]> db) t k = if live t e then Some e else None.
Proof. unfold lookup_live. rewrite lookup_insert_eq. reflexivity. Qed.

Lemma lookup_live_insert_ne (db : gmap string entry) (t : Z) (k k' : string) (e : entry) :
  k <> k' -> lookup_live (<[k := e]> db) t k' = lookup_live db t k'.
Proof. intros Hne. unfold lookup_live. rewrite lookup_insert_ne by exact Hne. reflexivity. Qed.

Lemma lookup_live_delete (db : gmap string entry) (t : Z) (k : string) :
  lookup_live (delete k db) t k = None.
Proof. unfold lookup_live. rewrite lookup_delete_eq. reflexivity. Qed.

Lemma lookup_live_delete_ne (db : gmap string entry) (t : Z) (k k' : string) :
  k <> k' -> lookup_live (delete k db) t k' = lookup_live db t k'.
Proof. intros Hne. unfold lookup_live. rewrite lookup_delete_ne by exact Hne. reflexivity. Qed.

Lemma lookup_live_Some (db : gmap string entry) (t : Z) (k : string) (e : entry) :
  lookup_live db t k = Some e -> db !! k = Some e /\ live t e = true.
Proof.
  unfold lookup_live. destruct (db !! k) as [e'|]; [|discriminate].
  destruct (live t e') eqn:Hl; [|discriminate]. intros [= ->]. auto.
Qed.

Lemma incr_by_get (db : gmap string entry) (t : Z) (k : string) (n : Z) :
  redis_get (incr_by db t k n) t k = Some (default 0 (redis_get db t k) + n).
Proof.
  unfold redis_get, incr_by. destruct (lookup_live db t k) as [e|] eqn:He.
  - apply lookup_live_Some in He as [_ Hl]. rewrite lookup_live_insert.
    unfold live in *. simpl. rewrite Hl. reflexivity.
  - rewrite lookup_live_insert. reflexivity.
Qed.

Lemma incr_by_other (db : gmap string entry) (t : Z) (k k' : string) (n : Z) :
  k <> k' -> lookup_live (incr_by db t k n) t k' = lookup_live db t k'.
Proof.
  intros Hne. unfold incr_by.
  destruct (lookup_live db t k); apply lookup_live_insert_ne; exact Hne.
Qed.

Lemma apply_cmd_other (t : Z) (db : gmap string entry) (c : cmd) (k' : string) :
  cmd_key c <> k' -> apply_cmd t db c !! k' = db !! k'.
Proof.
  intros Hne. destruct c as [k s v|k n|k n|k s|k]; simpl in *.
  - destruct (0 <? s); [apply lookup_insert_ne; exact Hne|reflexivity].
  - unfold incr_by. destruct (lookup_live db t k); apply lookup_insert_ne; exact Hne.
  - unfold incr_by. destruct (lookup_live db t k); apply lookup_insert_ne; exact Hne.
  - destruct (lookup_live db t k); [|reflexivity].
    destruct (0 <? s); [apply lookup_insert_ne|apply lookup_delete_ne]; exact Hne.
  - apply lookup_delete_ne; exact Hne.
Qed.

Lemma redis_exec_other (t : Z) (cmds : list cmd) (db : gmap string entry) (k' : string) :
  Forall (fun c => cmd_key c <> k') cmds -> redis_exec t cmds db !! k' = db !! k'.
Proof.
  unfold redis_exec. revert db. induction cmds as [|c cmds IH]; intros db Hall; [reflexivity|].
  inversion Hall as [|? ? Hc Hcs]; subst. simpl. rewrite IH by exact Hcs.
  apply apply_cmd_other; exact Hc.
Qed.

Lemma redis_get_ext (db db' : gmap string entry) (t : Z) (k : string) :
  db' !! k = db !! k -> redis_get db' t k = redis_get db t k.
Proof. unfold redis_get, lookup_live. intros ->. reflexivity. Qed.

Lemma keep_or_delete_quiet (k : string) (remaining : Z) (w : World) :
  quiet w ->
  RedisService.keep_or_delete k remaining w
  = (Ok (stored_remainder (redis w) (now w) k remaining), w).
Proof.
  intros Hq. unfold RedisService.keep_or_delete, stored_remainder.
  destruct (0 <? remaining); [|reflexivity].
  rewrite (bind_ok _ _ _ _ _ (ttl_quiet k w Hq)).
  destruct (0 <? redis_ttl _ _ _); reflexivity.
Qed.

Lemma stored_remainder_key (db : gmap string entry) (t : Z) (k : string) (remaining : Z) :
  cmd_key (stored_remainder db t k remaining) = k.
Proof.
  unfold stored_remainder.
  destruct (0 <? remaining); [destruct (0 <? redis_ttl db t k)|]; reflexivity.
Qed.

Lemma stored_remainder_lookup (db : gmap string entry) (t : Z) (k : string) (remaining : Z) :
  apply_cmd t db (stored_remainder db t k remaining) !! k
  = if 0 <? remaining
    then Some (Entry remaining
                 (Some (t + 1000 * (if 0 <? redis_ttl db t k then redis_ttl db t k else 600))))
    else None.
Proof.
  unfold stored_remainder. destruct (0 <? remaining).
  - destruct (0 <? redis_ttl db t k) eqn:Ht; simpl; [rewrite Ht|]; apply lookup_insert_eq.
  - simpl. apply lookup_delete_eq.
Qed.

Lemma stored_remainder_get (db : gmap string entry) (t : Z) (k : string) (remaining : Z) :
  0 <= remaining ->
  default 0 (redis_get (apply_cmd t db (stored_remainder db t k remaining)) t k) = remaining.
Proof.
  intros Hr. unfold redis_get, lookup_live. rewrite stored_remainder_lookup.
  destruct (0 <? remaining) eqn:Hpos.
  - unfold live. simpl.
    assert (Hlt : (t <? t + 1000 * (if 0 <? redis_ttl db t k then redis_ttl db t k else 600)) = true).
    { apply Z.ltb_lt. destruct (0 <? redis_ttl db t k) eqn:Ht; [apply Z.ltb_lt in Ht|]; lia. }
    rewrite Hlt. reflexivity.
  - apply Z.ltb_ge in Hpos. simpl. lia.
Qed.

(** The store after [first; DECRBY counter n], read at the same instant. *)
Lemma settle_held (db : gmap string entry) (t : Z) (u s : string) (remaining n : Z) :
  0 <= remaining ->
  default 0 (redis_get
               (redis_exec t [stored_remainder db t (RedisService.getReservationKey u s)
                                remaining;
                              DECRBY (RedisService.getReservedStockKey s) n] db) t
               (RedisService.getReservationKey u s))
  = remaining.
Proof.
  intros Hr. set (k := RedisService.getReservationKey u s). unfold redis_exec. simpl fold_left.
  etransitivity; [|apply (stored_remainder_get db t k remaining Hr)].
  f_equal. apply redis_get_ext. unfold incr_by.
  destruct (lookup_live _ t (RedisService.getReservedStockKey s));
    apply lookup_insert_ne; intros Heq; symmetry in Heq;
    exact (reservation_key_not_stock_key _ _ _ Heq).
Qed.

Lemma settle_aggregate (db : gmap string entry) (t : Z) (u s : string) (remaining n : Z) :
  redis_get (redis_exec t [stored_remainder db t (RedisService.getReservationKey u s) remaining;
                           DECRBY (RedisService.getReservedStockKey s) n] db) t
            (RedisService.getReservedStockKey s)
  = Some (default 0 (redis_get db t (RedisService.getReservedStockKey s)) - n).
Proof.
  set (k := RedisService.getReservationKey u s). set (c := RedisService.getReservedStockKey s).
  unfold redis_exec. simpl fold_left. rewrite incr_by_get.
  f_equal. replace (default 0 (redis_get db t c) - n) with (default 0 (redis_get db t c) + - n) by lia.
  f_equal. f_equal. apply redis_get_ext. apply apply_cmd_other.
  rewrite stored_remainder_key. apply reservation_key_not_stock_key.
Qed.

(** ** Cancel and release *)

Lemma cancelReservation_quiet (u s : string) (quantity : option Z) (w : World) :
  quiet w ->
  let k := RedisService.getReservationKey u s in
  RedisService.cancelReservation u s quantity w
  = match redis_get (redis w) (now w) k with
    | None => (Ok 0, w)
    | Some h =>
        let c := match quantity with Some q => Z.min q h | None => h end in
        (Ok c, after_exec [stored_remainder (redis w) (now w) k (h - c);
                           DECRBY (RedisService.getReservedStockKey s) c] w)
    end.
Proof.
  intros Hq k. unfold RedisService.cancelReservation. fold k.
  destruct (redis_get (redis w) (now w) k) as [h|] eqn:Hget.
  - erewrite try_ok; [reflexivity|].
    rewrite (bind_ok _ _ _ _ _ (get_quiet k w Hq)). rewrite Hget.
    rewrite (bind_ok _ _ _ _ _ (keep_or_delete_quiet k _ w Hq)).
    rewrite (bind_ok _ _ _ _ _ (exec_quiet _ w Hq)). reflexivity.
  - erewrite try_ok; [reflexivity|].
    rewrite (bind_ok _ _ _ _ _ (get_quiet k w Hq)). rewrite Hget. reflexivity.
Qed.

Lemma releaseReservation_quiet (u s : string) (quantity : Z) (w : World) :
  quiet w ->
  let k := RedisService.getReservationKey u s in
  RedisService.releaseReservation u s quantity w
  = match redis_get (redis w) (now w) k with
    | None => (Ok false, w)
    | Some h =>
        if h <? quantity then (Throw OverRelease, add_log (LogReleasing OverRelease) w)
        else (Ok true, after_exec [stored_remainder (redis w) (now w) k (h - quantity);
                                   DECRBY (RedisService.getReservedStockKey s) quantity] w)
    end.
Proof.
  intros Hq k. unfold RedisService.releaseReservation. fold k.
  destruct (redis_get (redis w) (now w) k) as [h|] eqn:Hget.
  - destruct (h <? quantity) eqn:Hlt.
    + erewrite try_throw.
      2:{ rewrite (bind_ok _ _ _ _ _ (get_quiet k w Hq)). rewrite Hget, Hlt. reflexivity. }
      reflexivity.
    + erewrite try_ok; [reflexivity|].
      rewrite (bind_ok _ _ _ _ _ (get_quiet k w Hq)). rewrite Hget, Hlt.
      rewrite (bind_ok _ _ _ _ _ (keep_or_delete_quiet k _ w Hq)).
      rewrite (bind_ok _ _ _ _ _ (exec_quiet _ w Hq)). reflexivity.
  - erewrite try_ok; [reflexivity|].
    rewrite (bind_ok _ _ _ _ _ (get_quiet k w Hq)). rewrite Hget. reflexivity.
Qed.

Lemma redis_after_exec (cmds : list cmd) (w : World) :
  redis (after_exec cmds w) = redis_exec (now w) cmds (redis w).
Proof. reflexivity. Qed.

Lemma now_after_exec (cmds : list cmd) (w : World) : now (after_exec cmds w) = now w.
Proof. reflexivity. Qed.

Lemma held_after_settle (w : World) (u s : string) (remaining n : Z) :
  0 <= remaining ->
  held (after_exec [stored_remainder (redis w) (now w) (RedisService.getReservationKey u s)
                      remaining;
                    DECRBY (RedisService.getReservedStockKey s) n] w) u s = remaining.
Proof.
  intros Hr. unfold held. rewrite redis_after_exec, now_after_exec.
  apply settle_held; exact Hr.
Qed.

Lemma aggregate_after_settle (w : World) (u s : string) (remaining n : Z) :
  aggregate (after_exec [stored_remainder (redis w) (now w) (RedisService.getReservationKey u s)
                           remaining;
                         DECRBY (RedisService.getReservedStockKey s) n] w) s
  = aggregate w s - n.
Proof.
  unfold aggregate. rewrite redis_after_exec, now_after_exec, settle_aggregate. reflexivity.
Qed.

Lemma key_after_settle (w : World) (u s : string) (remaining n : Z) :
  let k := RedisService.getReservationKey u s in
  redis (after_exec [stored_remainder (redis w) (now w) k remaining;
                     DECRBY (RedisService.getReservedStockKey s) n] w) !! k
  = if 0 <? remaining
    then Some (Entry remaining
                 (Some (now w + 1000 * (if 0 <? redis_ttl (redis w) (now w) k
                                        then redis_ttl (redis w) (now w) k else 600))))
    else None.
Proof.
  intros k. rewrite redis_after_exec. unfold redis_exec. simpl fold_left.
  rewrite <- stored_remainder_lookup. unfold incr_by.
  destruct (lookup_live _ (now w) (RedisService.getReservedStockKey s));
    apply lookup_insert_ne; intros Heq; symmetry in Heq;
    exact (reservation_key_not_stock_key _ _ _ Heq).
Qed.

(** C7: with the backend answering, [cancelReservation] on a live hold of
    [h] units cancels and returns all of [h] when the quantity is omitted and
    [min quantity h] when it is given; the per-SKU counter then reads lower
    by exactly the returned amount, the user's hold reads [h] minus that
    amount, and the reservation key is deleted when nothing remains and kept
    live with the remainder otherwise.  On a key that is missing or expired
    it returns 0 without an error and leaves the world as it was. *)
Theorem cancelReservation_spec (userId sku : string) (quantity : option Z) (w : World) :
  quiet w ->
  let k := RedisService.getReservationKey userId sku in
  match redis_get (redis w) (now w) k with
  | None => RedisService.cancelReservation userId sku quantity w = (Ok 0, w)
  | Some h =>
      let c := match quantity with Some q => Z.min q h | None => h end in
      exists w',
        RedisService.cancelReservation userId sku quantity w = (Ok c, w')
        /\ fst (RedisService.getTotalReservedStock sku w') = Ok (aggregate w sku - c)
        /\ fst (RedisService.getReservedQuantity userId sku w') = Ok (h - c)
        /\ (h - c <= 0 -> redis w' !! k = None)
        /\ (0 < h - c ->
            exists x, redis w' !! k = Some (Entry (h - c) (Some x)) /\ now w' < x)
  end.
Proof.
  intros Hq k. pose proof (cancelReservation_quiet userId sku quantity w Hq) as Hrun.
  fold k in Hrun. simpl in Hrun.
  destruct (redis_get (redis w) (now w) k) as [h|] eqn:Hget; [|exact Hrun].
  intros c. fold c in Hrun.
  assert (Hrem : 0 <= h - c) by (subst c; destruct quantity; lia).
  eexists. split; [exact Hrun|].
  assert (Hq' : quiet (after_exec [stored_remainder (redis w) (now w) k (h - c);
                                   DECRBY (RedisService.getReservedStockKey sku) c] w))
    by (apply after_exec_quiet; exact Hq).
  split; [|split; [|split]].
  - rewrite (getTotalReservedStock_quiet _ _ Hq'). simpl. f_equal.
    apply aggregate_after_settle.
  - rewrite (getReservedQuantity_quiet _ _ _ Hq'). simpl. f_equal.
    apply held_after_settle; exact Hrem.
  - intros Hle. unfold k. rewrite key_after_settle. fold k.
    destruct (0 <? h - c) eqn:Hpos; [apply Z.ltb_lt in Hpos; lia|reflexivity].
  - intros Hpos. unfold k. rewrite key_after_settle. fold k.
    apply Z.ltb_lt in Hpos. rewrite Hpos. eexists. split; [reflexivity|].
    simpl. destruct (0 <? redis_ttl (redis w) (now w) k) eqn:Ht; [apply Z.ltb_lt in Ht|]; lia.
Qed.

(** C6 (amended): with the backend answering, [releaseReservation] on a
    live hold of [h] units fails with [OverRelease], changing nothing but the
    log, when the quantity exceeds [h]; otherwise it releases exactly the
    quantity asked (the counter reads lower by it, the hold reads
    [h - quantity]).  When there is no live hold it returns [false] without
    an error and leaves the world as it was. *)
Theorem releaseReservation_spec (userId sku : string) (quantity : Z) (w : World) :
  quiet w ->
  let k := RedisService.getReservationKey userId sku in
  match redis_get (redis w) (now w) k with
  | None => RedisService.releaseReservation userId sku quantity w = (Ok false, w)
  | Some h =>
      if h <? quantity
      then RedisService.releaseReservation userId sku quantity w
           = (Throw OverRelease, add_log (LogReleasing OverRelease) w)
      else exists w',
          RedisService.releaseReservation userId sku quantity w = (Ok true, w')
          /\ fst (RedisService.getTotalReservedStock sku w') = Ok (aggregate w sku - quantity)
          /\ fst (RedisService.getReservedQuantity userId sku w') = Ok (h - quantity)
  end.
Proof.
  intros Hq k. pose proof (releaseReservation_quiet userId sku quantity w Hq) as Hrun.
  fold k in Hrun. simpl in Hrun.
  destruct (redis_get (redis w) (now w) k) as [h|] eqn:Hget; [|exact Hrun].
  destruct (h <? quantity) eqn:Hlt; [exact Hrun|].
  apply Z.ltb_ge in Hlt.
  eexists. split; [exact Hrun|].
  assert (Hq' : quiet (after_exec [stored_remainder (redis w) (now w) k (h - quantity);
                                   DECRBY (RedisService.getReservedStockKey sku) quantity] w))
    by (apply after_exec_quiet; exact Hq).
  split.
  - rewrite (getTotalReservedStock_quiet _ _ Hq'). simpl. f_equal.
    apply aggregate_after_settle.
  - rewrite (getReservedQuantity_quiet _ _ _ Hq'). simpl. f_equal.
    apply held_after_settle. lia.
Qed.

(** ** A partial cancel or release after the time to live has lapsed *)

Lemma now_served (w : World) : now w <= now (served w).
Proof. unfold served. simpl. lia. Qed.

Lemma redis_served (w : World) : redis (served w) = redis w.
Proof. reflexivity. Qed.

Lemma keep_or_delete_lapsed (k : string) (remaining : Z) (w : World) :
  0 < remaining ->
  fails (next_event w) = false ->
  redis_ttl (redis w) (now (served w)) k <= 0 ->
  RedisService.keep_or_delete k remaining w = (Ok (SETEX k 600 remaining), served w).
Proof.
  intros Hrem Hf Httl. unfold RedisService.keep_or_delete.
  apply Z.ltb_lt in Hrem. rewrite Hrem.
  rewrite (bind_ok _ _ _ _ _ (ttl_served k w Hf)).
  destruct (0 <? redis_ttl (redis w) (now (served w)) k) eqn:Ht; [|reflexivity].
  apply Z.ltb_lt in Ht. lia.
Qed.

Lemma fresh_600_lookup (w : World) (u s : string) (remaining n : Z) :
  redis (after_exec [SETEX (RedisService.getReservationKey u s) 600 remaining;
                     DECRBY (RedisService.getReservedStockKey s) n] w)
    !! RedisService.getReservationKey u s
  = Some (Entry remaining (Some (now w + 1000 * 600))).
Proof.
  rewrite redis_after_exec. unfold redis_exec. cbn [fold_left].
  rewrite apply_cmd_other.
  - simpl. apply lookup_insert_eq.
  - simpl. intros Heq. symmetry in Heq. exact (reservation_key_not_stock_key _ _ _ Heq).
Qed.

Lemma lapsed_expiry_bound (db : gmap string entry) (t t' : Z) (k : string) (e : entry) (x : Z) :
  redis_ttl db t k <= 0 -> t <= t' ->
  db !! k = Some e -> expiry e = Some x -> x < t' + 1000 * 600.
Proof.
  unfold redis_ttl, lookup_live. intros Httl Hle He Hx.
  rewrite He in Httl. unfold live in Httl. rewrite Hx in Httl.
  destruct (t <? x) eqn:Hlive.
  - rewrite Hx in Httl.
    destruct (Z_lt_ge_dec (x - t + 500) 1000) as [Hlt|Hge]; [lia|].
    assert (1 <= (x - t + 500) / 1000) by (apply Z.div_le_lower_bound; lia). lia.
  - apply Z.ltb_ge in Hlive. lia.
Qed.

(** C9: when the three driver calls of a partial cancel or release (GET,
    TTL, EXEC) are served, a remainder is left ([remaining > 0]) and the TTL
    reply is not positive, the remainder is stored again with a fresh time to
    live of 600 seconds counted from the EXEC; that new expiry lies beyond
    the expiry the key had before the call, so the hold outlives it. *)
Theorem lapsed_remainder_gets_600_seconds (userId sku : string) (w : World) (h : Z) :
  let k := RedisService.getReservationKey userId sku in
  let w1 := served w in
  let w2 := served w1 in
  let w3 := served w2 in
  fails (next_event w) = false ->
  fails (next_event w1) = false ->
  fails (next_event w2) = false ->
  redis_get (redis w) (now w1) k = Some h ->
  redis_ttl (redis w) (now w2) k <= 0 ->
  (forall q : Z,
      0 < h - Z.min q h ->
      exists w',
        RedisService.cancelReservation userId sku (Some q) w = (Ok (Z.min q h), w')
        /\ redis w' !! k = Some (Entry (h - Z.min q h) (Some (now w3 + 1000 * 600))))
  /\ (forall q : Z,
      0 < h - q ->
      exists w',
        RedisService.releaseReservation userId sku q w = (Ok true, w')
        /\ redis w' !! k = Some (Entry (h - q) (Some (now w3 + 1000 * 600))))
  /\ (forall (e : entry) (x : Z),
      redis w !! k = Some e -> expiry e = Some x -> x < now w3 + 1000 * 600).
Proof.
  intros k w1 w2 w3 Hf1 Hf2 Hf3 Hget Httl.
  split; [|split].
  - intros q Hrem. eexists. split.
    + unfold RedisService.cancelReservation. fold k.
      erewrite try_ok; [reflexivity|].
      rewrite (bind_ok _ _ _ _ _ (get_served k w Hf1)). fold w1. rewrite Hget.
      rewrite (bind_ok _ _ _ _ _ (keep_or_delete_lapsed k _ w1 Hrem Hf2 Httl)). fold w2.
      rewrite (bind_ok _ _ _ _ _ (exec_served _ w2 Hf3)). fold w3. reflexivity.
    + unfold k. rewrite fresh_600_lookup. reflexivity.
  - intros q Hrem. eexists. split.
    + unfold RedisService.releaseReservation. fold k.
      erewrite try_ok; [reflexivity|].
      rewrite (bind_ok _ _ _ _ _ (get_served k w Hf1)). fold w1. rewrite Hget.
      assert (Hlt : (h <? q) = false) by (apply Z.ltb_ge; lia). rewrite Hlt.
      rewrite (bind_ok _ _ _ _ _ (keep_or_delete_lapsed k _ w1 Hrem Hf2 Httl)). fold w2.
      rewrite (bind_ok _ _ _ _ _ (exec_served _ w2 Hf3)). fold w3. reflexivity.
    + unfold k. rewrite fresh_600_lookup. reflexivity.
  - intros e x He Hx.
    apply (lapsed_expiry_bound (redis w) (now w2) (now w3) k e x Httl); auto.
    apply now_served.
Qed.

(** ** Backend errors: propagated by the writers, swallowed by the readers *)

Lemma ff_still {A} (f : M A) :
  (forall w, sched (snd (f w)) = sched w /\ log (snd (f w)) = log w) -> fail_fast f.
Proof.
  intros Hs w w' r Hrun. specialize (Hs w). rewrite Hrun in Hs. simpl in Hs.
  destruct Hs as [Hs Hl]. split; [exact Hl|].
  exists []. split; [simpl; congruence|left; constructor].
Qed.

Lemma ff_ret {A} (a : A) : fail_fast (ret a).
Proof. apply ff_still. intros w. split; reflexivity. Qed.

Lemma ff_throw {A} (e : error) : fail_fast (@throw A e).
Proof. apply ff_still. intros w. split; reflexivity. Qed.

Lemma ff_await : fail_fast await.
Proof.
  intros w w' r. unfold await, next_event.
  destruct (sched w) as [|ev rest] eqn:Hs; simpl.
  - intros [= <- <-]. split; [reflexivity|].
    exists []. simpl. rewrite Hs. split; [reflexivity|left; constructor].
  - destruct (fails ev) eqn:Hf; intros [= <- <-]; (split; [reflexivity|]);
      exists [ev]; simpl; rewrite Hs; (split; [reflexivity|]).
    + right. exists [], ev. repeat split; auto.
    + left. constructor; [exact Hf|constructor].
Qed.

Lemma ff_bind {A B} (m : M A) (k : A -> M B) :
  fail_fast m -> (forall a, fail_fast (k a)) -> fail_fast (bind m k).
Proof.
  intros Hm Hk w w' r. unfold bind.
  destruct (m w) as [[a|e] w1] eqn:Hrun.
  - intros Hk1. destruct (Hm _ _ _ Hrun) as (Hl1 & es1 & Hs1 & [Hall1|Hrej1]).
    + destruct (Hk a _ _ _ Hk1) as (Hl2 & es2 & Hs2 & [Hall2|Hrej2]);
        (split; [congruence|]).
      * exists (es1 ++ es2). split; [rewrite Hs1, Hs2, app_assoc; reflexivity|].
        left. apply Forall_app; auto.
      * destruct Hrej2 as (es0 & ev & -> & Hall0 & Hf & ->).
        exists (es1 ++ es0 ++ [ev]). split; [rewrite Hs1, Hs2, app_assoc; reflexivity|].
        right. exists (es1 ++ es0), ev. rewrite app_assoc.
        split; [reflexivity|]. split; [apply Forall_app; auto|]. auto.
    + destruct Hrej1 as (? & ? & _ & _ & _ & Habs). discriminate Habs.
  - intros [= <- <-]. destruct (Hm _ _ _ Hrun) as (Hl & es & Hs & [Hall|Hrej]);
      (split; [exact Hl|]).
    + exists es. split; [exact Hs|left; exact Hall].
    + destruct Hrej as (es0 & ev & -> & Hall0 & Hf & [= ->]).
      exists (es0 ++ [ev]). split; [exact Hs|]. right. exists es0, ev. auto.
Qed.

(** [catch (error) { console.error(..); throw error }] *)
Lemma rethrown {A} (m : M A) (l : error -> logline) :
  fail_fast m ->
  on_rejection (try_catch m (fun e => console_error (l e) ;;; @throw A e))
               (Throw BackendError) (l BackendError).
Proof.
  intros Hm w w' r. unfold try_catch.
  destruct (m w) as [[a|e] w1] eqn:Hrun.
  - intros [= <- <-]. destruct (Hm _ _ _ Hrun) as (_ & es & Hs & [Hall|Hrej]).
    + exists es. split; [exact Hs|left; exact Hall].
    + destruct Hrej as (? & ? & _ & _ & _ & Habs). discriminate Habs.
  - unfold bind, console_error, throw. intros [= <- <-].
    destruct (Hm _ _ _ Hrun) as (Hl & es & Hs & [Hall|Hrej]).
    + exists es. split; [exact Hs|left; exact Hall].
    + destruct Hrej as (es0 & ev & -> & Hall0 & Hf & [= ->]).
      exists (es0 ++ [ev]). split; [exact Hs|]. right. exists es0, ev.
      repeat split; auto. simpl. rewrite Hl. reflexivity.
Qed.

(** [catch (error) { console.error(..); return d }] *)
Lemma swallow_default {A} (m : M A) (l : error -> logline) (d : A) :
  fail_fast m ->
  on_rejection (try_catch m (fun e => console_error (l e) ;;; ret d))
               (Ok d) (l BackendError).
Proof.
  intros Hm w w' r. unfold try_catch.
  destruct (m w) as [[a|e] w1] eqn:Hrun.
  - intros [= <- <-]. destruct (Hm _ _ _ Hrun) as (_ & es & Hs & [Hall|Hrej]).
    + exists es. split; [exact Hs|left; exact Hall].
    + destruct Hrej as (? & ? & _ & _ & _ & Habs). discriminate Habs.
  - unfold bind, console_error, ret. intros [= <- <-].
    destruct (Hm _ _ _ Hrun) as (Hl & es & Hs & [Hall|Hrej]).
    + exists es. split; [exact Hs|left; exact Hall].
    + destruct Hrej as (es0 & ev & -> & Hall0 & Hf & [= ->]).
      exists (es0 ++ [ev]). split; [exact Hs|]. right. exists es0, ev.
      repeat split; auto. simpl. rewrite Hl. reflexivity.
Qed.

Lemma ff_get (k : string) : fail_fast (client.get k).
Proof.
  apply ff_bind; [apply ff_await|]. intros _. apply ff_still. intros w. split; reflexivity.
Qed.

Lemma ff_ttl (k : string) : fail_fast (client.ttl k).
Proof.
  apply ff_bind; [apply ff_await|]. intros _. apply ff_still. intros w. split; reflexivity.
Qed.

Lemma ff_keys (p : string) : fail_fast (client.keys p).
Proof.
  apply ff_bind; [apply ff_await|]. intros _. apply ff_still. intros w. split; reflexivity.
Qed.

Lemma ff_exec (cmds : list cmd) : fail_fast (client.exec cmds).
Proof.
  apply ff_bind; [apply ff_await|]. intros _. apply ff_still. intros w. split; reflexivity.
Qed.

Lemma ff_keep_or_delete (k : string) (remaining : Z) :
  fail_fast (RedisService.keep_or_delete k remaining).
Proof.
  unfold RedisService.keep_or_delete. destruct (0 <? remaining); [|apply ff_ret].
  apply ff_bind; [apply ff_ttl|]. intros t. destruct (0 <? t); apply ff_ret.
Qed.

Lemma ff_collect_reservations (keys : list string) (acc : list Item) :
  fail_fast (RedisService.collect_reservations keys acc).
Proof.
  revert acc. induction keys as [|key keys IH]; intros acc; simpl; [apply ff_ret|].
  apply ff_bind; [apply ff_get|]. intros q. apply IH.
Qed.

Create HintDb ff.
#[local] Hint Resolve ff_ret ff_throw ff_get ff_ttl ff_keys ff_exec ff_keep_or_delete
  ff_collect_reservations : ff.

(** C8 (amended): in every run, a driver call that the backend rejects is
    the last one the operation makes (nothing is retried), and the operation
    writes one line on the console, its own message with the backend's
    error.  The writers [reserveStock], [cancelReservation] and
    [releaseReservation] then end with the backend's error; the readers
    [getReservedQuantity], [getTotalReservedStock] and [getUserReservations]
    end normally with 0, 0 and the empty list. *)
Theorem backend_rejections (userId sku : string) (quantity ttlSeconds : Z)
  (cancelQuantity : option Z) :
  on_rejection (RedisService.reserveStock userId sku quantity ttlSeconds)
               (Throw BackendError) (LogReserving BackendError)
  /\ on_rejection (RedisService.cancelReservation userId sku cancelQuantity)
                  (Throw BackendError) (LogCancelling BackendError)
  /\ on_rejection (RedisService.releaseReservation userId sku quantity)
                  (Throw BackendError) (LogReleasing BackendError)
  /\ on_rejection (RedisService.getReservedQuantity userId sku)
                  (Ok 0) (LogReservedQuantity BackendError)
  /\ on_rejection (RedisService.getTotalReservedStock sku)
                  (Ok 0) (LogTotalReserved BackendError)
  /\ on_rejection (RedisService.getUserReservations userId)
                  (Ok []) (LogUserReservations BackendError).
Proof.
  repeat split.
  - apply (rethrown _ LogReserving). apply ff_bind; [auto with ff|]. intros existing.
    apply ff_bind; auto with ff.
  - apply (rethrown _ LogCancelling). apply ff_bind; [auto with ff|].
    intros [h|]; [|auto with ff].
    apply ff_bind; [auto with ff|]. intros first. apply ff_bind; auto with ff.
  - apply (rethrown _ LogReleasing). apply ff_bind; [auto with ff|].
    intros [h|]; [|auto with ff].
    destruct (h <? quantity); [auto with ff|].
    apply ff_bind; [auto with ff|]. intros first. apply ff_bind; auto with ff.
  - apply (swallow_default _ LogReservedQuantity). apply ff_bind; auto with ff.
  - apply (swallow_default _ LogTotalReserved). apply ff_bind; auto with ff.
  - apply (swallow_default _ LogUserReservations). apply ff_bind; auto with ff.
Qed.

(** ** The services when the backend answers *)

Lemma userExists_quiet (u : string) (w : World) :
  quiet w ->
  UserService.userExists u w
  = (Ok (UserService.isValid u && bool_decide (users w !! u = Some true)), w).
Proof.
  intros Hq. unfold UserService.userExists.
  destruct (UserService.isValid u); simpl; [|reflexivity].
  unfold UserService.findActiveById. rewrite (bind_ok _ _ _ _ _ (await_quiet w Hq)). reflexivity.
Qed.

Lemma getProductBySku_quiet (s : string) (w : World) :
  quiet w ->
  ProductService.getProductBySku s w
  = (match active_product w s with
     | Some product => Ok product
     | None => Throw ProductNotFound
     end, w).
Proof.
  intros Hq. unfold ProductService.getProductBySku, active_product.
  rewrite (bind_ok _ _ _ _ _ (await_quiet w Hq)).
  destruct (products w !! s) as [p|]; [destruct (p_isActive p)|]; reflexivity.
Qed.

Lemma checkStockAvailability_quiet (s : string) (quantity : Z) (w : World) :
  quiet w ->
  ProductService.checkStockAvailability s quantity w
  = (match active_product w s with
     | Some product => Ok (stock_check product (aggregate w s) quantity)
     | None => Throw ProductNotFound
     end, w).
Proof.
  intros Hq. unfold ProductService.checkStockAvailability.
  destruct (active_product w s) as [p|] eqn:Hp.
  - erewrite bind_ok; [|rewrite (getProductBySku_quiet s w Hq), Hp; reflexivity].
    rewrite (bind_ok _ _ _ _ _ (getTotalReservedStock_quiet s w Hq)). reflexivity.
  - erewrite bind_throw; [reflexivity|].
    rewrite (getProductBySku_quiet s w Hq), Hp. reflexivity.
Qed.

Lemma reserveStock_quiet (u s : string) (quantity ttlSeconds : Z) (w : World) :
  quiet w ->
  RedisService.reserveStock u s quantity ttlSeconds w
  = (Ok true, after_exec (reserve_cmds u s (held w u s) quantity ttlSeconds) w).
Proof.
  intros Hq. unfold RedisService.reserveStock.
  erewrite try_ok; [reflexivity|].
  rewrite (bind_ok _ _ _ _ _ (get_quiet _ w Hq)).
  erewrite bind_ok; [reflexivity|].
  rewrite exec_quiet by exact Hq. unfold reserve_cmds, held.
  destruct (redis_get _ _ _); reflexivity.
Qed.

(** One item of the batch: it is refused before anything is written, or it
    is committed by the transaction of [reserveStock]. *)
Lemma reserve_one_quiet (u : string) (ttlSeconds : Z) (item : Item) (w : World) :
  quiet w ->
  (exists e, CartService.reserve_one u ttlSeconds item w = (Throw e, w))
  \/ (0 < item_quantity item
      /\ CartService.reserve_one u ttlSeconds item w
         = (Ok tt, after_exec (reserve_cmds u (item_sku item) (held w u (item_sku item))
                                 (item_quantity item) ttlSeconds) w)).
Proof.
  intros Hq. unfold CartService.reserve_one, CartService.check_item, CartService.reserve_item.
  destruct (_ || _ || _) eqn:Hbad; [left; eexists; reflexivity|].
  apply orb_false_elim in Hbad as [_ Hpos]. apply Z.leb_gt in Hpos.
  destruct (active_product w (item_sku item)) as [p|] eqn:Hp.
  - destruct (negb (isAvailable (stock_check p (aggregate w (item_sku item))
                                   (item_quantity item)))) eqn:Hav.
    + left. eexists. erewrite bind_throw; [reflexivity|].
      erewrite bind_ok; [|rewrite (checkStockAvailability_quiet _ _ w Hq), Hp; reflexivity].
      rewrite Hav. reflexivity.
    + right. split; [exact Hpos|].
      erewrite bind_ok.
      2:{ erewrite bind_ok; [|rewrite (checkStockAvailability_quiet _ _ w Hq), Hp; reflexivity].
          rewrite Hav. reflexivity. }
      rewrite (bind_ok _ _ _ _ _ (reserveStock_quiet u _ _ ttlSeconds w Hq)). reflexivity.
  - left. eexists. erewrite bind_throw; [reflexivity|].
    erewrite bind_throw; [reflexivity|].
    rewrite (checkStockAvailability_quiet _ _ w Hq), Hp. reflexivity.
Qed.

(** ** The batch and its rollback *)

Lemma held_after_reserve (u s s' : string) (quantity ttlSeconds : Z) (w : World) :
  0 < ttlSeconds ->
  held (after_exec (reserve_cmds u s (held w u s) quantity ttlSeconds) w) u s'
  = held w u s' + (if String.eqb s s' then quantity else 0).
Proof.
  intros Httl. unfold held at 1. rewrite redis_after_exec, now_after_exec.
  destruct (String.eqb_spec s s') as [<-|Hne].
  - unfold reserve_cmds, redis_exec. cbn [fold_left].
    unfold redis_get, lookup_live.
    rewrite !apply_cmd_other
      by (simpl; intros Heq; symmetry in Heq; exact (reservation_key_not_stock_key _ _ _ Heq)).
    simpl. apply Z.ltb_lt in Httl as Httl'. rewrite Httl'. rewrite lookup_insert_eq.
    unfold live. simpl.
    assert (Hlive : (now w <? now w + 1000 * ttlSeconds) = true) by (apply Z.ltb_lt; lia).
    rewrite Hlive. reflexivity.
  - rewrite Z.add_0_r. unfold held. f_equal. apply redis_get_ext.
    apply redis_exec_other. unfold reserve_cmds.
    repeat constructor; simpl.
    + intros Heq. apply reservation_key_inj in Heq. contradiction.
    + intros Heq. symmetry in Heq. exact (reservation_key_not_stock_key _ _ _ Heq).
    + intros Heq. symmetry in Heq. exact (reservation_key_not_stock_key _ _ _ Heq).
Qed.

Lemma aggregate_after_reserve (u s s' : string) (h quantity ttlSeconds : Z) (w : World) :
  0 < ttlSeconds ->
  aggregate (after_exec (reserve_cmds u s h quantity ttlSeconds) w) s'
  = aggregate w s' + (if String.eqb s s' then quantity else 0).
Proof.
  intros Httl. unfold aggregate at 1. rewrite redis_after_exec, now_after_exec.
  destruct (String.eqb_spec s s') as [<-|Hne].
  - unfold reserve_cmds, redis_exec. cbn [fold_left].
    set (db1 := apply_cmd (now w) (redis w) _).
    assert (Hincr : redis_get (apply_cmd (now w) db1 (INCRBY (RedisService.getReservedStockKey s)
                                                         quantity))
                      (now w) (RedisService.getReservedStockKey s)
                    = Some (aggregate w s + quantity)).
    { simpl. rewrite incr_by_get. f_equal. f_equal. unfold aggregate. f_equal.
      apply redis_get_ext. subst db1. apply apply_cmd_other. simpl.
      apply reservation_key_not_stock_key. }
    set (db2 := apply_cmd (now w) db1 _) in *.
    unfold redis_get in Hincr.
    destruct (lookup_live db2 (now w) (RedisService.getReservedStockKey s)) as [e|] eqn:He;
      [|discriminate].
    injection Hincr as Hval.
    simpl. rewrite He. apply Z.ltb_lt in Httl as Httl'. rewrite Httl'.
    unfold redis_get. rewrite lookup_live_insert. unfold live. simpl.
    assert (Hlive : (now w <? now w + 1000 * ttlSeconds) = true) by (apply Z.ltb_lt; lia).
    rewrite Hlive. simpl. exact Hval.
  - rewrite Z.add_0_r. unfold aggregate. f_equal. apply redis_get_ext.
    apply redis_exec_other. unfold reserve_cmds.
    repeat constructor; simpl.
    + apply reservation_key_not_stock_key.
    + intros Heq. apply stock_key_inj in Heq. contradiction.
    + intros Heq. apply stock_key_inj in Heq. contradiction.
Qed.

Lemma aggregate_after_cancel_other (u s s' : string) (remaining n : Z) (w : World) :
  s <> s' ->
  aggregate (after_exec [stored_remainder (redis w) (now w) (RedisService.getReservationKey u s)
                           remaining;
                         DECRBY (RedisService.getReservedStockKey s) n] w) s'
  = aggregate w s'.
Proof.
  intros Hne. unfold aggregate. rewrite redis_after_exec, now_after_exec.
  f_equal. apply redis_get_ext. apply redis_exec_other. repeat constructor.
  - rewrite stored_remainder_key. apply reservation_key_not_stock_key.
  - simpl. intros Heq. apply stock_key_inj in Heq. contradiction.
Qed.

Lemma units_of_nonneg (s : string) (items : list Item) :
  Forall (fun item => 0 < item_quantity item) items -> 0 <= units_of s items.
Proof.
  induction 1 as [|x xs Hx _ IH]; simpl; [lia|]. destruct (String.eqb _ _); lia.
Qed.

Lemma units_of_app (s : string) (xs ys : list Item) :
  units_of s (xs ++ ys) = units_of s xs + units_of s ys.
Proof. induction xs as [|x xs IH]; simpl; [reflexivity|rewrite IH; lia]. Qed.

(** The [try] block: what it has committed when it stops is held, and
    counted, on top of what was held and counted before. *)
Lemma reserve_loop_quiet (u : string) (ttlSeconds : Z) (items acc : list Item) (w : World)
  (r : result unit) (acc' : list Item) (w' : World) :
  quiet w -> 0 < ttlSeconds ->
  CartService.reserve_loop u ttlSeconds items acc w = (r, acc', w') ->
  quiet w'
  /\ exists committed,
      acc' = acc ++ committed
      /\ Forall (fun item => 0 < item_quantity item) committed
      /\ forall s, held w' u s = held w u s + units_of s committed
                   /\ aggregate w' s = aggregate w s + units_of s committed.
Proof.
  intros Hq Httl. revert acc w Hq. induction items as [|item items IH]; intros acc w Hq; simpl.
  - intros [= <- <- <-]. split; [exact Hq|]. exists []. rewrite app_nil_r.
    repeat split; [constructor|simpl; lia|simpl; lia].
  - destruct (reserve_one_quiet u ttlSeconds item w Hq) as [[e He]|[Hpos Hok]].
    + rewrite He. intros [= <- <- <-]. split; [exact Hq|]. exists []. rewrite app_nil_r.
      repeat split; [constructor|simpl; lia|simpl; lia].
    + rewrite Hok. intros Hrest.
      apply IH in Hrest; [|apply after_exec_quiet; exact Hq].
      destruct Hrest as (Hq' & committed & -> & Hall & Hheld). split; [exact Hq'|].
      exists (item :: committed). rewrite <- app_assoc.
      split; [reflexivity|]. split; [constructor; assumption|].
      intros s. destruct (Hheld s) as [Hh Ha]. split.
      * rewrite Hh, held_after_reserve by exact Httl. simpl. lia.
      * rewrite Ha, aggregate_after_reserve by exact Httl. simpl. lia.
Qed.

Lemma held_after_cancel_other (u s s' : string) (remaining n : Z) (w : World) :
  s <> s' ->
  held (after_exec [stored_remainder (redis w) (now w) (RedisService.getReservationKey u s)
                      remaining;
                    DECRBY (RedisService.getReservedStockKey s) n] w) u s'
  = held w u s'.
Proof.
  intros Hne. unfold held. rewrite redis_after_exec, now_after_exec.
  f_equal. apply redis_get_ext. apply redis_exec_other. repeat constructor.
  - rewrite stored_remainder_key. intros Heq. apply reservation_key_inj in Heq. contradiction.
  - simpl. intros Heq. symmetry in Heq. exact (reservation_key_not_stock_key _ _ _ Heq).
Qed.

(** The [catch] block when the backend answers: for a SKU whose hold is the
    amount [base >= 0] plus what the batch committed, the compensating
    cancels bring the hold back to [base] and take the committed units off
    the counter. *)
Lemma rollback_quiet (u : string) (committed : list Item) (w : World) :
  quiet w ->
  Forall (fun item => 0 < item_quantity item) committed ->
  exists w',
    CartService.rollback u committed w = (Ok tt, w')
    /\ quiet w'
    /\ forall s base, 0 <= base -> held w u s = base + units_of s committed ->
                      held w' u s = base
                      /\ aggregate w' s = aggregate w s - units_of s committed.
Proof.
  intros Hq Hall. revert w Hq. induction Hall as [|item committed Hpos Hall IH]; intros w Hq.
  - exists w. repeat split; [exact Hq|simpl in *; lia|simpl; lia].
  - pose proof (cancelReservation_quiet u (item_sku item) (Some (item_quantity item)) w Hq)
      as Hcancel. simpl in Hcancel.
    pose proof (units_of_nonneg (item_sku item) committed Hall) as Hu.
    set (k := RedisService.getReservationKey u (item_sku item)) in *.
    destruct (redis_get (redis w) (now w) k) as [h|] eqn:Hget.
    + set (w1 := after_exec _ w) in Hcancel.
      assert (Hq1 : quiet w1) by (apply after_exec_quiet; exact Hq).
      destruct (IH w1 Hq1) as (w' & Hrun & Hq' & Hback).
      exists w'. split; [|split; [exact Hq'|]].
      * simpl. erewrite bind_ok; [exact Hrun|].
        erewrite try_ok; [reflexivity|]. rewrite (bind_ok _ _ _ _ _ Hcancel). reflexivity.
      * intros s base Hbase Hh. simpl in Hh. simpl units_of.
        destruct (String.eqb_spec (item_sku item) s) as [<-|Hne].
        -- assert (Hhh : held w u (item_sku item) = h)
             by (unfold held; fold k; rewrite Hget; reflexivity).
           assert (Hmin : Z.min (item_quantity item) h = item_quantity item) by lia.
           destruct (Hback (item_sku item) base Hbase) as [Hh' Ha'].
           { subst w1. unfold k. rewrite held_after_settle by lia. lia. }
           split; [exact Hh'|]. rewrite Ha'. subst w1. unfold k.
           rewrite aggregate_after_settle. lia.
        -- destruct (Hback s base Hbase) as [Hh' Ha'].
           { subst w1. unfold k. rewrite held_after_cancel_other by exact Hne. lia. }
           split; [exact Hh'|]. rewrite Ha'. subst w1. unfold k.
           rewrite aggregate_after_cancel_other by exact Hne. lia.
    + destruct (IH w Hq) as (w' & Hrun & Hq' & Hback).
      exists w'. split; [|split; [exact Hq'|]].
      * simpl. erewrite bind_ok; [exact Hrun|].
        erewrite try_ok; [reflexivity|]. rewrite (bind_ok _ _ _ _ _ Hcancel). reflexivity.
      * intros s base Hbase Hh. simpl in Hh. simpl units_of.
        destruct (String.eqb_spec (item_sku item) s) as [<-|Hne].
        -- assert (Hhh : held w u (item_sku item) = 0)
             by (unfold held; fold k; rewrite Hget; reflexivity).
           lia.
        -- destruct (Hback s base Hbase) as [Hh' Ha']; [lia|].
           split; [exact Hh'|]. rewrite Ha'. lia.
Qed.

(** The [catch] block never throws: a compensating cancel that fails is
    logged and the loop goes on. *)
Lemma rollback_never_throws (u : string) (committed : list Item) (w : World) :
  exists w', CartService.rollback u committed w = (Ok tt, w').
Proof.
  revert w. induction committed as [|item committed IH]; intros w; simpl.
  - eexists; reflexivity.
  - unfold bind at 1, try_catch.
    destruct (bind _ _ w) as [[[]|e] w1]; simpl.
    + apply IH.
    + apply IH.
Qed.

(** C3: when the [try] block of [reserveItems] stops with an error [e]
    after committing some items, the call ends with that same [e] in every
    environment: the [catch] block runs one compensating cancel per committed
    item and never throws, because a cancel that fails is logged
    ('Error during rollback:') and the loop goes on.  When the backend
    answers, every SKU on which the user held [h >= 0] units before the call
    (0 when there was no hold) reads [h] again after it, and its counter
    reads what it read before the call. *)
Theorem reserveItems_rolls_back (userId : string) (items : list Item) (ttlSeconds : Z)
  (w w1 w2 : World) (e : error) (committed : list Item) :
  UserService.userExists userId w = (Ok true, w1) ->
  CartService.reserve_loop userId ttlSeconds items [] w1 = (Throw e, committed, w2) ->
  exists w3,
    CartService.reserveItems userId items ttlSeconds w = (Throw e, w3)
    /\ CartService.rollback userId committed w2 = (Ok tt, w3)
    /\ (forall (item : Item) (rest : list Item) (wa wb : World) (e' : error),
          RedisService.cancelReservation userId (item_sku item) (Some (item_quantity item)) wa
          = (Throw e', wb) ->
          CartService.rollback userId (item :: rest) wa
          = CartService.rollback userId rest (add_log (LogRollback e') wb))
    /\ (quiet w -> 0 < ttlSeconds ->
        forall (sku : string) (h : Z),
          fst (RedisService.getReservedQuantity userId sku w) = Ok h -> 0 <= h ->
          fst (RedisService.getReservedQuantity userId sku w3) = Ok h
          /\ fst (RedisService.getTotalReservedStock sku w3)
             = fst (RedisService.getTotalReservedStock sku w)).
Proof.
  intros Huser Hloop.
  destruct (rollback_never_throws userId committed w2) as [w3 Hroll].
  exists w3. split; [|split; [exact Hroll|split]].
  - unfold CartService.reserveItems. rewrite (bind_ok _ _ _ _ _ Huser). simpl.
    rewrite Hloop. rewrite (bind_ok _ _ _ _ _ Hroll). reflexivity.
  - intros item rest wa wb e' Hcancel. simpl. unfold bind at 1, try_catch.
    rewrite (bind_throw _ _ _ _ _ Hcancel). reflexivity.
  - intros Hq Httl s h Hbefore Hh.
    rewrite (userExists_quiet userId w Hq) in Huser. injection Huser as _ <-.
    rewrite (getReservedQuantity_quiet userId s w Hq) in Hbefore. injection Hbefore as Hbefore.
    destruct (reserve_loop_quiet _ _ _ _ _ _ _ _ Hq Httl Hloop)
      as (Hq2 & done & Hdone & Hpos & Hheld). simpl in Hdone. subst done.
    destruct (rollback_quiet userId committed w2 Hq2 Hpos) as (w3' & Hroll' & Hq3 & Hback).
    rewrite Hroll in Hroll'. injection Hroll' as <-.
    rewrite (getReservedQuantity_quiet userId s w3 Hq3).
    rewrite (getTotalReservedStock_quiet s w3 Hq3), (getTotalReservedStock_quiet s w Hq).
    simpl. destruct (Hheld s) as [Hh2 Ha2].
    destruct (Hback s h Hh) as [Hh3 Ha3]; [rewrite Hh2; lia|].
    split; f_equal; [exact Hh3|]. rewrite Ha3, Ha2. lia.
Qed.

(** ** The cart when the backend answers *)

Lemma logged_nil (w : World) : logged [] w = w.
Proof. destruct w. unfold logged. simpl. rewrite app_nil_r. reflexivity. Qed.

Lemma logged_logged (ls1 ls2 : list logline) (w : World) :
  logged ls2 (logged ls1 w) = logged (ls1 ++ ls2) w.
Proof. unfold logged. simpl. rewrite app_assoc. reflexivity. Qed.

Lemma quiet_logged (ls : list logline) (w : World) : quiet w -> quiet (logged ls w).
Proof. unfold quiet. auto. Qed.

Lemma sum_fold {A} (f : A -> Z) (l : list A) (a : Z) :
  fold_left (fun sum item => sum + f item) l a = a + sumZ (map f l).
Proof.
  revert a. induction l as [|x l IH]; intros a; simpl; [lia|]. rewrite IH. lia.
Qed.

Lemma sum_left_fold {A} (f : A -> Number) (l : list A) (a : Number) :
  fold_left (fun sum item => Number.add sum (f item)) l a
  = fold_left Number.add (map f l) a.
Proof. revert a. induction l as [|x l IH]; intros a; simpl; [reflexivity|apply IH]. Qed.

Lemma collect_reservations_quiet (keys : list string) (acc : list Item) (w : World) :
  quiet w ->
  RedisService.collect_reservations keys acc w
  = (Ok (acc ++ omap (reservation_of_key w) keys), w).
Proof.
  intros Hq. revert acc. induction keys as [|key keys IH]; intros acc; simpl.
  - rewrite app_nil_r. reflexivity.
  - rewrite (bind_ok _ _ _ _ _ (get_quiet key w Hq)). rewrite IH.
    unfold reservation_of_key. destruct (redis_get (redis w) (now w) key); simpl.
    + rewrite <- app_assoc. reflexivity.
    + reflexivity.
Qed.

Lemma getUserReservations_quiet (u : string) (w : World) :
  quiet w -> RedisService.getUserReservations u w = (Ok (user_reservations w u), w).
Proof.
  intros Hq. unfold RedisService.getUserReservations.
  erewrite try_ok; [reflexivity|].
  rewrite (bind_ok _ _ _ _ _ (keys_quiet _ w Hq)).
  rewrite (collect_reservations_quiet _ _ w Hq). reflexivity.
Qed.

Lemma collect_cart_quiet (reservations : list Item) (acc : list CartItem) (w : World) :
  quiet w ->
  CartService.collect_cart reservations acc w
  = (Ok (acc ++ omap (cart_item w) reservations),
     logged (omap (fetch_failure w) reservations) w).
Proof.
  revert acc w. induction reservations as [|r rs IH]; intros acc w Hq; simpl.
  - rewrite app_nil_r, logged_nil. reflexivity.
  - unfold cart_item at 1, fetch_failure at 1.
    destruct (active_product w (item_sku r)) as [p|] eqn:Hp.
    + erewrite bind_ok.
      2:{ erewrite try_ok; [reflexivity|].
          erewrite bind_ok; [reflexivity|].
          rewrite (getProductBySku_quiet _ w Hq), Hp. reflexivity. }
      rewrite (IH _ w Hq). rewrite <- app_assoc. reflexivity.
    + erewrite bind_ok.
      2:{ erewrite try_throw.
          2:{ erewrite bind_throw; [reflexivity|].
              rewrite (getProductBySku_quiet _ w Hq), Hp. reflexivity. }
          reflexivity. }
      rewrite (IH _ (add_log _ w) Hq).
      change (add_log (LogFetchingProduct (item_sku r) ProductNotFound) w)
        with (logged [LogFetchingProduct (item_sku r) ProductNotFound] w).
      rewrite logged_logged. reflexivity.
Qed.

Lemma getUserCart_quiet (u : string) (w : World) :
  quiet w ->
  let items := omap (cart_item w) (user_reservations w u) in
  CartService.getUserCart u w
  = (Ok (mkCart u items (sumZ (map ci_quantity items)) (sum_left (map ci_totalPrice items))),
     logged (omap (fetch_failure w) (user_reservations w u)) w).
Proof.
  intros Hq items. unfold CartService.getUserCart.
  rewrite (bind_ok _ _ _ _ _ (getUserReservations_quiet u w Hq)).
  rewrite (bind_ok _ _ _ _ _ (collect_cart_quiet _ [] w Hq)).
  unfold ret. simpl. fold items. rewrite sum_fold, sum_left_fold. reflexivity.
Qed.

Lemma cart_item_inv (w : World) (r : Item) (ci : CartItem) :
  cart_item w r = Some ci ->
  exists p, active_product w (item_sku r) = Some p
            /\ ci = mkCartItem (p_id p) (item_sku r) (p_name p) (p_price p) (item_quantity r)
                               (Number.mul (p_price p) (Number.of_Z (item_quantity r))).
Proof.
  unfold cart_item. destruct (active_product w (item_sku r)) as [p|]; [|discriminate].
  intros [= <-]. exists p. auto.
Qed.

Lemma cart_items_active (w : World) (rs : list Item) (ci : CartItem) :
  ci ∈ omap (cart_item w) rs ->
  exists p, active_product w (ci_sku ci) = Some p /\ ci_price ci = p_price p
            /\ ci_productId ci = p_id p.
Proof.
  intros Hin. apply list_elem_of_omap in Hin as (r & _ & Hr).
  apply cart_item_inv in Hr as (p & Hp & ->). exists p. simpl. auto.
Qed.

(** ** The checkout when the backend answers *)

Lemma validate_quiet (u : string) (items : list CartItem) (acc : list violation) (w : World) :
  quiet w ->
  Forall (fun item => is_Some (active_product w (ci_sku item))) items ->
  CheckoutService.validate u items acc w
  = (Ok (acc ++ flat_map (violations_of w u) items), w).
Proof.
  intros Hq Hall. revert acc. induction Hall as [|item items [p Hp] Hall IH]; intros acc; simpl.
  - rewrite app_nil_r. reflexivity.
  - rewrite (bind_ok _ _ _ _ _ (getReservedQuantity_quiet u _ w Hq)).
    erewrite bind_ok; [|rewrite (checkStockAvailability_quiet _ _ w Hq), Hp; reflexivity].
    rewrite IH. unfold violations_of. rewrite Hp. simpl.
    destruct (held w u (ci_sku item) <? ci_quantity item);
      destruct (ci_quantity item <=? p_totalStock p - aggregate w (ci_sku item)); simpl;
      rewrite <- ?app_assoc; reflexivity.
Qed.

Lemma processCheckout_quiet (u : string) (w : World) :
  quiet w ->
  fst (UserService.userExists u w) = Ok true ->
  let items := omap (cart_item w) (user_reservations w u) in
  let cart := mkCart u items (sumZ (map ci_quantity items)) (sum_left (map ci_totalPrice items)) in
  let w1 := logged (omap (fetch_failure w) (user_reservations w u)) w in
  let vs := flat_map (violations_of w u) items in
  CheckoutService.processCheckout u w
  = match items with
    | [] => (Throw EmptyCart, w1)
    | _ :: _ =>
        match vs with
        | _ :: _ => (Throw (CheckoutValidationFailed vs), w1)
        | [] => settle u cart w1
        end
    end.
Proof.
  intros Hq Huser items cart w1 vs. unfold CheckoutService.processCheckout.
  rewrite (userExists_quiet u w Hq) in Huser. simpl in Huser. injection Huser as Huser.
  erewrite bind_ok; [|rewrite (userExists_quiet u w Hq), Huser; reflexivity]. simpl.
  rewrite (bind_ok _ _ _ _ _ (getUserCart_quiet u w Hq)). simpl. fold items. fold w1.
  destruct items as [|item items'] eqn:Hitems; [reflexivity|].
  change ((length (item :: items') =? 0)%nat) with false. cbv iota.
  assert (Hq1 : quiet w1) by (apply quiet_logged; exact Hq).
  assert (Hact : Forall (fun item => is_Some (active_product w1 (ci_sku item))) (item :: items')).
  { apply Forall_forall. intros ci Hin. rewrite <- Hitems in Hin.
    apply cart_items_active in Hin as (p & Hp & _). exists p. exact Hp. }
  rewrite (bind_ok _ _ _ _ _ (validate_quiet u _ [] w1 Hq1 Hact)).
  change (flat_map (violations_of w1 u) (item :: items')) with vs. simpl app.
  destruct vs as [|v vs']; reflexivity.
Qed.

Lemma stores_logged (ls : list logline) (w : World) :
  redis (logged ls w) = redis w /\ now (logged ls w) = now w
  /\ products (logged ls w) = products w /\ orders (logged ls w) = orders w
  /\ effects (logged ls w) = effects w.
Proof. repeat split. Qed.

(** ** The writes of a checkout *)

Lemma bind_inv_ok {A B} (m : M A) (k : A -> M B) (w w' : World) (b : B) :
  bind m k w = (Ok b, w') -> exists a w1, m w = (Ok a, w1) /\ k a w1 = (Ok b, w').
Proof.
  unfold bind. destruct (m w) as [[a|e] w1]; [|discriminate].
  intros H. exists a, w1. auto.
Qed.

Lemma save_order_quiet (u : string) (orderItems : list OrderItem) (total : Number) (w : World) :
  quiet w ->
  let order := mkOrder (length (orders w)) u orderItems total "completed" in
  CheckoutService.save_order u orderItems total w
  = (Ok order, add_effect (OrderSaved (o_id order)) (set_orders (orders w ++ [order]) w)).
Proof.
  intros Hq order. unfold CheckoutService.save_order.
  rewrite (bind_ok _ _ _ _ _ (await_quiet w Hq)). reflexivity.
Qed.

Lemma reduceStock_quiet (s : string) (quantity : Z) (w : World) :
  quiet w ->
  ProductService.reduceStock s quantity w
  = match active_product w s with
    | None => (Throw ProductNotFound, w)
    | Some p =>
        if p_totalStock p <? quantity then (Throw InsufficientStock, w)
        else
          let p' := mkProduct (p_id p) (p_name p) (p_totalStock p - quantity) (p_price p)
                              (p_isActive p) in
          (Ok p', add_effect (StockSaved s (p_totalStock p - quantity))
                    (set_products (<[s := p']> (products w)) w))
    end.
Proof.
  intros Hq. unfold ProductService.reduceStock.
  destruct (active_product w s) as [p|] eqn:Hp.
  - erewrite bind_ok; [|rewrite (getProductBySku_quiet s w Hq), Hp; reflexivity].
    destruct (p_totalStock p <? quantity); [reflexivity|].
    unfold ProductService.save.
    erewrite bind_ok; [reflexivity|].
    rewrite (bind_ok _ _ _ _ _ (await_quiet w Hq)). reflexivity.
  - erewrite bind_throw; [reflexivity|].
    rewrite (getProductBySku_quiet s w Hq), Hp. reflexivity.
Qed.

Lemma active_product_stock (w : World) (s : string) (p : Product) :
  active_product w s = Some p -> products w !! s = Some p /\ stock w s = p_totalStock p.
Proof.
  unfold active_product, stock. destruct (products w !! s) as [p'|]; [|discriminate].
  destruct (p_isActive p'); [|discriminate]. intros [= ->]. auto.
Qed.

Lemma sku_in_map (item : CartItem) (items : list CartItem) :
  item ∈ items -> ci_sku item ∈ map ci_sku items.
Proof. intros Hin. apply list_elem_of_In. apply in_map. apply list_elem_of_In. exact Hin. Qed.

Lemma reduce_all_quiet (items : list CartItem) (w w' : World) :
  quiet w ->
  NoDup (map ci_sku items) ->
  CheckoutService.reduce_all items w = (Ok tt, w') ->
  quiet w' /\ redis w' = redis w /\ now w' = now w /\ orders w' = orders w
  /\ effects w' = effects w ++ stock_saves w items
  /\ (forall item, item ∈ items ->
        stock w' (ci_sku item) = stock w (ci_sku item) - ci_quantity item)
  /\ (forall s, s ∉ map ci_sku items -> products w' !! s = products w !! s).
Proof.
  revert w. induction items as [|item items IH]; intros w Hq Hnd; simpl.
  - intros [= <-]. rewrite app_nil_r. repeat split; auto.
    intros item Hin. inversion Hin.
  - intros Hrun. apply bind_inv_ok in Hrun as (p' & w1 & Hred & Hrest).
    rewrite (reduceStock_quiet _ _ w Hq) in Hred.
    destruct (active_product w (ci_sku item)) as [p|] eqn:Hp; [|discriminate].
    destruct (p_totalStock p <? ci_quantity item); [discriminate|].
    injection Hred as _ <-.
    apply active_product_stock in Hp as [Hlook Hstock].
    apply NoDup_cons in Hnd as [Hfresh Hnd].
    apply IH in Hrest; [|exact Hq|exact Hnd].
    destruct Hrest as (Hq' & Hredis & Hnow & Horders & Heff & Hitems & Hother).
    assert (Hsame : forall s, s <> ci_sku item ->
                      stock (add_effect (StockSaved (ci_sku item) (p_totalStock p - ci_quantity item))
                               (set_products
                                  (<[ci_sku item := mkProduct (p_id p) (p_name p)
                                                      (p_totalStock p - ci_quantity item)
                                                      (p_price p) (p_isActive p)]> (products w)) w)) s
                      = stock w s).
    { intros s Hs. unfold stock. simpl. rewrite lookup_insert_ne by congruence. reflexivity. }
    split; [exact Hq'|]. split; [exact Hredis|]. split; [exact Hnow|]. split; [exact Horders|].
    split; [|split].
    + rewrite Heff. simpl. rewrite <- app_assoc. simpl. rewrite Hstock. f_equal. f_equal.
      unfold stock_saves. apply map_ext_in. intros ci Hci. rewrite Hsame; [reflexivity|].
      intros Heq. apply Hfresh. rewrite <- Heq. apply sku_in_map.
      apply list_elem_of_In. exact Hci.
    + intros ci Hci. apply elem_of_cons in Hci as [->|Hci].
      * unfold stock at 1. rewrite (Hother _ Hfresh). simpl. rewrite lookup_insert_eq. simpl.
        rewrite Hstock. reflexivity.
      * rewrite (Hitems ci Hci). rewrite Hsame; [reflexivity|].
        intros Heq. apply Hfresh. rewrite <- Heq. apply sku_in_map. exact Hci.
    + intros s Hs. apply not_elem_of_cons in Hs as [Hne Hs].
      rewrite (Hother s Hs). simpl. apply lookup_insert_ne. congruence.
Qed.

Lemma release_all_quiet (u : string) (items : list CartItem) (w w' : World) :
  quiet w ->
  CheckoutService.release_all u items w = (Ok tt, w') ->
  quiet w' /\ products w' = products w /\ orders w' = orders w /\ now w' = now w
  /\ (exists releases, effects w' = effects w ++ releases /\ Forall is_exec releases)
  /\ (forall s, s ∉ map ci_sku items -> held w' u s = held w u s)
  /\ (NoDup (map ci_sku items) ->
      forall item, item ∈ items -> held w u (ci_sku item) = ci_quantity item ->
                   held w' u (ci_sku item) = 0).
Proof.
  revert w. induction items as [|item items IH]; intros w Hq; simpl.
  - intros [= <-]. repeat split; auto.
    + exists []. rewrite app_nil_r. split; [reflexivity|constructor].
    + intros _ item Hin. inversion Hin.
  - intros Hrun. apply bind_inv_ok in Hrun as (b & w1 & Hrel & Hrest).
    pose proof (releaseReservation_quiet u (ci_sku item) (ci_quantity item) w Hq) as Hspec.
    simpl in Hspec. rewrite Hspec in Hrel. clear Hspec.
    set (k := RedisService.getReservationKey u (ci_sku item)) in *.
    destruct (redis_get (redis w) (now w) k) as [h|] eqn:Hget.
    + destruct (h <? ci_quantity item) eqn:Hlt; [discriminate|]. apply Z.ltb_ge in Hlt.
      injection Hrel as _ <-.
      apply IH in Hrest; [|apply after_exec_quiet; exact Hq].
      destruct Hrest as (Hq' & Hprod & Hord & Hnow & (rel & Heff & Hrel) & Hother & Hitems).
      split; [exact Hq'|]. split; [exact Hprod|]. split; [exact Hord|]. split; [exact Hnow|].
      split; [|split].
      * eexists (_ :: rel). split.
        -- rewrite Heff. simpl. rewrite <- app_assoc. reflexivity.
        -- constructor; [eexists; reflexivity|exact Hrel].
      * intros s Hs. apply not_elem_of_cons in Hs as [Hne Hs].
        rewrite (Hother s Hs). unfold k. apply held_after_cancel_other. congruence.
      * intros Hnd ci Hci Hheld. apply NoDup_cons in Hnd as [Hfresh Hnd].
        apply elem_of_cons in Hci as [->|Hci].
        -- rewrite (Hother _ Hfresh). unfold k.
           assert (Hh : h = ci_quantity item)
             by (unfold held in Hheld; fold k in Hheld; rewrite Hget in Hheld; exact Hheld).
           rewrite held_after_settle by lia. lia.
        -- apply (Hitems Hnd ci Hci). rewrite <- Hheld. unfold k.
           apply held_after_cancel_other.
           intros Heq. apply Hfresh. rewrite Heq. apply sku_in_map. exact Hci.
    + injection Hrel as _ <-.
      apply IH in Hrest; [|exact Hq].
      destruct Hrest as (Hq' & Hprod & Hord & Hnow & Hrels & Hother & Hitems).
      split; [exact Hq'|]. split; [exact Hprod|]. split; [exact Hord|]. split; [exact Hnow|].
      split; [exact Hrels|]. split.
      * intros s Hs. apply not_elem_of_cons in Hs as [Hne Hs]. exact (Hother s Hs).
      * intros Hnd ci Hci Hheld. apply NoDup_cons in Hnd as [Hfresh Hnd].
        apply elem_of_cons in Hci as [->|Hci].
        -- rewrite (Hother _ Hfresh). rewrite Hheld.
           unfold held in Hheld. fold k in Hheld. rewrite Hget in Hheld. simpl in Hheld. lia.
        -- exact (Hitems Hnd ci Hci Hheld).
Qed.

(** ** What a refused checkout leaves behind *)

Lemma same_stores_refl (w : World) : same_stores w w.
Proof. repeat split. Qed.

Lemma same_stores_trans (w1 w2 w3 : World) :
  same_stores w1 w2 -> same_stores w2 w3 -> same_stores w1 w3.
Proof.
  intros (H1 & H2 & H3 & H4 & H5) (K1 & K2 & K3 & K4 & K5).
  repeat split; congruence.
Qed.

Lemma ro_still {A} (f : M A) : (forall w, same_stores w (snd (f w))) -> reads_only f.
Proof. intros Hf w w' r Hrun. specialize (Hf w). rewrite Hrun in Hf. exact Hf. Qed.

Lemma ro_ret {A} (a : A) : reads_only (ret a).
Proof. apply ro_still. intros w. apply same_stores_refl. Qed.

Lemma ro_throw {A} (e : error) : reads_only (@throw A e).
Proof. apply ro_still. intros w. apply same_stores_refl. Qed.

Lemma ro_console_error (l : logline) : reads_only (console_error l).
Proof. apply ro_still. intros w. repeat split. Qed.

Lemma ro_await : reads_only await.
Proof. apply ro_still. intros w. unfold await. destruct (fails _); repeat split. Qed.

Lemma ro_bind {A B} (m : M A) (k : A -> M B) :
  reads_only m -> (forall a, reads_only (k a)) -> reads_only (bind m k).
Proof.
  intros Hm Hk w w' r. unfold bind. destruct (m w) as [[a|e] w1] eqn:Hrun.
  - intros Hk1. exact (same_stores_trans _ _ _ (Hm _ _ _ Hrun) (Hk a _ _ _ Hk1)).
  - intros [= <- <-]. exact (Hm _ _ _ Hrun).
Qed.

Lemma ro_try {A} (m : M A) (h : error -> M A) :
  reads_only m -> (forall e, reads_only (h e)) -> reads_only (try_catch m h).
Proof.
  intros Hm Hh w w' r. unfold try_catch. destruct (m w) as [[a|e] w1] eqn:Hrun.
  - intros [= <- <-]. exact (Hm _ _ _ Hrun).
  - intros Hh1. exact (same_stores_trans _ _ _ (Hm _ _ _ Hrun) (Hh e _ _ _ Hh1)).
Qed.

Create HintDb ro.
#[local] Hint Resolve ro_ret ro_throw ro_console_error ro_await : ro.

Lemma ro_get (k : string) : reads_only (client.get k).
Proof. apply ro_bind; [auto with ro|]. intros _. apply ro_still. intros w. repeat split. Qed.

Lemma ro_keys (p : string) : reads_only (client.keys p).
Proof. apply ro_bind; [auto with ro|]. intros _. apply ro_still. intros w. repeat split. Qed.

Lemma ro_getReservedQuantity (u s : string) : reads_only (RedisService.getReservedQuantity u s).
Proof.
  apply ro_try.
  - apply ro_bind; [apply ro_get|]. intros q. apply ro_ret.
  - intros e. apply ro_bind; auto with ro.
Qed.

Lemma ro_getTotalReservedStock (s : string) : reads_only (RedisService.getTotalReservedStock s).
Proof.
  apply ro_try.
  - apply ro_bind; [apply ro_get|]. intros q. apply ro_ret.
  - intros e. apply ro_bind; auto with ro.
Qed.

Lemma ro_collect_reservations (keys : list string) (acc : list Item) :
  reads_only (RedisService.collect_reservations keys acc).
Proof.
  revert acc. induction keys as [|key keys IH]; intros acc; simpl; [apply ro_ret|].
  apply ro_bind; [apply ro_get|]. intros q. apply IH.
Qed.

Lemma ro_getUserReservations (u : string) : reads_only (RedisService.getUserReservations u).
Proof.
  apply ro_try.
  - apply ro_bind; [apply ro_keys|]. intros keys. apply ro_collect_reservations.
  - intros e. apply ro_bind; auto with ro.
Qed.

Lemma ro_getProductBySku (s : string) : reads_only (ProductService.getProductBySku s).
Proof.
  apply ro_bind; [auto with ro|]. intros _. apply ro_still. intros w.
  destruct (products w !! s) as [p|]; [destruct (p_isActive p)|]; apply same_stores_refl.
Qed.

Lemma ro_checkStockAvailability (s : string) (q : Z) :
  reads_only (ProductService.checkStockAvailability s q).
Proof.
  apply ro_bind; [apply ro_getProductBySku|]. intros p.
  apply ro_bind; [apply ro_getTotalReservedStock|]. intros r. apply ro_ret.
Qed.

Lemma ro_userExists (u : string) : reads_only (UserService.userExists u).
Proof.
  unfold UserService.userExists. destruct (negb _); [apply ro_ret|].
  apply ro_bind; [auto with ro|]. intros _. apply ro_still. intros w. apply same_stores_refl.
Qed.

Lemma ro_collect_cart (rs : list Item) (acc : list CartItem) :
  reads_only (CartService.collect_cart rs acc).
Proof.
  revert acc. induction rs as [|r rs IH]; intros acc; simpl; [apply ro_ret|].
  apply ro_bind; [|intros acc'; apply IH].
  apply ro_try.
  - apply ro_bind; [apply ro_getProductBySku|]. intros p. apply ro_ret.
  - intros e. apply ro_bind; auto with ro.
Qed.

Lemma ro_getUserCart (u : string) : reads_only (CartService.getUserCart u).
Proof.
  apply ro_bind; [apply ro_getUserReservations|]. intros rs.
  apply ro_bind; [apply ro_collect_cart|]. intros items. apply ro_ret.
Qed.

Lemma ro_validate (u : string) (items : list CartItem) (acc : list violation) :
  reads_only (CheckoutService.validate u items acc).
Proof.
  revert acc. induction items as [|item items IH]; intros acc; simpl; [apply ro_ret|].
  apply ro_bind; [apply ro_getReservedQuantity|]. intros r.
  apply ro_bind; [apply ro_checkStockAvailability|]. intros c. apply IH.
Qed.

Lemma th_ret {A} (P : error -> Prop) (a : A) : throws P (ret a).
Proof. intros w w' e. discriminate. Qed.

Lemma th_throw {A} (P : error -> Prop) (e : error) : P e -> throws P (@throw A e).
Proof. intros He w w' e'. intros [= <- _]. exact He. Qed.

Lemma th_bind {A B} (P : error -> Prop) (m : M A) (k : A -> M B) :
  throws P m -> (forall a, throws P (k a)) -> throws P (bind m k).
Proof.
  intros Hm Hk w w' e. unfold bind. destruct (m w) as [[a|e0] w1] eqn:Hrun.
  - apply Hk.
  - intros [= <- <-]. exact (Hm _ _ _ Hrun).
Qed.

Lemma th_rethrow {A} (P : error -> Prop) (m : M A) (l : error -> logline) :
  throws P m -> throws P (try_catch m (fun e => console_error (l e) ;;; @throw A e)).
Proof.
  intros Hm w w' e. unfold try_catch. destruct (m w) as [[a|e0] w1] eqn:Hrun.
  - discriminate.
  - unfold bind, console_error, throw. intros [= <- _]. exact (Hm _ _ _ Hrun).
Qed.

Lemma th_await : throws settle_error await.
Proof.
  intros w w' e. unfold await. destruct (fails _); [|discriminate].
  intros [= <- _]. left. reflexivity.
Qed.

Lemma th_after_await {A} (f : M A) :
  (forall w, exists a, fst (f w) = Ok a) -> throws settle_error (await ;;; f).
Proof.
  intros Hf. apply th_bind; [apply th_await|]. intros _ w w' e Hrun.
  destruct (Hf w) as [a Ha]. rewrite Hrun in Ha. discriminate.
Qed.

Lemma th_reduceStock (s : string) (q : Z) : throws settle_error (ProductService.reduceStock s q).
Proof.
  apply th_bind.
  - apply th_bind; [apply th_await|]. intros _ w w' e.
    destruct (products w !! s) as [p|]; [destruct (p_isActive p)|];
      intros [= <- _]; right; left; reflexivity.
  - intros p. destruct (_ <? _).
    + apply th_throw. right. right. left. reflexivity.
    + apply th_bind; [|intros _; apply th_ret].
      apply th_after_await. intros w. eexists. reflexivity.
Qed.

Lemma th_reduce_all (items : list CartItem) : throws settle_error (CheckoutService.reduce_all items).
Proof.
  induction items as [|item items IH]; simpl; [apply th_ret|].
  apply th_bind; [apply th_reduceStock|]. intros _. exact IH.
Qed.

Lemma th_releaseReservation (u s : string) (q : Z) :
  throws settle_error (RedisService.releaseReservation u s q).
Proof.
  apply th_rethrow. apply th_bind.
  - apply th_after_await. intros w. eexists. reflexivity.
  - intros [h|]; [|apply th_ret].
    destruct (h <? q); [apply th_throw; right; right; right; reflexivity|].
    apply th_bind.
    + unfold RedisService.keep_or_delete. destruct (0 <? h - q); [|apply th_ret].
      apply th_bind.
      * apply th_after_await. intros w. eexists. reflexivity.
      * intros t. destruct (0 <? t); apply th_ret.
    + intros first. apply th_bind; [|intros _; apply th_ret].
      apply th_after_await. intros w. eexists. reflexivity.
Qed.

Lemma th_release_all (u : string) (items : list CartItem) :
  throws settle_error (CheckoutService.release_all u items).
Proof.
  induction items as [|item items IH]; simpl; [apply th_ret|].
  apply th_bind; [apply th_releaseReservation|]. intros _. exact IH.
Qed.

Lemma th_settle (u : string) (cart : Cart) : throws settle_error (settle u cart).
Proof.
  unfold settle. apply th_bind.
  - apply th_after_await. intros w. eexists. reflexivity.
  - intros order. apply th_bind; [apply th_reduce_all|]. intros _.
    apply th_bind; [apply th_release_all|]. intros _. apply th_ret.
Qed.

(** A checkout that is refused before the order is written (no such user,
    empty cart, failed validation) has written nothing, whatever the
    environment did. *)
Lemma refused_checkout_writes_nothing (u : string) (w w' : World) (e : error) :
  CheckoutService.processCheckout u w = (Throw e, w') ->
  ~ settle_error e ->
  same_stores w w'.
Proof.
  unfold CheckoutService.processCheckout. intros Hrun Hkind.
  unfold bind at 1 in Hrun.
  destruct (UserService.userExists u w) as [[b|e0] w1] eqn:Huser.
  2:{ injection Hrun as <- <-. exact (ro_userExists u _ _ _ Huser). }
  pose proof (ro_userExists u _ _ _ Huser) as H1.
  destruct b; simpl in Hrun.
  2:{ injection Hrun as <- <-. exact H1. }
  unfold bind at 1 in Hrun.
  destruct (CartService.getUserCart u w1) as [[cart|e0] w2] eqn:Hcart.
  2:{ injection Hrun as <- <-. exact (same_stores_trans _ _ _ H1 (ro_getUserCart u _ _ _ Hcart)). }
  pose proof (same_stores_trans _ _ _ H1 (ro_getUserCart u _ _ _ Hcart)) as H2.
  destruct (length (cart_items cart) =? 0)%nat.
  { injection Hrun as <- <-. exact H2. }
  unfold bind at 1 in Hrun.
  destruct (CheckoutService.validate u (cart_items cart) [] w2) as [[vs|e0] w3] eqn:Hval.
  2:{ injection Hrun as <- <-. exact (same_stores_trans _ _ _ H2 (ro_validate u _ _ _ _ _ Hval)). }
  pose proof (same_stores_trans _ _ _ H2 (ro_validate u _ _ _ _ _ Hval)) as H3.
  destruct (0 <? length vs)%nat.
  { injection Hrun as <- <-. exact H3. }
  exfalso. apply Hkind. exact (th_settle u cart _ _ _ Hrun).
Qed.

Lemma th_swallow {A} (P : error -> Prop) (m : M A) (l : error -> logline) (d : A) :
  throws P (try_catch m (fun e => console_error (l e) ;;; ret d)).
Proof.
  intros w w' e. unfold try_catch. destruct (m w) as [[a|e0] w1]; discriminate.
Qed.

Lemma th_getProductBySku (s : string) : throws settle_error (ProductService.getProductBySku s).
Proof.
  apply th_bind; [apply th_await|]. intros _ w w' e.
  destruct (products w !! s) as [p|]; [destruct (p_isActive p)|];
    intros [= <- _]; right; left; reflexivity.
Qed.

Lemma th_collect_cart (rs : list Item) (acc : list CartItem) :
  throws (fun _ => False) (CartService.collect_cart rs acc).
Proof.
  revert acc. induction rs as [|r rs IH]; intros acc; simpl; [apply th_ret|].
  apply th_bind; [|intros acc'; apply IH].
  intros w w' e. unfold try_catch.
  destruct (bind _ _ w) as [[a|e0] w1]; discriminate.
Qed.

Lemma th_getUserCart (u : string) : throws (fun _ => False) (CartService.getUserCart u).
Proof.
  apply th_bind; [apply th_swallow|]. intros rs.
  apply th_bind; [apply th_collect_cart|]. intros items. apply th_ret.
Qed.

Lemma th_validate (u : string) (items : list CartItem) (acc : list violation) :
  throws settle_error (CheckoutService.validate u items acc).
Proof.
  revert acc. induction items as [|item items IH]; intros acc; simpl; [apply th_ret|].
  apply th_bind; [apply th_swallow|]. intros r.
  apply th_bind; [|intros c; apply IH].
  apply th_bind; [apply th_getProductBySku|]. intros p.
  apply th_bind; [apply th_swallow|]. intros n. apply th_ret.
Qed.

Lemma th_userExists (u : string) : throws settle_error (UserService.userExists u).
Proof.
  unfold UserService.userExists. destruct (negb _); [apply th_ret|].
  apply th_after_await. intros w. eexists. reflexivity.
Qed.

Lemma validation_error_not_empty (u : string) (w w' : World) (vs : list violation) :
  CheckoutService.processCheckout u w = (Throw (CheckoutValidationFailed vs), w') ->
  vs <> [].
Proof.
  unfold CheckoutService.processCheckout. intros Hrun.
  unfold bind at 1 in Hrun.
  destruct (UserService.userExists u w) as [[b|e0] w1] eqn:Huser.
  2:{ injection Hrun as -> _. apply th_userExists in Huser.
      destruct Huser as [H|[H|[H|H]]]; discriminate H. }
  destruct b; simpl in Hrun; [|discriminate].
  unfold bind at 1 in Hrun.
  destruct (CartService.getUserCart u w1) as [[cart|e0] w2] eqn:Hcart.
  2:{ injection Hrun as -> _. apply th_getUserCart in Hcart. contradiction. }
  destruct (length (cart_items cart) =? 0)%nat; [discriminate|].
  unfold bind at 1 in Hrun.
  destruct (CheckoutService.validate u (cart_items cart) [] w2) as [[vs0|e0] w3] eqn:Hval.
  2:{ injection Hrun as -> _. apply th_validate in Hval.
      destruct Hval as [H|[H|[H|H]]]; discriminate H. }
  destruct vs0 as [|v vs0]; simpl in Hrun.
  - apply th_settle in Hrun. destruct Hrun as [H|[H|[H|H]]]; discriminate H.
  - injection Hrun as <- _. discriminate.
Qed.

(** ** The cart and the checks of the checkout *)


(** C5: with the backend answering and a cart that is not empty, when some
    line fails a check (the user's hold is below the cart quantity, or the
    availability check no longer passes) [processCheckout] fails with
    'Checkout validation failed' carrying the violations of every line of
    the cart, in cart order.  In every environment a checkout that fails so
    has written nothing: no order, no stock decrement, no release. *)
Theorem checkout_validation_enumerates (userId : string) (w : World) :
  (quiet w ->
   fst (UserService.userExists userId w) = Ok true ->
   forall (cart : Cart) (w1 : World),
     CartService.getUserCart userId w = (Ok cart, w1) ->
     flat_map (violations_of w userId) (cart_items cart) <> [] ->
     exists w',
       CheckoutService.processCheckout userId w
       = (Throw (CheckoutValidationFailed
                   (flat_map (violations_of w userId) (cart_items cart))), w'))
  /\ (forall vs w',
        CheckoutService.processCheckout userId w = (Throw (CheckoutValidationFailed vs), w') ->
        vs <> [] /\ same_stores w w').
Proof.
  split.
  - intros Hq Huser cart w1 Hcart Hvs.
    rewrite (getUserCart_quiet userId w Hq) in Hcart. injection Hcart as <- <-.
    simpl in Hvs |- *. eexists.
    rewrite (processCheckout_quiet userId w Hq Huser).
    destruct (omap (cart_item w) (user_reservations w userId)) as [|item items] eqn:Hitems;
      [simpl in Hvs; contradiction|].
    destruct (flat_map (violations_of w userId) (item :: items)) as [|v vs] eqn:Heq;
      [contradiction|].
    reflexivity.
  - intros vs w' Hrun. split.
    + apply (validation_error_not_empty userId w w' vs Hrun).
    + apply (refused_checkout_writes_nothing userId w w' _ Hrun).
      intros [H|[H|[H|H]]]; discriminate H.
Qed.

(** ** The order of the writes of a checkout, in every environment *)

Lemma bind_inv {A B} (m : M A) (k : A -> M B) (w w' : World) (r : result B) :
  bind m k w = (r, w') ->
  (exists a w1, m w = (Ok a, w1) /\ k a w1 = (r, w'))
  \/ (exists e, m w = (Throw e, w') /\ r = Throw e).
Proof.
  unfold bind. destruct (m w) as [[a|e] w1].
  - intros H. left. exists a, w1. auto.
  - intros [= <- <-]. right. exists e. auto.
Qed.

Lemma reduceStock_writes (s : string) (q : Z) (w w' : World) (r : result Product) :
  ProductService.reduceStock s q w = (r, w') ->
  exists l, effects w' = effects w ++ l /\ Forall is_stock_save l.
Proof.
  unfold ProductService.reduceStock. intros Hrun.
  apply bind_inv in Hrun as [(p & w1 & Hget & Hrun)|(e & Hget & _)].
  2:{ exists []. rewrite app_nil_r. split; [|constructor].
      apply (ro_getProductBySku s _ _ _ Hget). }
  pose proof (ro_getProductBySku s _ _ _ Hget) as (_ & _ & _ & _ & Heff1).
  destruct (p_totalStock p <? q).
  { injection Hrun as _ <-. exists []. rewrite app_nil_r. split; [exact Heff1|constructor]. }
  apply bind_inv in Hrun as [([] & w2 & Hsave & Hrun)|(e & Hsave & _)].
  - injection Hrun as _ <-. unfold ProductService.save in Hsave.
    apply bind_inv in Hsave as [([] & w3 & Haw & Hsave)|(e & Haw & Habs)]; [|discriminate].
    injection Hsave as <-. pose proof (ro_await _ _ _ Haw) as (_ & _ & _ & _ & Heff3).
    eexists [_]. simpl. rewrite Heff3, Heff1. split; [reflexivity|].
    constructor; [eexists; eexists; reflexivity|constructor].
  - unfold ProductService.save in Hsave.
    apply bind_inv in Hsave as [([] & w3 & Haw & Hsave)|(e' & Haw & _)]; [discriminate|].
    pose proof (ro_await _ _ _ Haw) as (_ & _ & _ & _ & Heff3).
    exists []. rewrite app_nil_r. split; [congruence|constructor].
Qed.

Lemma reduce_all_writes (items : list CartItem) (w w' : World) (r : result unit) :
  CheckoutService.reduce_all items w = (r, w') ->
  exists l, effects w' = effects w ++ l /\ Forall is_stock_save l.
Proof.
  revert w. induction items as [|item items IH]; intros w; simpl.
  - intros [= _ <-]. exists []. rewrite app_nil_r. split; [reflexivity|constructor].
  - intros Hrun. apply bind_inv in Hrun as [(p & w1 & Hred & Hrun)|(e & Hred & _)].
    + apply reduceStock_writes in Hred as (l1 & Heff1 & Hl1).
      apply IH in Hrun as (l2 & Heff2 & Hl2).
      exists (l1 ++ l2). rewrite Heff2, Heff1, app_assoc. split; [reflexivity|].
      apply Forall_app; auto.
    + exact (reduceStock_writes _ _ _ _ _ Hred).
Qed.

Lemma ro_ttl (k : string) : reads_only (client.ttl k).
Proof. apply ro_bind; [auto with ro|]. intros _. apply ro_still. intros w. repeat split. Qed.

Lemma ro_keep_or_delete (k : string) (remaining : Z) :
  reads_only (RedisService.keep_or_delete k remaining).
Proof.
  unfold RedisService.keep_or_delete. destruct (0 <? remaining); [|apply ro_ret].
  apply ro_bind; [apply ro_ttl|]. intros t. destruct (0 <? t); apply ro_ret.
Qed.

Lemma exec_writes (cmds : list cmd) (w w' : World) (r : result unit) :
  client.exec cmds w = (r, w') ->
  exists l, effects w' = effects w ++ l /\ Forall is_exec l.
Proof.
  unfold client.exec. intros Hrun.
  apply bind_inv in Hrun as [([] & w1 & Haw & Hrun)|(e & Haw & _)];
    pose proof (ro_await _ _ _ Haw) as (_ & _ & _ & _ & Heff).
  - injection Hrun as _ <-. eexists [_]. simpl. rewrite Heff. split; [reflexivity|].
    constructor; [eexists; reflexivity|constructor].
  - exists []. rewrite app_nil_r. split; [exact Heff|constructor].
Qed.

Lemma releaseReservation_writes (u s : string) (q : Z) (w w' : World) (r : result bool) :
  RedisService.releaseReservation u s q w = (r, w') ->
  exists l, effects w' = effects w ++ l /\ Forall is_exec l.
Proof.
  unfold RedisService.releaseReservation, try_catch.
  destruct (bind _ _ w) as [r0 w0] eqn:Hbody. intros Hrun.
  assert (Hw : exists l, effects w0 = effects w ++ l /\ Forall is_exec l).
  { clear Hrun. apply bind_inv in Hbody as [(h & w1 & Hget & Hbody)|(e & Hget & _)].
    2:{ exists []. rewrite app_nil_r. split; [|constructor]. apply (ro_get _ _ _ _ Hget). }
    pose proof (ro_get _ _ _ _ Hget) as (_ & _ & _ & _ & Heff1).
    destruct h as [h|].
    2:{ injection Hbody as _ <-. exists []. rewrite app_nil_r. split; [exact Heff1|constructor]. }
    destruct (h <? q).
    { injection Hbody as _ <-. exists []. rewrite app_nil_r. split; [exact Heff1|constructor]. }
    apply bind_inv in Hbody as [(first & w2 & Hkeep & Hbody)|(e & Hkeep & _)].
    2:{ exists []. rewrite app_nil_r. split; [|constructor].
        pose proof (ro_keep_or_delete _ _ _ _ _ Hkeep) as (_ & _ & _ & _ & Heff2). congruence. }
    pose proof (ro_keep_or_delete _ _ _ _ _ Hkeep) as (_ & _ & _ & _ & Heff2).
    apply bind_inv in Hbody as [([] & w3 & Hexec & Hbody)|(e & Hexec & _)].
    - injection Hbody as _ <-. apply exec_writes in Hexec as (l & Heff3 & Hl).
      exists l. split; [congruence|exact Hl].
    - apply exec_writes in Hexec as (l & Heff3 & Hl).
      exists l. split; [congruence|exact Hl]. }
  destruct r0 as [b|e].
  - injection Hrun as _ <-. exact Hw.
  - unfold bind, console_error, throw in Hrun. injection Hrun as _ <-. exact Hw.
Qed.

Lemma release_all_writes (u : string) (items : list CartItem) (w w' : World) (r : result unit) :
  CheckoutService.release_all u items w = (r, w') ->
  exists l, effects w' = effects w ++ l /\ Forall is_exec l.
Proof.
  revert w. induction items as [|item items IH]; intros w; simpl.
  - intros [= _ <-]. exists []. rewrite app_nil_r. split; [reflexivity|constructor].
  - intros Hrun. apply bind_inv in Hrun as [(b & w1 & Hrel & Hrun)|(e & Hrel & _)].
    + apply releaseReservation_writes in Hrel as (l1 & Heff1 & Hl1).
      apply IH in Hrun as (l2 & Heff2 & Hl2).
      exists (l1 ++ l2). rewrite Heff2, Heff1, app_assoc. split; [reflexivity|].
      apply Forall_app; auto.
    + exact (releaseReservation_writes _ _ _ _ _ _ Hrel).
Qed.

Lemma settle_writes (u : string) (cart : Cart) (w w' : World) (r : result Receipt) :
  settle u cart w = (r, w') ->
  exists l, effects w' = effects w ++ l /\ checkout_writes l.
Proof.
  unfold settle. intros Hrun.
  apply bind_inv in Hrun as [(order & w1 & Hsave & Hrun)|(e & Hsave & _)].
  2:{ unfold CheckoutService.save_order in Hsave.
      apply bind_inv in Hsave as [([] & w2 & Haw & Hsave)|(e' & Haw & _)]; [discriminate|].
      pose proof (ro_await _ _ _ Haw) as (_ & _ & _ & _ & Heff).
      exists []. rewrite app_nil_r. split; [exact Heff|left; reflexivity]. }
  unfold CheckoutService.save_order in Hsave.
  apply bind_inv in Hsave as [([] & w2 & Haw & Hsave)|(e' & Haw & Habs)]; [|discriminate].
  pose proof (ro_await _ _ _ Haw) as (_ & _ & _ & _ & Heff0).
  injection Hsave as _ <-.
  assert (Htail : exists saves releases,
             effects w' = effects w ++ OrderSaved (length (orders w2)) :: saves ++ releases
             /\ Forall is_stock_save saves /\ Forall is_exec releases).
  { apply bind_inv in Hrun as [([] & w3 & Hred & Hrun)|(e & Hred & _)].
    - apply reduce_all_writes in Hred as (saves & Heff1 & Hsaves).
      apply bind_inv in Hrun as [([] & w4 & Hrel & Hrun)|(e & Hrel & _)].
      + injection Hrun as _ <-. apply release_all_writes in Hrel as (rels & Heff2 & Hrels).
        exists saves, rels. rewrite Heff2, Heff1. simpl. rewrite Heff0, <- !app_assoc.
        repeat split; auto.
      + apply release_all_writes in Hrel as (rels & Heff2 & Hrels).
        exists saves, rels. rewrite Heff2, Heff1. simpl. rewrite Heff0, <- !app_assoc.
        repeat split; auto.
    - apply reduce_all_writes in Hred as (saves & Heff1 & Hsaves).
      exists saves, []. rewrite Heff1. simpl. rewrite Heff0, app_nil_r, <- !app_assoc.
      repeat split; auto. }
  destruct Htail as (saves & rels & Heff & Hs & Hr).
  eexists. split; [exact Heff|]. right. eexists. exists saves, rels. auto.
Qed.

(** Whatever the environment does and however the checkout ends, the
    backends see no write, or the order first, then stock decrements, then
    release transactions. *)
Lemma processCheckout_writes (u : string) (w w' : World) (r : result Receipt) :
  CheckoutService.processCheckout u w = (r, w') ->
  exists l, effects w' = effects w ++ l /\ checkout_writes l.
Proof.
  unfold CheckoutService.processCheckout. intros Hrun.
  assert (Hnone : forall w0, same_stores w w0 ->
            exists l, effects w0 = effects w ++ l /\ checkout_writes l).
  { intros w0 (_ & _ & _ & _ & Heff). exists []. rewrite app_nil_r.
    split; [exact Heff|left; reflexivity]. }
  apply bind_inv in Hrun as [(b & w1 & Huser & Hrun)|(e & Huser & _)].
  2:{ apply Hnone. exact (ro_userExists u _ _ _ Huser). }
  pose proof (ro_userExists u _ _ _ Huser) as H1.
  destruct b; simpl in Hrun.
  2:{ injection Hrun as _ <-. apply Hnone. exact H1. }
  apply bind_inv in Hrun as [(cart & w2 & Hcart & Hrun)|(e & Hcart & _)].
  2:{ apply Hnone. exact (same_stores_trans _ _ _ H1 (ro_getUserCart u _ _ _ Hcart)). }
  pose proof (same_stores_trans _ _ _ H1 (ro_getUserCart u _ _ _ Hcart)) as H2.
  destruct (length (cart_items cart) =? 0)%nat.
  { injection Hrun as _ <-. apply Hnone. exact H2. }
  apply bind_inv in Hrun as [(vs & w3 & Hval & Hrun)|(e & Hval & _)].
  2:{ apply Hnone. exact (same_stores_trans _ _ _ H2 (ro_validate u _ _ _ _ _ Hval)). }
  pose proof (same_stores_trans _ _ _ H2 (ro_validate u _ _ _ _ _ Hval)) as H3.
  destruct (0 <? length vs)%nat.
  { injection Hrun as _ <-. apply Hnone. exact H3. }
  apply (settle_writes u cart) in Hrun as (l & Heff & Hl).
  destruct H3 as (_ & _ & _ & _ & Heff3).
  exists l. split; [congruence|exact Hl].
Qed.

(** X19: with the backend answering, a [processCheckout] that succeeds on a
    cart whose lines have distinct SKUs leaves exactly one more order, with
    status 'completed', the user's id and, line by line, the product id, the
    SKU, the quantity and the price of the cart's lines, the price being the
    active product's at the checkout, and the cart's total amount; for
    every cart line the total stock of its SKU is lower by exactly the line's
    quantity, and a hold that equalled that quantity reads 0 afterwards.
    The backends saw the order saved first, then every stock decrement, and
    only then the release transactions; and in every environment, however
    the checkout ends, its writes are none, or the order followed by stock
    decrements followed by release transactions. *)
Theorem checkout_consumes_holds (userId : string) (w : World) :
  (quiet w ->
   forall (w1 w' : World) (cart : Cart) (receipt : Receipt),
     CartService.getUserCart userId w = (Ok cart, w1) ->
     CheckoutService.processCheckout userId w = (Ok receipt, w') ->
     NoDup (map ci_sku (cart_items cart)) ->
     (exists order,
         orders w' = orders w ++ [order]
         /\ o_id order = r_orderId receipt /\ o_userId order = userId
         /\ o_status order = "completed"
         /\ Forall2 (fun line item =>
                       oi_productId line = ci_productId item
                       /\ oi_sku line = ci_sku item
                       /\ oi_quantity line = ci_quantity item
                       /\ oi_price line = ci_price item)
                    (o_items order) (cart_items cart)
         /\ o_totalAmount order = cart_totalAmount cart)
     /\ (forall item, item ∈ cart_items cart ->
           exists p, active_product w (ci_sku item) = Some p /\ ci_price item = p_price p)
     /\ (forall item, item ∈ cart_items cart ->
           stock w' (ci_sku item) = stock w (ci_sku item) - ci_quantity item
           /\ (fst (RedisService.getReservedQuantity userId (ci_sku item) w)
               = Ok (ci_quantity item) ->
               fst (RedisService.getReservedQuantity userId (ci_sku item) w') = Ok 0))
     /\ exists releases,
         effects w' = effects w ++ [OrderSaved (r_orderId receipt)]
                      ++ stock_saves w (cart_items cart) ++ releases
         /\ Forall is_exec releases)
  /\ (forall (r : result Receipt) (w' : World),
        CheckoutService.processCheckout userId w = (r, w') ->
        exists l, effects w' = effects w ++ l /\ checkout_writes l).
Proof.
  split; [|intros r w' Hrun; exact (processCheckout_writes userId w w' r Hrun)].
  intros Hq w1 w' cart receipt Hcart Hrun Hnd.
  assert (Huser : fst (UserService.userExists userId w) = Ok true).
  { unfold CheckoutService.processCheckout in Hrun.
    apply bind_inv_ok in Hrun as (b & w0 & Hu & Hrest). rewrite Hu. simpl.
    destruct b; [reflexivity|discriminate]. }
  rewrite (processCheckout_quiet userId w Hq Huser) in Hrun.
  rewrite (getUserCart_quiet userId w Hq) in Hcart. injection Hcart as <- <-.
  simpl cart_items in *. simpl cart_totalAmount.
  set (items := omap (cart_item w) (user_reservations w userId)) in *.
  set (wl := logged (omap (fetch_failure w) (user_reservations w userId)) w) in *.
  assert (Hql : quiet wl) by (apply quiet_logged; exact Hq).
  destruct items as [|item0 items0] eqn:Hitems; [discriminate|]. rewrite <- Hitems in *.
  destruct (flat_map (violations_of w userId) items); [|discriminate].
  unfold settle in Hrun. simpl cart_items in Hrun. simpl cart_totalAmount in Hrun.
  apply bind_inv_ok in Hrun as (order & w2 & Hsave & Hrun).
  rewrite (save_order_quiet _ _ _ wl Hql) in Hsave. injection Hsave as <- <-.
  apply bind_inv_ok in Hrun as ([] & w3 & Hreduce & Hrun).
  apply bind_inv_ok in Hrun as ([] & w4 & Hrelease & Hret).
  injection Hret as <- <-.
  apply reduce_all_quiet in Hreduce; [|exact Hql|exact Hnd].
  destruct Hreduce as (Hq3 & Hredis3 & Hnow3 & Hord3 & Heff3 & Hstock3 & _).
  apply release_all_quiet in Hrelease; [|exact Hq3].
  destruct Hrelease as (Hq4 & Hprod4 & Hord4 & Hnow4 & (rel & Heff4 & Hrel) & _ & Hheld4).
  split; [|split; [|split]].
  - eexists. split; [rewrite Hord4, Hord3; reflexivity|]. simpl.
    repeat (split; [reflexivity|]). split; [|reflexivity].
    clear. induction items as [|item items IH]; simpl; constructor; auto.
  - intros item Hin. rewrite Hitems in Hin. rewrite <- Hitems in Hin. subst items.
    apply cart_items_active in Hin as (p & Hp & Hprice & _). exists p. auto.
  - intros item Hin. split.
    + unfold stock at 1. rewrite Hprod4. exact (Hstock3 item Hin).
    + rewrite (getReservedQuantity_quiet _ _ w Hq), (getReservedQuantity_quiet _ _ w4 Hq4).
      simpl. intros [= Hheld]. f_equal. apply (Hheld4 Hnd item Hin).
      unfold held. rewrite Hredis3, Hnow3. exact Hheld.
  - exists rel. split; [|exact Hrel].
    rewrite Heff4, Heff3. simpl. rewrite <- !app_assoc. reflexivity.
Qed.

(** ** The counter against the stock and against the holds *)

(** C1: [reserveStock] makes no availability check of its own, and the
    check of [reserveItems] is a separate driver call made before it.  With
    one unit in stock, [reserveStock] for 5 units succeeds and leaves the
    counter at 5; and when two requests for the last unit interleave at the
    await between check and reservation, both are admitted without an error,
    each user holds 1 unit and the counter reads 2 against a total stock
    of 1. *)
Theorem reserve_can_exceed_stock :
  (fst (RedisService.reserveStock alice "FLASH-001" 5 600 (shop 1)) = Ok true
   /\ fst (RedisService.getTotalReservedStock "FLASH-001"
             (after (RedisService.reserveStock alice "FLASH-001" 5 600) (shop 1))) = Ok 5
   /\ stock (after (RedisService.reserveStock alice "FLASH-001" 5 600) (shop 1))
            "FLASH-001" = 1)
  /\ (fst (race_for_last_unit (shop 1)) = Ok tt
      /\ fst (RedisService.getReservedQuantity alice "FLASH-001"
                (after race_for_last_unit (shop 1))) = Ok 1
      /\ fst (RedisService.getReservedQuantity bob "FLASH-001"
                (after race_for_last_unit (shop 1))) = Ok 1
      /\ fst (RedisService.getTotalReservedStock "FLASH-001"
                (after race_for_last_unit (shop 1))) = Ok 2
      /\ stock (after race_for_last_unit (shop 1)) "FLASH-001" = 1).
Proof. repeat split; vm_compute; reflexivity. Qed.

(** C2: the counter has a time to live of its own, which every later
    reservation of the SKU renews, and an expiring hold does not decrement
    it.  One second after Alice's hold of 5 has expired, the only live hold
    is Bob's 1, yet the counter reads 6 and 5 of the 10 units are reported
    unavailable.  In the other direction, a remainder stored again with a
    fresh 600 seconds outlives the counter: Alice's hold reads 3 while the
    counter reads 0, and Bob is then admitted for all 10 units. *)
Theorem counter_drifts_from_holds :
  (fst (RedisService.getReservedQuantity alice "FLASH-001" after_alice_expired) = Ok 0
   /\ fst (RedisService.getReservedQuantity bob "FLASH-001" after_alice_expired) = Ok 1
   /\ fst (RedisService.getUserReservations alice after_alice_expired) = Ok []
   /\ fst (RedisService.getTotalReservedStock "FLASH-001" after_alice_expired) = Ok 6
   /\ fst (ProductService.checkStockAvailability "FLASH-001" 5 after_alice_expired)
      = Ok (mkStockCheck false 4 10 6))
  /\ (fst (RedisService.getReservedQuantity alice "FLASH-001" after_late_cancel) = Ok 3
      /\ fst (RedisService.getTotalReservedStock "FLASH-001" after_late_cancel) = Ok 0
      /\ fst (CartService.reserveItems bob [mkItem "FLASH-001" 10] 600 after_late_cancel)
         = Ok [mkItem "FLASH-001" 10]
      /\ stock after_late_cancel "FLASH-001" = 10).
Proof. repeat split; vm_compute; reflexivity. Qed.

(** ** The SKU that the listing reads back from a key *)

(** C4: [getUserReservations] takes the SKU of a hold from its key as
    [key.split(':')[2]], which for the SKU [A:x] is [A].  Alice holds 1 unit
    of [A] and 1 unit of [A:x], two products with 5 units each.  Her
    checkout succeeds, with an order of two lines that both name [A]; the
    total stock of [A] is lower by 2 for her hold of 1, the total stock of
    [A:x] is not lowered at all, and her hold of 1 on [A:x] is still there
    after the checkout, as is its unit in the counter of [A:x]. *)
Theorem checkout_settles_another_sku :
  held alice_holds_both alice "A" = 1
  /\ held alice_holds_both alice "A:x" = 1
  /\ stock alice_holds_both "A" = 5
  /\ stock alice_holds_both "A:x" = 5
  /\ fst (RedisService.getUserReservations alice alice_holds_both)
     = Ok [mkItem "A" 1; mkItem "A" 1]
  /\ fst (CheckoutService.processCheckout alice alice_holds_both)
     = Ok (mkReceipt 0 alice [mkOrderItem "pa" "A" 1 100%float;
                              mkOrderItem "pa" "A" 1 100%float] 200%float)
  /\ stock (after (CheckoutService.processCheckout alice) alice_holds_both) "A" = 5 - 2
  /\ stock (after (CheckoutService.processCheckout alice) alice_holds_both) "A:x" = 5
  /\ fst (RedisService.getReservedQuantity alice "A:x"
            (after (CheckoutService.processCheckout alice) alice_holds_both)) = Ok 1
  /\ fst (RedisService.getTotalReservedStock "A:x"
            (after (CheckoutService.processCheckout alice) alice_holds_both)) = Ok 1.
Proof. repeat apply conj; vm_compute; reflexivity. Qed.

(** C10: Alice's only live hold is 2 units of [A:x], a SKU whose product
    has been deactivated; [A] is active and she holds none of it.  The
    reservation is listed with the SKU [A], so the cart does not leave it
    out: it has one line, for 2 units of [A] at the price of [A], and totals
    of 2 and 200; and the checkout fails with 'Checkout validation failed'
    (quantity mismatch for [A]: reserved 0, cart 2), not with 'Cart is
    empty'. *)
Theorem cart_lists_another_sku :
  active_product variant_withdrawn "A:x" = None
  /\ held variant_withdrawn alice "A:x" = 2
  /\ held variant_withdrawn alice "A" = 0
  /\ fst (RedisService.getUserReservations alice variant_withdrawn) = Ok [mkItem "A" 2]
  /\ fst (CartService.getUserCart alice variant_withdrawn)
     = Ok (mkCart alice [mkCartItem "pa" "A" "Deal A" 100%float 2 200%float] 2 200%float)
  /\ fst (CheckoutService.processCheckout alice variant_withdrawn)
     = Throw (CheckoutValidationFailed [QuantityMismatch "A" 0 2])
  /\ fst (CheckoutService.processCheckout alice variant_withdrawn) <> Throw EmptyCart.
Proof. repeat apply conj; vm_compute; try reflexivity; discriminate. Qed.

(** ** Instances *)

(** C3 at a batch whose second item asks for 5 of 1 unit. *)
Lemma reserveItems_rolls_back_witness :
  exists w3,
    CartService.reserveItems alice [mkItem "FLASH-001" 2; mkItem "FLASH-002" 5] 600 (shop2 10 1)
    = (Throw (InsufficientStockSku "FLASH-002" 1 5), w3)
    /\ fst (RedisService.getReservedQuantity alice "FLASH-001" w3) = Ok 0.
Proof.
  destruct (reserveItems_rolls_back alice [mkItem "FLASH-001" 2; mkItem "FLASH-002" 5] 600
              (shop2 10 1) (shop2 10 1)
              (snd (CartService.reserve_loop alice 600
                      [mkItem "FLASH-001" 2; mkItem "FLASH-002" 5] [] (shop2 10 1)))
              (InsufficientStockSku "FLASH-002" 1 5) [mkItem "FLASH-001" 2])
    as (w3 & Hcall & _ & _ & Hheld).
  - vm_compute. reflexivity.
  - vm_compute. reflexivity.
  - exists w3. split; [exact Hcall|].
    apply (Hheld eq_refl ltac:(lia) "FLASH-001" 0); [vm_compute; reflexivity|lia].
Defined.

(** X19 at Alice's checkout of her 2 units out of 200. *)
Lemma checkout_consumes_holds_witness :
  stock (after (CheckoutService.processCheckout alice) alice_holds_two) "FLASH-001" = 200 - 2
  /\ fst (RedisService.getReservedQuantity alice "FLASH-001"
            (after (CheckoutService.processCheckout alice) alice_holds_two)) = Ok 0.
Proof.
  destruct (checkout_consumes_holds alice alice_holds_two) as [Hdone _].
  destruct (Hdone eq_refl
              (after (CartService.getUserCart alice) alice_holds_two)
              (after (CheckoutService.processCheckout alice) alice_holds_two)
              (mkCart alice [mkCartItem "p1" "FLASH-001" "Flash Deal Product" 9999%float 2 19998%float]
                      2 19998%float)
              (mkReceipt 0 alice [mkOrderItem "p1" "FLASH-001" 2 9999%float] 19998%float))
    as (_ & _ & Hitem & _).
  - vm_compute. reflexivity.
  - vm_compute. reflexivity.
  - simpl. apply NoDup_cons. split; [apply not_elem_of_nil|apply NoDup_nil_2].
  - destruct (Hitem (mkCartItem "p1" "FLASH-001" "Flash Deal Product" 9999%float 2 19998%float))
      as [Hstock Hheld].
    + simpl. left.
    + split.
      * etransitivity; [exact Hstock|]. vm_compute. reflexivity.
      * apply Hheld. vm_compute. reflexivity.
Defined.

(** C5 at a cart of two lines that both fail the availability check. *)
Lemma checkout_validation_enumerates_witness :
  exists w',
    CheckoutService.processCheckout alice alice_holds_most
    = (Throw (CheckoutValidationFailed [InsufficientStockFor "FLASH-001" 2 3;
                                        InsufficientStockFor "FLASH-002" 2 4]), w')
    /\ orders w' = [] /\ stock w' "FLASH-001" = 5 /\ stock w' "FLASH-002" = 6.
Proof.
  destruct (checkout_validation_enumerates alice alice_holds_most) as [Hfail Hframe].
  destruct (Hfail eq_refl eq_refl
              (mkCart alice
                 [mkCartItem "p1" "FLASH-001" "Flash Deal Product" 9999%float 3 29997%float;
                  mkCartItem "p2" "FLASH-002" "Second Deal Product" 500%float 4 2000%float]
                 7 31997%float)
              (after (CartService.getUserCart alice) alice_holds_most))
    as (w' & Hrun).
  - vm_compute. reflexivity.
  - vm_compute. discriminate.
  - destruct (Hframe _ w' Hrun) as (_ & _ & Hprod & _ & Hord & _).
    exists w'. split; [|split; [|split]].
    + rewrite Hrun. vm_compute. reflexivity.
    + rewrite Hord. reflexivity.
    + unfold stock. rewrite Hprod. vm_compute. reflexivity.
    + unfold stock. rewrite Hprod. vm_compute. reflexivity.
Defined.

(** C6 (amended) at a release of 5 units against a hold of 2. *)
Lemma releaseReservation_spec_witness :
  quiet alice_holds_two
  /\ RedisService.releaseReservation alice "FLASH-001" 5 alice_holds_two
     = (Throw OverRelease, add_log (LogReleasing OverRelease) alice_holds_two).
Proof.
  split; [reflexivity|].
  pose proof (releaseReservation_spec alice "FLASH-001" 5 alice_holds_two eq_refl) as H.
  vm_compute in H. vm_compute. exact H.
Defined.

(** C6 as stated fails where there is no live hold: releasing 1 unit against
    a hold of 0 returns [false] and is no [OverRelease]. *)
Lemma release_without_hold_is_no_error :
  fst (RedisService.getReservedQuantity alice "FLASH-001" (shop 200)) = Ok 0
  /\ fst (RedisService.releaseReservation alice "FLASH-001" 1 (shop 200)) = Ok false
  /\ fst (RedisService.releaseReservation alice "FLASH-001" 1 (shop 200)) <> Throw OverRelease.
Proof. repeat apply conj; vm_compute; try reflexivity; discriminate. Qed.

(** C7 at a cancel, with the quantity omitted, of Alice's hold of 2. *)
Lemma cancelReservation_spec_witness :
  quiet alice_holds_two
  /\ exists w',
      RedisService.cancelReservation alice "FLASH-001" None alice_holds_two = (Ok 2, w')
      /\ fst (RedisService.getTotalReservedStock "FLASH-001" w') = Ok 0
      /\ fst (RedisService.getReservedQuantity alice "FLASH-001" w') = Ok 0.
Proof.
  split; [reflexivity|].
  pose proof (cancelReservation_spec alice "FLASH-001" None alice_holds_two eq_refl) as H.
  cbv zeta in H.
  replace (redis_get (redis alice_holds_two) (now alice_holds_two)
             (RedisService.getReservationKey alice "FLASH-001"))
    with (Some 2) in H by (vm_compute; reflexivity).
  destruct H as (w' & Hrun & Hagg & Hheld & _).
  exists w'. split; [exact Hrun|]. split.
  - rewrite Hagg. vm_compute. reflexivity.
  - rewrite Hheld. reflexivity.
Defined.

(** C8 as stated fails for the readers: with the backend rejecting the
    call, Alice's hold of 2 reads 0, the counter reads 0 and her reservations
    read as none, without an error; each reader has written its line, with
    the backend's error, on the console. *)
Lemma readers_swallow_backend_errors :
  fst (RedisService.getReservedQuantity alice "FLASH-001" alice_holds_two) = Ok 2
  /\ fst (RedisService.getReservedQuantity alice "FLASH-001" backend_down) = Ok 0
  /\ fst (RedisService.getTotalReservedStock "FLASH-001" backend_down) = Ok 0
  /\ fst (RedisService.getUserReservations alice backend_down) = Ok []
  /\ fst (RedisService.getReservedQuantity alice "FLASH-001" backend_down)
     <> Throw BackendError
  /\ log (after (RedisService.getReservedQuantity alice "FLASH-001") backend_down)
     = log backend_down ++ [LogReservedQuantity BackendError]
  /\ log (after (RedisService.getTotalReservedStock "FLASH-001") backend_down)
     = log backend_down ++ [LogTotalReserved BackendError]
  /\ log (after (RedisService.getUserReservations alice) backend_down)
     = log backend_down ++ [LogUserReservations BackendError].
Proof. repeat apply conj; vm_compute; try reflexivity; discriminate. Qed.

(** C9 at Alice's cancel of 2 of her 5 units, 0.3 seconds before expiry. *)
Lemma lapsed_remainder_gets_600_seconds_witness :
  exists w',
    RedisService.cancelReservation alice "FLASH-001" (Some 2) before_late_cancel = (Ok 2, w')
    /\ redis w' !! RedisService.getReservationKey alice "FLASH-001"
       = Some (Entry 3 (Some (599700 + 1000 * 600))).
Proof.
  destruct (lapsed_remainder_gets_600_seconds alice "FLASH-001" before_late_cancel 5)
    as (Hcancel & _ & _).
  - reflexivity.
  - reflexivity.
  - reflexivity.
  - vm_compute. reflexivity.
  - vm_compute. discriminate.
  - destruct (Hcancel 2) as (w' & Hrun & Hkey); [lia|].
    exists w'. split; [exact Hrun|exact Hkey].
Defined.


(** * Further properties of the services *)

(** ** Reserving, one request after the other *)

Lemma reserve_one_quiet_ok (u : string) (ttlSeconds : Z) (item : Item) (w w' : World) :
  quiet w ->
  CartService.reserve_one u ttlSeconds item w = (Ok tt, w') ->
  w' = after_exec (reserve_cmds u (item_sku item) (held w u (item_sku item))
                     (item_quantity item) ttlSeconds) w
  /\ 0 < item_quantity item
  /\ aggregate w (item_sku item) + item_quantity item <= stock w (item_sku item).
Proof.
  intros Hq. unfold CartService.reserve_one, CartService.check_item, CartService.reserve_item.
  destruct (_ || _ || _) eqn:Hbad; [discriminate|].
  apply orb_false_elim in Hbad as [_ Hpos]. apply Z.leb_gt in Hpos.
  intros Hrun. apply bind_inv_ok in Hrun as ([] & w1 & Hcheck & Hrun).
  apply bind_inv_ok in Hcheck as (ck & w2 & Hck & Hcheck).
  rewrite (checkStockAvailability_quiet _ _ w Hq) in Hck.
  destruct (active_product w (item_sku item)) as [p|] eqn:Hp; [|discriminate].
  injection Hck as <- <-.
  destruct (negb _) eqn:Hav; [discriminate|]. injection Hcheck as <-.
  rewrite (bind_ok _ _ _ _ _ (reserveStock_quiet u _ _ ttlSeconds w Hq)) in Hrun.
  injection Hrun as <-. split; [reflexivity|]. split; [exact Hpos|].
  apply negb_false_iff in Hav. simpl in Hav. apply Z.leb_le in Hav.
  apply active_product_stock in Hp as [_ ->]. lia.
Qed.

Lemma reserve_loop_within_stock (u : string) (ttlSeconds : Z) (items acc acc' : list Item)
  (w w' : World) :
  quiet w -> 0 < ttlSeconds ->
  CartService.reserve_loop u ttlSeconds items acc w = (Ok tt, acc', w') ->
  acc' = acc ++ items
  /\ products w' = products w
  /\ forall s, (aggregate w s <= stock w s \/ In s (map item_sku items)) ->
               aggregate w' s <= stock w' s.
Proof.
  intros Hq Httl. revert acc w Hq. induction items as [|item items IH]; intros acc w Hq; simpl.
  - intros [= <- <-]. rewrite app_nil_r. repeat split. intros s [H|[]]. exact H.
  - destruct (CartService.reserve_one u ttlSeconds item w) as [[[]|e] w1] eqn:Hone;
      [|discriminate].
    apply (reserve_one_quiet_ok _ _ _ _ _ Hq) in Hone as (-> & Hpos & Hroom).
    intros Hrest. apply IH in Hrest; [|apply after_exec_quiet; exact Hq].
    destruct Hrest as (-> & Hprod & Hinv). rewrite <- app_assoc.
    split; [reflexivity|]. split; [exact Hprod|].
    intros s Hs. apply Hinv. unfold stock at 1. simpl products. fold (stock w s).
    rewrite aggregate_after_reserve by exact Httl.
    destruct (String.eqb_spec (item_sku item) s) as [<-|Hne].
    + left. lia.
    + destruct Hs as [Hs|[Hs|Hs]]; [left; lia|contradiction|right; exact Hs].
Qed.

(** X1: with the backend answering and a positive time to live, a
    [reserveItems] that succeeds has reserved every item of the batch: each
    hold and each counter is higher by the units of its SKU in the batch; the
    ledger is untouched; and a counter that was within its total stock is
    still within it, as is the counter of every SKU of the batch. *)
Theorem reserveItems_within_stock (userId : string) (items reserved : list Item)
  (ttlSeconds : Z) (w w' : World) :
  quiet w -> 0 < ttlSeconds ->
  CartService.reserveItems userId items ttlSeconds w = (Ok reserved, w') ->
  reserved = items
  /\ products w' = products w
  /\ (forall s, fst (RedisService.getReservedQuantity userId s w')
                = Ok (held w userId s + units_of s items)
                /\ fst (RedisService.getTotalReservedStock s w')
                   = Ok (aggregate w s + units_of s items))
  /\ (forall s, (aggregate w s <= stock w s \/ In s (map item_sku items)) ->
                aggregate w' s <= stock w' s).
Proof.
  intros Hq Httl. unfold CartService.reserveItems. intros Hrun.
  apply bind_inv_ok in Hrun as (b & w1 & Huser & Hrun).
  rewrite (userExists_quiet userId w Hq) in Huser. injection Huser as <- <-.
  destruct (_ && _); simpl in Hrun; [|discriminate].
  destruct (CartService.reserve_loop userId ttlSeconds items [] w) as [[r acc] w2] eqn:Hloop.
  destruct r as [[]|e].
  2:{ destruct (rollback_never_throws userId acc w2) as [w3 Hroll].
      rewrite (bind_ok _ _ _ _ _ Hroll) in Hrun. discriminate. }
  injection Hrun as <- <-.
  destruct (reserve_loop_quiet _ _ _ _ _ _ _ _ Hq Httl Hloop) as (Hq2 & done & Hdone & _ & Hsum).
  apply (reserve_loop_within_stock _ _ _ _ _ _ _ Hq Httl) in Hloop as (Hacc & Hprod & Hinv).
  simpl in Hacc, Hdone. subst acc. subst done.
  split; [reflexivity|]. split; [exact Hprod|]. split; [|exact Hinv].
  intros s. rewrite (getReservedQuantity_quiet _ _ _ Hq2), (getTotalReservedStock_quiet _ _ Hq2).
  simpl. destruct (Hsum s) as [-> ->]. auto.
Qed.

(** ** Holds and counters over time *)

Lemma quiet_elapse (d : Z) (w : World) : quiet w -> quiet (elapse d w).
Proof. unfold quiet. auto. Qed.

Lemma reserve_entries (u s : string) (h quantity ttlSeconds : Z) (w : World) :
  0 < ttlSeconds ->
  let w' := after_exec (reserve_cmds u s h quantity ttlSeconds) w in
  redis w' !! RedisService.getReservationKey u s
  = Some (Entry (h + quantity) (Some (now w + 1000 * ttlSeconds)))
  /\ redis w' !! RedisService.getReservedStockKey s
     = Some (Entry (aggregate w s + quantity) (Some (now w + 1000 * ttlSeconds))).
Proof.
  intros Httl w'. subst w'. rewrite redis_after_exec.
  unfold reserve_cmds, redis_exec. cbn [fold_left].
  apply Z.ltb_lt in Httl as Httl'. split.
  - rewrite !apply_cmd_other
      by (simpl; intros Heq; symmetry in Heq; exact (reservation_key_not_stock_key _ _ _ Heq)).
    simpl. rewrite Httl'. apply lookup_insert_eq.
  - set (db1 := apply_cmd (now w) (redis w) _).
    assert (Hincr : redis_get (apply_cmd (now w) db1 (INCRBY (RedisService.getReservedStockKey s)
                                                         quantity))
                      (now w) (RedisService.getReservedStockKey s)
                    = Some (aggregate w s + quantity)).
    { simpl. rewrite incr_by_get. f_equal. f_equal. unfold aggregate. f_equal.
      apply redis_get_ext. subst db1. apply apply_cmd_other. simpl.
      apply reservation_key_not_stock_key. }
    set (db2 := apply_cmd (now w) db1 _) in *.
    unfold redis_get in Hincr.
    destruct (lookup_live db2 (now w) (RedisService.getReservedStockKey s)) as [e|] eqn:He;
      [|discriminate].
    injection Hincr as Hval. simpl. rewrite He, Httl', lookup_insert_eq, Hval. reflexivity.
Qed.

Lemma read_entry (db : gmap string entry) (t : Z) (k : string) (v x : Z) :
  db !! k = Some (Entry v (Some x)) ->
  default 0 (redis_get db t k) = if t <? x then v else 0.
Proof.
  intros Hk. unfold redis_get, lookup_live. rewrite Hk. unfold live. simpl.
  destruct (t <? x); reflexivity.
Qed.

(** X2: with the backend answering and a positive time to live,
    [reserveStock] gives the user's hold and the SKU's counter the same
    fresh life of [ttlSeconds], counted from the reservation: until then the
    hold reads what was held plus the quantity and the counter what was
    counted plus the quantity; from then on both read 0, whatever the
    counter had counted for other users. *)
Theorem reservation_lives_for_ttl (userId sku : string) (quantity ttlSeconds d : Z)
  (w : World) :
  quiet w -> 0 < ttlSeconds -> 0 <= d ->
  let w' := elapse d (after (RedisService.reserveStock userId sku quantity ttlSeconds) w) in
  fst (RedisService.getReservedQuantity userId sku w')
  = Ok (if d <? 1000 * ttlSeconds then held w userId sku + quantity else 0)
  /\ fst (RedisService.getTotalReservedStock sku w')
     = Ok (if d <? 1000 * ttlSeconds then aggregate w sku + quantity else 0).
Proof.
  intros Hq Httl Hd w'. subst w'. unfold after.
  rewrite (reserveStock_quiet userId sku quantity ttlSeconds w Hq). simpl snd.
  set (w1 := after_exec _ w).
  assert (Hq1 : quiet (elapse d w1)) by (apply quiet_elapse, after_exec_quiet; exact Hq).
  rewrite (getReservedQuantity_quiet _ _ _ Hq1), (getTotalReservedStock_quiet _ _ Hq1).
  destruct (reserve_entries userId sku (held w userId sku) quantity ttlSeconds w Httl)
    as [Hkey Hctr]. fold w1 in Hkey, Hctr.
  assert (Hcmp : (now w + d <? now w + 1000 * ttlSeconds) = (d <? 1000 * ttlSeconds)).
  { destruct (d <? 1000 * ttlSeconds) eqn:E; [apply Z.ltb_lt in E; apply Z.ltb_lt; lia|].
    apply Z.ltb_ge in E. apply Z.ltb_ge. lia. }
  simpl. unfold held at 1, aggregate at 1. simpl redis. simpl now.
  rewrite (read_entry _ _ _ _ _ Hkey), (read_entry _ _ _ _ _ Hctr).
  change (now w1) with (now w). rewrite Hcmp. auto.
Qed.

(** X3: with the backend answering, once a hold has been cancelled in full
    (quantity left out), any further cancel of it returns 0 and leaves the
    world as it is. *)
Theorem cancel_again_is_noop (userId sku : string) (quantity : option Z) (w : World) :
  quiet w ->
  let w1 := after (RedisService.cancelReservation userId sku None) w in
  RedisService.cancelReservation userId sku quantity w1 = (Ok 0, w1).
Proof.
  intros Hq w1. subst w1. unfold after.
  pose proof (cancelReservation_quiet userId sku None w Hq) as Hfirst. simpl in Hfirst.
  destruct (redis_get (redis w) (now w) (RedisService.getReservationKey userId sku))
    as [h|] eqn:Hget; rewrite Hfirst; simpl snd.
  - set (w1 := after_exec _ w).
    assert (Hq1 : quiet w1) by (apply after_exec_quiet; exact Hq).
    pose proof (cancelReservation_quiet userId sku quantity w1 Hq1) as Hsecond.
    cbv zeta in Hsecond.
    assert (Hgone : redis_get (redis w1) (now w1) (RedisService.getReservationKey userId sku)
                    = None).
    { unfold redis_get, lookup_live. subst w1. rewrite key_after_settle.
      rewrite Z.sub_diag. reflexivity. }
    rewrite Hgone in Hsecond. exact Hsecond.
  - pose proof (cancelReservation_quiet userId sku quantity w Hq) as Hsecond.
    simpl in Hsecond. rewrite Hget in Hsecond. exact Hsecond.
Qed.

(** X4: with the backend answering, releasing a quantity that a live hold
    covers does what cancelling that quantity does: the same transaction
    reaches Redis and the same world results; cancel returns the quantity and
    release [true]. *)
Theorem release_is_cancel_when_covered (userId sku : string) (quantity h : Z) (w : World) :
  quiet w ->
  redis_get (redis w) (now w) (RedisService.getReservationKey userId sku) = Some h ->
  quantity <= h ->
  exists w',
    RedisService.releaseReservation userId sku quantity w = (Ok true, w')
    /\ RedisService.cancelReservation userId sku (Some quantity) w = (Ok quantity, w').
Proof.
  intros Hq Hget Hle.
  pose proof (releaseReservation_quiet userId sku quantity w Hq) as Hrel.
  pose proof (cancelReservation_quiet userId sku (Some quantity) w Hq) as Hcan.
  simpl in Hrel, Hcan. rewrite Hget in Hrel, Hcan.
  assert (Hlt : (h <? quantity) = false) by (apply Z.ltb_ge; lia). rewrite Hlt in Hrel.
  rewrite (Z.min_l quantity h Hle) in Hcan.
  eexists. split; [exact Hrel|exact Hcan].
Qed.

(** X5: with the backend answering, a cancel that finds a live hold but no
    live counter (the counter expired first) starts the counter again from 0:
    it is stored as minus the cancelled amount, with no expiry, so the SKU's
    reserved stock reads that negative number at every later time. *)
Theorem cancel_after_counter_expiry (userId sku : string) (quantity : option Z) (h d : Z)
  (w : World) :
  quiet w ->
  redis_get (redis w) (now w) (RedisService.getReservationKey userId sku) = Some h ->
  redis_get (redis w) (now w) (RedisService.getReservedStockKey sku) = None ->
  0 <= d ->
  let w' := after (RedisService.cancelReservation userId sku quantity) w in
  fst (RedisService.cancelReservation userId sku quantity w) = Ok (cancelled quantity h)
  /\ redis w' !! RedisService.getReservedStockKey sku
     = Some (Entry (- cancelled quantity h) None)
  /\ fst (RedisService.getTotalReservedStock sku (elapse d w'))
     = Ok (- cancelled quantity h).
Proof.
  intros Hq Hget Hctr Hd w'. subst w'. unfold after.
  pose proof (cancelReservation_quiet userId sku quantity w Hq) as Hrun. simpl in Hrun.
  rewrite Hget in Hrun. fold (cancelled quantity h) in Hrun. rewrite Hrun. simpl fst. simpl snd.
  split; [reflexivity|].
  set (w1 := after_exec _ w).
  assert (Hentry : redis w1 !! RedisService.getReservedStockKey sku
                   = Some (Entry (- cancelled quantity h) None)).
  { subst w1. rewrite redis_after_exec. unfold redis_exec. cbn [fold_left].
    simpl apply_cmd at 1. unfold incr_by.
    assert (Hdead : lookup_live (apply_cmd (now w) (redis w)
                                   (stored_remainder (redis w) (now w)
                                      (RedisService.getReservationKey userId sku)
                                      (h - cancelled quantity h)))
                      (now w) (RedisService.getReservedStockKey sku) = None).
    { unfold lookup_live. rewrite apply_cmd_other
        by (rewrite stored_remainder_key; apply reservation_key_not_stock_key).
      unfold redis_get, lookup_live in Hctr.
      destruct (redis w !! RedisService.getReservedStockKey sku) as [e|]; [|reflexivity].
      destruct (live (now w) e); [discriminate|reflexivity]. }
    rewrite Hdead. apply lookup_insert_eq. }
  split; [exact Hentry|].
  assert (Hq1 : quiet (elapse d w1)) by (apply quiet_elapse, after_exec_quiet; exact Hq).
  rewrite (getTotalReservedStock_quiet _ _ Hq1). simpl. f_equal.
  unfold aggregate, redis_get, lookup_live.
  change (redis (elapse d w1)) with (redis w1). rewrite Hentry. reflexivity.
Qed.

(** ** Keys, their SKU field, and the listing of a user's holds *)

Lemma string_app_assoc (a b c : string) : (a +:+ b) +:+ c = a +:+ (b +:+ c).
Proof.
  induction a as [|x a IH]; [reflexivity|].
  change (String x ((a +:+ b) +:+ c) = String x (a +:+ (b +:+ c))). rewrite IH. reflexivity.
Qed.

Lemma key_as_prefix (u s : string) :
  RedisService.getReservationKey u s = key_prefix u +:+ s.
Proof.
  unfold RedisService.getReservationKey, key_prefix.
  rewrite !string_app_assoc. reflexivity.
Qed.

Lemma split_on_head (sep : ascii) (s : string) :
  exists seg segs, split_on sep s = seg :: segs.
Proof.
  induction s as [|c s IH]; simpl; [eexists; eexists; reflexivity|].
  destruct (Ascii.eqb c sep); [eexists; eexists; reflexivity|].
  destruct IH as (seg & segs & ->). eexists; eexists; reflexivity.
Qed.

Lemma split_colon_free (s : string) : colon_free s = true -> split_on ":" s = [s].
Proof.
  induction s as [|c s IH]; simpl; [reflexivity|].
  destruct (Ascii.eqb c ":"); simpl; [discriminate|]. intros H. rewrite (IH H). reflexivity.
Qed.

Lemma split_after_field (p r : string) :
  colon_free p = true -> split_on ":" (p +:+ String ":" r) = p :: split_on ":" r.
Proof.
  induction p as [|c p IH]; [reflexivity|].
  change (String c p +:+ String ":" r) with (String c (p +:+ String ":" r)). simpl.
  destruct (Ascii.eqb c ":"); simpl; [discriminate|]. intros H. rewrite (IH H). reflexivity.
Qed.

Lemma first_field_colon_free (s : string) :
  colon_free (hd EmptyString (split_on ":" s)) = true.
Proof.
  induction s as [|c s IH]; simpl; [reflexivity|].
  destruct (Ascii.eqb c ":") eqn:Hc; simpl; [reflexivity|].
  destruct (split_on_head ":" s) as (seg & segs & Hs). rewrite Hs in IH |- *. simpl in *.
  rewrite Hc, IH. reflexivity.
Qed.

Lemma sku_of_key_first_field (u s : string) :
  colon_free u = true ->
  RedisService.sku_of_key (RedisService.getReservationKey u s)
  = hd EmptyString (split_on ":" s).
Proof.
  intros Hu. unfold RedisService.sku_of_key, RedisService.getReservationKey.
  change ("reservation:" +:+ u +:+ ":" +:+ s)
    with ("reservation" +:+ String ":" (u +:+ String ":" s)).
  rewrite (split_after_field "reservation" _ eq_refl), (split_after_field u s Hu).
  destruct (split_on_head ":" s) as (seg & segs & ->). reflexivity.
Qed.

(** X6: for a user id without [:], the SKU that [getUserReservations] reads
    back from the key of [getReservationKey] is the part of the SKU before its
    first [:]; so the key gives the SKU back exactly when the SKU has no [:]. *)
Theorem sku_of_key_round_trip (userId sku : string) :
  colon_free userId = true ->
  RedisService.sku_of_key (RedisService.getReservationKey userId sku)
  = hd EmptyString (split_on ":" sku)
  /\ (RedisService.sku_of_key (RedisService.getReservationKey userId sku) = sku
      <-> colon_free sku = true).
Proof.
  intros Hu. pose proof (sku_of_key_first_field userId sku Hu) as Hfirst.
  split; [exact Hfirst|]. rewrite Hfirst. split.
  - intros Heq. rewrite <- Heq. apply first_field_colon_free.
  - intros Hs. rewrite (split_colon_free sku Hs). reflexivity.
Qed.

(** A string without pattern characters stands, in a pattern, for its own
    characters. *)
Lemma parse_plain_app (p q : string) :
  plain p = true -> parse (p +:+ q) = map Lit (list_ascii_of_string p) ++ parse q.
Proof.
  induction p as [|c p IH]; [reflexivity|].
  change (String c p +:+ q) with (String c (p +:+ q)).
  intros Hp. simpl in Hp. apply andb_true_iff in Hp as [Hc Hp].
  unfold plain_char in Hc. repeat (apply andb_true_iff in Hc as [Hc ?]).
  repeat match goal with H : negb _ = true |- _ => apply negb_true_iff in H end.
  change (parse (String c (p +:+ q)))
    with (if Ascii.eqb c "*" then Star :: parse (p +:+ q)
          else if Ascii.eqb c "?" then AnyChar :: parse (p +:+ q)
          else if Ascii.eqb c "[" then
            match p +:+ q with
            | String d p2 =>
                if Ascii.eqb d "^" then parse_class true [] p2
                else parse_class false [] (p +:+ q)
            | EmptyString => parse_class false [] (p +:+ q)
            end
          else if Ascii.eqb c "\" then
            match p +:+ q with
            | String d p2 => Lit d :: parse p2
            | EmptyString => [Lit c]
            end
          else Lit c :: parse (p +:+ q)).
  repeat match goal with H : Ascii.eqb c _ = false |- _ => rewrite H; clear H end.
  rewrite (IH Hp). reflexivity.
Qed.

Lemma match_star_all (s : string) : match_tokens [Star] s = true.
Proof. induction s as [|c s IH]; [reflexivity|]. simpl in *. rewrite IH. reflexivity. Qed.

Lemma match_lits (p : string) (ts : list token) (k : string) :
  match_tokens (map Lit (list_ascii_of_string p) ++ ts) k = true
  <-> exists s, k = p +:+ s /\ match_tokens ts s = true.
Proof.
  revert k. induction p as [|c p IH]; intros k.
  - simpl. split; [intros H; exists k; auto|intros (s & -> & H); exact H].
  - simpl. destruct k as [|d k].
    + split; [discriminate|]. intros (s & Habs & _).
      change (String c p +:+ s) with (String c (p +:+ s)) in Habs. discriminate Habs.
    + rewrite andb_true_iff, IH, Ascii.eqb_eq. split.
      * intros (-> & s & -> & H). exists s. auto.
      * intros (s & Heq & H).
        change (String c p +:+ s) with (String c (p +:+ s)) in Heq.
        injection Heq as -> ->. split; [reflexivity|]. exists s. auto.
Qed.

(** A pattern made of a string without pattern characters followed by [*]
    matches the strings that start with it, and only those. *)
Lemma glob_prefix (p k : string) :
  plain p = true -> glob (p +:+ "*") k = true <-> exists s, k = p +:+ s.
Proof.
  intros Hp. unfold glob. rewrite (parse_plain_app p "*" Hp).
  change (parse "*") with [Star]. rewrite match_lits. split.
  - intros (s & -> & _). exists s. reflexivity.
  - intros (s & ->). exists s. split; [reflexivity|apply match_star_all].
Qed.

Lemma plain_app (a b : string) : plain a = true -> plain b = true -> plain (a +:+ b) = true.
Proof.
  induction a as [|c a IH]; [auto|].
  change (String c a +:+ b) with (String c (a +:+ b)). simpl.
  intros Ha Hb. apply andb_true_iff in Ha as [Hc Ha]. rewrite Hc. simpl. auto.
Qed.

Lemma plain_key_prefix (u : string) : plain u = true -> plain (key_prefix u) = true.
Proof.
  intros Hu. unfold key_prefix. apply plain_app; [reflexivity|].
  apply plain_app; [exact Hu|reflexivity].
Qed.

Lemma elem_of_redis_keys (db : gmap string entry) (t : Z) (p k : string) :
  k ∈ redis_keys db t p <-> glob p k = true /\ is_Some (lookup_live db t k).
Proof.
  unfold redis_keys. rewrite list_elem_of_In, filter_In, <- list_elem_of_In. split.
  - intros [_ H]. apply andb_true_iff in H as [Hg Hl].
    apply bool_decide_eq_true in Hl. auto.
  - intros [Hg Hl]. split.
    + destruct Hl as [e He]. apply lookup_live_Some in He as [He _].
      apply list_elem_of_fmap. exists (k, e). split; [reflexivity|].
      apply elem_of_map_to_list. exact He.
    + rewrite Hg. simpl. apply bool_decide_eq_true. exact Hl.
Qed.

(** The reservations listed for a user id without pattern characters are
    the user's live holds, each with the SKU read back from its key. *)
Lemma elem_of_user_reservations (u : string) (w : World) (r : Item) :
  plain u = true ->
  r ∈ user_reservations w u
  <-> exists sku,
        redis_get (redis w) (now w) (RedisService.getReservationKey u sku)
        = Some (item_quantity r)
        /\ item_sku r = RedisService.sku_of_key (RedisService.getReservationKey u sku).
Proof.
  intros Hu. unfold user_reservations. rewrite list_elem_of_omap.
  rewrite (key_as_prefix u "*"). split.
  - intros (k & Hk & Hr). apply elem_of_redis_keys in Hk as [Hg _].
    apply (glob_prefix _ _ (plain_key_prefix u Hu)) in Hg as [s ->].
    exists s. rewrite key_as_prefix. unfold reservation_of_key in Hr.
    destruct (redis_get (redis w) (now w) (key_prefix u +:+ s)) as [q|]; [|discriminate].
    injection Hr as <-. simpl. auto.
  - intros (s & Hget & Hsku). exists (RedisService.getReservationKey u s). split.
    + apply elem_of_redis_keys. split.
      * rewrite key_as_prefix. apply (glob_prefix _ _ (plain_key_prefix u Hu)).
        exists s. reflexivity.
      * unfold redis_get in Hget.
        destruct (lookup_live (redis w) (now w) (RedisService.getReservationKey u s))
          as [e|]; [eexists; reflexivity|discriminate].
    + unfold reservation_of_key. rewrite Hget. simpl. rewrite <- Hsku.
      destruct r; reflexivity.
Qed.

(** X7: with the backend answering and a user id without pattern
    characters ([*], [?], [[] and the backslash), [getUserReservations]
    lists every live hold of the user, with the hold's quantity and, as SKU,
    the third [:]-separated field of its key; and it lists nothing else:
    every entry is a live hold of that user. *)
Theorem listing_is_live_holds (userId : string) (w : World) (listing : list Item) :
  quiet w ->
  plain userId = true ->
  fst (RedisService.getUserReservations userId w) = Ok listing ->
  (forall sku q,
      redis_get (redis w) (now w) (RedisService.getReservationKey userId sku) = Some q ->
      mkItem (RedisService.sku_of_key (RedisService.getReservationKey userId sku)) q
      ∈ listing)
  /\ (forall r, r ∈ listing ->
        exists sku,
          redis_get (redis w) (now w) (RedisService.getReservationKey userId sku)
          = Some (item_quantity r)
          /\ item_sku r
             = RedisService.sku_of_key (RedisService.getReservationKey userId sku)).
Proof.
  intros Hq Hu Hres. rewrite (getUserReservations_quiet userId w Hq) in Hres.
  injection Hres as <-. split.
  - intros s q Hget. apply (elem_of_user_reservations userId w _ Hu).
    exists s. simpl. auto.
  - intros r Hr. apply (elem_of_user_reservations userId w r Hu). exact Hr.
Qed.

(** ** Availability and the ledger *)

(** X8: when the ledger answers but Redis rejects the read of the counter,
    [checkStockAvailability] goes on with a reserved stock of 0: it reports
    the whole total stock as available and admits every quantity up to it,
    logging the error instead of passing it on. *)
Theorem availability_fails_open (sku : string) (quantity : Z) (p : Product) (w : World) :
  fails (next_event w) = false ->
  fails (next_event (served w)) = true ->
  active_product w sku = Some p ->
  ProductService.checkStockAvailability sku quantity w
  = (Ok (mkStockCheck (quantity <=? p_totalStock p) (Z.max 0 (p_totalStock p))
                      (p_totalStock p) 0),
     add_log (LogTotalReserved BackendError) (served (served w))).
Proof.
  intros Hf1 Hf2 Hp. unfold ProductService.checkStockAvailability.
  erewrite bind_ok.
  2:{ unfold ProductService.getProductBySku.
      rewrite (bind_ok _ _ _ _ _ (await_served w Hf1)).
      unfold active_product in Hp. change (products (served w)) with (products w).
      destruct (products w !! sku) as [p0|]; [|discriminate].
      destruct (p_isActive p0); [|discriminate]. injection Hp as ->. reflexivity. }
  erewrite bind_ok.
  2:{ unfold RedisService.getTotalReservedStock. erewrite try_throw.
      2:{ erewrite bind_throw; [reflexivity|]. unfold client.get.
          erewrite bind_throw; [reflexivity|]. apply await_rejected. exact Hf2. }
      reflexivity. }
  unfold ret. rewrite Z.sub_0_r. reflexivity.
Qed.

(** X9: with the backend answering, [getProductStatus] fails with 'Product
    not found' for a missing or inactive product; otherwise its
    [availableStock] is the total minus the counter, never below 0, and for a
    positive quantity the availability check admits the quantity exactly
    when it is at most that [availableStock]. *)
Theorem getProductStatus_spec (sku : string) (w : World) :
  quiet w ->
  match active_product w sku with
  | None => ProductService.getProductStatus sku w = (Throw ProductNotFound, w)
  | Some p =>
      exists st,
        ProductService.getProductStatus sku w = (Ok st, w)
        /\ ps_totalStock st = p_totalStock p
        /\ ps_reservedStock st = aggregate w sku
        /\ ps_availableStock st = Z.max 0 (p_totalStock p - aggregate w sku)
        /\ 0 <= ps_availableStock st
        /\ forall quantity, 0 < quantity ->
             exists check,
               ProductService.checkStockAvailability sku quantity w = (Ok check, w)
               /\ availableStock check = ps_availableStock st
               /\ isAvailable check = (quantity <=? ps_availableStock st)
  end.
Proof.
  intros Hq. unfold ProductService.getProductStatus.
  destruct (active_product w sku) as [p|] eqn:Hp.
  - eexists. split.
    + erewrite bind_ok; [|rewrite (getProductBySku_quiet sku w Hq), Hp; reflexivity].
      rewrite (bind_ok _ _ _ _ _ (getTotalReservedStock_quiet sku w Hq)). reflexivity.
    + simpl. repeat split; [lia|].
      intros quantity Hpos. eexists. split.
      * rewrite (checkStockAvailability_quiet sku quantity w Hq), Hp. reflexivity.
      * simpl. split; [reflexivity|].
        destruct (quantity <=? p_totalStock p - aggregate w sku) eqn:E.
        -- apply Z.leb_le in E. symmetry. apply Z.leb_le. lia.
        -- apply Z.leb_gt in E. symmetry. apply Z.leb_gt. lia.
  - erewrite bind_throw; [reflexivity|].
    rewrite (getProductBySku_quiet sku w Hq), Hp. reflexivity.
Qed.

(** ** What the checkout keeps and what it leaves behind *)

Section Preserves.
Variable R : World -> World -> Prop.
Hypothesis R_refl : forall w, R w w.
Hypothesis R_trans : forall w1 w2 w3, R w1 w2 -> R w2 w3 -> R w1 w3.

Lemma pres_ret {A} (a : A) : preserves R (ret a).
Proof. intros w w' r [= _ <-]. apply R_refl. Qed.

Lemma pres_throw {A} (e : error) : preserves R (@throw A e).
Proof. intros w w' r [= _ <-]. apply R_refl. Qed.

Lemma pres_bind {A B} (m : M A) (k : A -> M B) :
  preserves R m -> (forall a, preserves R (k a)) -> preserves R (bind m k).
Proof.
  intros Hm Hk w w' r Hrun.
  apply bind_inv in Hrun as [(a & w1 & Hrun1 & Hrun2)|(e & Hrun1 & _)].
  - exact (R_trans _ _ _ (Hm _ _ _ Hrun1) (Hk a _ _ _ Hrun2)).
  - exact (Hm _ _ _ Hrun1).
Qed.

Lemma pres_try {A} (m : M A) (h : error -> M A) :
  preserves R m -> (forall e, preserves R (h e)) -> preserves R (try_catch m h).
Proof.
  intros Hm Hh w w' r. unfold try_catch. destruct (m w) as [[a|e] w1] eqn:Hrun.
  - intros [= <- <-]. exact (Hm _ _ _ Hrun).
  - intros Hrun2. exact (R_trans _ _ _ (Hm _ _ _ Hrun) (Hh e _ _ _ Hrun2)).
Qed.

Lemma pres_reads_only {A} (m : M A) :
  (forall w w', same_stores w w' -> R w w') -> reads_only m -> preserves R m.
Proof. intros HR Hm w w' r Hrun. apply HR. exact (Hm _ _ _ Hrun). Qed.
End Preserves.

Lemma carries_refl (w : World) : carries_stock_nonneg w w.
Proof. intros H. exact H. Qed.

Lemma carries_trans (w1 w2 w3 : World) :
  carries_stock_nonneg w1 w2 -> carries_stock_nonneg w2 w3 -> carries_stock_nonneg w1 w3.
Proof. unfold carries_stock_nonneg. auto. Qed.

Lemma carries_same_products (w w' : World) :
  products w' = products w -> carries_stock_nonneg w w'.
Proof. intros Hp Hinv s p. rewrite Hp. apply Hinv. Qed.

Lemma carries_same_stores (w w' : World) : same_stores w w' -> carries_stock_nonneg w w'.
Proof. intros (_ & Hp & _). apply carries_same_products. exact Hp. Qed.

Lemma exec_keeps_ledger (cmds : list cmd) : preserves same_ledger (client.exec cmds).
Proof.
  intros w w' r. unfold client.exec. intros Hrun.
  apply bind_inv in Hrun as [([] & w1 & Haw & Hrun)|(e & Haw & _)];
    pose proof (ro_await _ _ _ Haw) as (_ & Hp & Hu & Ho & _).
  - injection Hrun as _ <-. repeat split; assumption.
  - repeat split; assumption.
Qed.

Lemma same_ledger_refl (w : World) : same_ledger w w.
Proof. repeat split. Qed.

Lemma same_ledger_trans (w1 w2 w3 : World) :
  same_ledger w1 w2 -> same_ledger w2 w3 -> same_ledger w1 w3.
Proof. intros (H1 & H2 & H3) (K1 & K2 & K3). repeat split; congruence. Qed.

Lemma same_stores_ledger (w w' : World) : same_stores w w' -> same_ledger w w'.
Proof. intros (_ & Hp & Hu & Ho & _). repeat split; assumption. Qed.

Lemma releaseReservation_keeps_ledger (u s : string) (q : Z) :
  preserves same_ledger (RedisService.releaseReservation u s q).
Proof.
  apply (pres_try _ same_ledger_trans).
  - apply (pres_bind _ same_ledger_trans).
    + apply pres_reads_only; [apply same_stores_ledger|apply ro_get].
    + intros [h|]; [|apply (pres_ret _ same_ledger_refl)].
      destruct (h <? q); [apply (pres_throw _ same_ledger_refl)|].
      apply (pres_bind _ same_ledger_trans).
      * apply pres_reads_only; [apply same_stores_ledger|apply ro_keep_or_delete].
      * intros first. apply (pres_bind _ same_ledger_trans); [apply exec_keeps_ledger|].
        intros _. apply (pres_ret _ same_ledger_refl).
  - intros e. apply pres_reads_only; [apply same_stores_ledger|].
    apply ro_bind; [apply ro_console_error|]. intros _. apply ro_throw.
Qed.

Lemma release_all_keeps_ledger (u : string) (items : list CartItem) :
  preserves same_ledger (CheckoutService.release_all u items).
Proof.
  induction items as [|item items IH]; simpl; [apply (pres_ret _ same_ledger_refl)|].
  apply (pres_bind _ same_ledger_trans); [apply releaseReservation_keeps_ledger|].
  intros _. exact IH.
Qed.

(** [reduceStock] in every environment. *)
Lemma reduceStock_any (sku : string) (quantity : Z) (w w' : World) (r : result Product) :
  ProductService.reduceStock sku quantity w = (r, w') ->
  match r with
  | Ok p' =>
      exists p,
        products w !! sku = Some p /\ p_isActive p = true
        /\ quantity <= p_totalStock p
        /\ p_totalStock p' = p_totalStock p - quantity
        /\ 0 <= p_totalStock p'
        /\ products w' = <[sku := p']> (products w)
  | Throw e => products w' = products w
  end.
Proof.
  unfold ProductService.reduceStock. intros Hrun.
  apply bind_inv in Hrun as [(p & w1 & Hget & Hrun)|(e & Hget & ->)].
  2:{ apply (ro_getProductBySku sku _ _ _ Hget). }
  pose proof (ro_getProductBySku sku _ _ _ Hget) as (_ & Hprod1 & _).
  assert (Hp : products w !! sku = Some p /\ p_isActive p = true).
  { unfold ProductService.getProductBySku in Hget.
    apply bind_inv_ok in Hget as ([] & w0 & Haw & Hget).
    pose proof (ro_await _ _ _ Haw) as (_ & Hprod0 & _). rewrite Hprod0 in Hget.
    destruct (products w !! sku) as [p0|]; [|discriminate].
    destruct (p_isActive p0) eqn:Hact; [|discriminate]. injection Hget as -> _. auto. }
  destruct (p_totalStock p <? quantity) eqn:Hlt.
  { injection Hrun as <- <-. exact Hprod1. }
  apply Z.ltb_ge in Hlt.
  apply bind_inv in Hrun as [([] & w2 & Hsave & Hrun)|(e & Hsave & ->)].
  - injection Hrun as <- <-. unfold ProductService.save in Hsave.
    apply bind_inv_ok in Hsave as ([] & w3 & Haw & Hsave).
    pose proof (ro_await _ _ _ Haw) as (_ & Hprod3 & _).
    injection Hsave as <-. exists p. destruct Hp as [Hlook Hact].
    simpl. rewrite Hprod3, Hprod1. repeat split; auto; lia.
  - unfold ProductService.save in Hsave.
    apply bind_inv in Hsave as [([] & w3 & Haw & Hsave)|(e' & Haw & _)]; [discriminate|].
    pose proof (ro_await _ _ _ Haw) as (_ & Hprod3 & _). congruence.
Qed.

(** X10: in every environment, a [reduceStock] that succeeds found an
    active product with at least the quantity in stock and saved it with
    exactly the quantity taken off, which leaves a total stock of at least
    0; a [reduceStock] that fails has not changed the ledger. *)
Theorem reduceStock_spec (sku : string) (quantity : Z) (w w' : World) (r : result Product) :
  ProductService.reduceStock sku quantity w = (r, w') ->
  match r with
  | Ok p' =>
      exists p,
        products w !! sku = Some p /\ p_isActive p = true
        /\ quantity <= p_totalStock p
        /\ p_totalStock p' = p_totalStock p - quantity
        /\ 0 <= p_totalStock p'
        /\ products w' = <[sku := p']> (products w)
  | Throw e => products w' = products w
  end.
Proof. exact (reduceStock_any sku quantity w w' r). Qed.

Lemma reduceStock_carries (s : string) (q : Z) :
  preserves carries_stock_nonneg (ProductService.reduceStock s q).
Proof.
  intros w w' r Hrun. apply reduceStock_any in Hrun. destruct r as [p'|e].
  - destruct Hrun as (p & _ & _ & _ & _ & Hnn & Hprod). intros Hinv s' p0.
    rewrite Hprod. destruct (decide (s = s')) as [<-|Hne].
    + rewrite lookup_insert_eq. intros [= <-]. exact Hnn.
    + rewrite lookup_insert_ne by exact Hne. apply Hinv.
  - apply carries_same_products. exact Hrun.
Qed.

Lemma reduce_all_carries (items : list CartItem) :
  preserves carries_stock_nonneg (CheckoutService.reduce_all items).
Proof.
  induction items as [|item items IH]; simpl; [apply (pres_ret _ carries_refl)|].
  apply (pres_bind _ carries_trans); [apply reduceStock_carries|]. intros _. exact IH.
Qed.

Lemma save_order_any (u : string) (orderItems : list OrderItem) (total : Number) (w w' : World)
  (r : result Order) :
  CheckoutService.save_order u orderItems total w = (r, w') ->
  redis w' = redis w /\ products w' = products w
  /\ match r with
     | Ok order =>
         orders w' = orders w ++ [order] /\ o_status order = "completed"
         /\ o_userId order = u /\ o_items order = orderItems /\ o_totalAmount order = total
     | Throw e => orders w' = orders w /\ e = BackendError
     end.
Proof.
  unfold CheckoutService.save_order. intros Hrun.
  apply bind_inv in Hrun as [([] & w1 & Haw & Hrun)|(e & Haw & ->)].
  - pose proof (ro_await _ _ _ Haw) as (Hr & Hp & _ & Ho & _).
    injection Hrun as <- <-. simpl. rewrite Ho. repeat split; assumption.
  - pose proof (ro_await _ _ _ Haw) as (Hr & Hp & _ & Ho & _).
    repeat split; try assumption.
    unfold await in Haw. destruct (fails _); congruence.
Qed.

Lemma settle_carries (u : string) (cart : Cart) : preserves carries_stock_nonneg (settle u cart).
Proof.
  unfold settle. apply (pres_bind _ carries_trans).
  - intros w w' r Hrun. apply save_order_any in Hrun as (_ & Hp & _).
    apply carries_same_products. exact Hp.
  - intros order. apply (pres_bind _ carries_trans); [apply reduce_all_carries|].
    intros _. apply (pres_bind _ carries_trans); [|intros _; apply (pres_ret _ carries_refl)].
    intros w w' r Hrun. apply release_all_keeps_ledger in Hrun as (Hp & _).
    apply carries_same_products. exact Hp.
Qed.

(** X11: in every environment and however it ends, [processCheckout] keeps
    the ledger's invariant: when every product had a total stock of at least
    0 before, every product has one of at least 0 after. *)
Theorem checkout_keeps_stock_nonneg (userId : string) (w w' : World) (r : result Receipt) :
  stock_nonneg w ->
  CheckoutService.processCheckout userId w = (r, w') ->
  stock_nonneg w'.
Proof.
  intros Hinv Hrun. revert Hinv.
  change (carries_stock_nonneg w w'). revert w w' r Hrun.
  change (preserves carries_stock_nonneg (CheckoutService.processCheckout userId)).
  unfold CheckoutService.processCheckout.
  apply (pres_bind _ carries_trans).
  { apply pres_reads_only; [apply carries_same_stores|apply ro_userExists]. }
  intros b. destruct (negb b); [apply (pres_throw _ carries_refl)|].
  apply (pres_bind _ carries_trans).
  { apply pres_reads_only; [apply carries_same_stores|apply ro_getUserCart]. }
  intros cart. destruct (_ =? _)%nat; [apply (pres_throw _ carries_refl)|].
  apply (pres_bind _ carries_trans).
  { apply pres_reads_only; [apply carries_same_stores|apply ro_validate]. }
  intros vs. destruct (_ <? _)%nat; [apply (pres_throw _ carries_refl)|].
  exact (settle_carries userId cart).
Qed.

(** ** A checkout that fails after the order was written *)

Lemma oth_await : throws other_error await.
Proof.
  intros w w' e. unfold await. destruct (fails _); [|discriminate].
  intros [= <- _]. left. reflexivity.
Qed.

Lemma oth_after_await {A} (f : M A) :
  (forall w, exists a, fst (f w) = Ok a) -> throws other_error (await ;;; f).
Proof.
  intros Hf. apply th_bind; [apply oth_await|]. intros _ w w' e Hrun.
  destruct (Hf w) as [a Ha]. rewrite Hrun in Ha. discriminate.
Qed.

Lemma oth_userExists (u : string) : throws other_error (UserService.userExists u).
Proof.
  unfold UserService.userExists. destruct (negb _); [apply th_ret|].
  apply oth_after_await. intros w. eexists. reflexivity.
Qed.

Lemma oth_getProductBySku (s : string) : throws other_error (ProductService.getProductBySku s).
Proof.
  apply th_bind; [apply oth_await|]. intros _ w w' e.
  destruct (products w !! s) as [p|]; [destruct (p_isActive p)|];
    intros [= <- _]; right; left; reflexivity.
Qed.

Lemma oth_validate (u : string) (items : list CartItem) (acc : list violation) :
  throws other_error (CheckoutService.validate u items acc).
Proof.
  revert acc. induction items as [|item items IH]; intros acc; simpl; [apply th_ret|].
  apply th_bind; [apply th_swallow|]. intros r.
  apply th_bind; [|intros c; apply IH].
  apply th_bind; [apply oth_getProductBySku|]. intros p.
  apply th_bind; [apply th_swallow|]. intros n. apply th_ret.
Qed.

Lemma oth_releaseReservation (u s : string) (q : Z) :
  throws other_error (RedisService.releaseReservation u s q).
Proof.
  apply th_rethrow. apply th_bind.
  - apply oth_after_await. intros w. eexists. reflexivity.
  - intros [h|]; [|apply th_ret].
    destruct (h <? q); [apply th_throw; right; right; reflexivity|].
    apply th_bind.
    + unfold RedisService.keep_or_delete. destruct (0 <? h - q); [|apply th_ret].
      apply th_bind.
      * apply oth_after_await. intros w. eexists. reflexivity.
      * intros t. destruct (0 <? t); apply th_ret.
    + intros first. apply th_bind; [|intros _; apply th_ret].
      apply oth_after_await. intros w. eexists. reflexivity.
Qed.

Lemma oth_release_all (u : string) (items : list CartItem) :
  throws other_error (CheckoutService.release_all u items).
Proof.
  induction items as [|item items IH]; simpl; [apply th_ret|].
  apply th_bind; [apply oth_releaseReservation|]. intros _. exact IH.
Qed.

Lemma same_redis_and_orders_refl (w : World) : same_redis_and_orders w w.
Proof. split; reflexivity. Qed.

Lemma same_redis_and_orders_trans (w1 w2 w3 : World) :
  same_redis_and_orders w1 w2 -> same_redis_and_orders w2 w3 -> same_redis_and_orders w1 w3.
Proof. intros [H1 H2] [K1 K2]. split; congruence. Qed.

Lemma same_stores_redis_and_orders (w w' : World) :
  same_stores w w' -> same_redis_and_orders w w'.
Proof. intros (Hr & _ & _ & Ho & _). split; assumption. Qed.

Lemma reduceStock_keeps_redis (s : string) (q : Z) :
  preserves same_redis_and_orders (ProductService.reduceStock s q).
Proof.
  apply (pres_bind _ same_redis_and_orders_trans).
  - apply pres_reads_only; [apply same_stores_redis_and_orders|apply ro_getProductBySku].
  - intros p. destruct (_ <? _); [apply (pres_throw _ same_redis_and_orders_refl)|].
    apply (pres_bind _ same_redis_and_orders_trans);
      [|intros _; apply (pres_ret _ same_redis_and_orders_refl)].
    apply (pres_bind _ same_redis_and_orders_trans).
    + apply pres_reads_only; [apply same_stores_redis_and_orders|apply ro_await].
    + intros _ w w' r [= _ <-]. split; reflexivity.
Qed.

Lemma reduce_all_keeps_redis (items : list CartItem) :
  preserves same_redis_and_orders (CheckoutService.reduce_all items).
Proof.
  induction items as [|item items IH]; simpl;
    [apply (pres_ret _ same_redis_and_orders_refl)|].
  apply (pres_bind _ same_redis_and_orders_trans); [apply reduceStock_keeps_redis|].
  intros _. exact IH.
Qed.

Lemma other_error_not_stock : ~ other_error InsufficientStock.
Proof. intros [H|[H|H]]; discriminate H. Qed.

(** X12: in every environment, a [processCheckout] that ends with the
    ledger's 'Insufficient stock' has already written its order: the order,
    with status 'completed', stays in the collection, and no hold was
    released (the Redis store is as it was). *)
Theorem failed_decrement_leaves_order (userId : string) (w w' : World) :
  CheckoutService.processCheckout userId w = (Throw InsufficientStock, w') ->
  exists order,
    orders w' = orders w ++ [order]
    /\ o_status order = "completed" /\ o_userId order = userId
    /\ redis w' = redis w.
Proof.
  unfold CheckoutService.processCheckout. intros Hrun.
  apply bind_inv in Hrun as [(b & w1 & Huser & Hrun)|(e & Huser & [= <-])].
  2:{ apply oth_userExists in Huser. destruct (other_error_not_stock Huser). }
  pose proof (ro_userExists userId _ _ _ Huser) as H1.
  destruct b; simpl in Hrun; [|discriminate].
  apply bind_inv in Hrun as [(cart & w2 & Hcart & Hrun)|(e & Hcart & [= <-])].
  2:{ apply th_getUserCart in Hcart. contradiction. }
  pose proof (same_stores_trans _ _ _ H1 (ro_getUserCart userId _ _ _ Hcart)) as H2.
  destruct (_ =? _)%nat; [discriminate|].
  apply bind_inv in Hrun as [(vs & w3 & Hval & Hrun)|(e & Hval & [= <-])].
  2:{ apply oth_validate in Hval. destruct (other_error_not_stock Hval). }
  pose proof (same_stores_trans _ _ _ H2 (ro_validate userId _ _ _ _ _ Hval))
    as (Hr3 & _ & _ & Ho3 & _).
  destruct (_ <? _)%nat; [discriminate|].
  apply bind_inv in Hrun as [(order & w4 & Hsave & Hrun)|(e & Hsave & [= <-])].
  2:{ apply save_order_any in Hsave as (_ & _ & _ & Habs). discriminate Habs. }
  apply save_order_any in Hsave as (Hr4 & _ & Ho4 & Hstatus & Huid & _).
  assert (Hdone : forall w5, same_redis_and_orders w4 w5 ->
            exists order0, orders w5 = orders w ++ [order0]
                           /\ o_status order0 = "completed" /\ o_userId order0 = userId
                           /\ redis w5 = redis w).
  { intros w5 [Hr5 Ho5]. exists order. rewrite Ho5, Ho4, Ho3, Hr5, Hr4, Hr3. auto. }
  apply bind_inv in Hrun as [([] & w5 & Hred & Hrun)|(e & Hred & _)].
  2:{ apply Hdone. exact (reduce_all_keeps_redis _ _ _ _ Hred). }
  apply bind_inv in Hrun as [([] & w6 & Hrel & Hrun)|(e & Hrel & [= <-])];
    [discriminate|].
  apply oth_release_all in Hrel. destruct (other_error_not_stock Hrel).
Qed.

(** X13: with the backend answering, a [processCheckout] that succeeds
    found, for every line of the cart, a hold of at least the line's
    quantity and a total stock of at least the SKU's counter plus the line's
    quantity: the units the user already holds are counted against the
    user once more. *)
Theorem checkout_needs_room (userId : string) (w w1 w' : World) (cart : Cart)
  (receipt : Receipt) :
  quiet w ->
  CartService.getUserCart userId w = (Ok cart, w1) ->
  CheckoutService.processCheckout userId w = (Ok receipt, w') ->
  forall item, item ∈ cart_items cart ->
    ci_quantity item <= held w userId (ci_sku item)
    /\ aggregate w (ci_sku item) + ci_quantity item <= stock w (ci_sku item).
Proof.
  intros Hq Hcart Hrun.
  assert (Huser : fst (UserService.userExists userId w) = Ok true).
  { unfold CheckoutService.processCheckout in Hrun.
    apply bind_inv_ok in Hrun as (b & w0 & Hu & Hrest). rewrite Hu. simpl.
    destruct b; [reflexivity|discriminate]. }
  rewrite (processCheckout_quiet userId w Hq Huser) in Hrun.
  rewrite (getUserCart_quiet userId w Hq) in Hcart. injection Hcart as <- <-.
  simpl cart_items.
  set (items := omap (cart_item w) (user_reservations w userId)) in *.
  assert (Hvs : flat_map (violations_of w userId) items = []).
  { destruct items; [discriminate|].
    destruct (flat_map _ _); [reflexivity|discriminate]. }
  intros item Hin.
  assert (Hnone : violations_of w userId item = []).
  { apply list_elem_of_In in Hin. clear -Hvs Hin.
    induction items as [|x xs IH]; [destruct Hin|]. simpl in Hvs.
    apply app_eq_nil in Hvs as [Hx Hxs]. destruct Hin as [<-|Hin]; auto. }
  subst items. apply cart_items_active in Hin as (p & Hp & _).
  unfold violations_of in Hnone. rewrite Hp in Hnone.
  apply app_eq_nil in Hnone as [Hheld Havail].
  apply active_product_stock in Hp as [_ Hstock]. rewrite Hstock. split.
  - destruct (held w userId (ci_sku item) <? ci_quantity item) eqn:E; [discriminate|].
    apply Z.ltb_ge in E. exact E.
  - simpl in Havail.
    destruct (ci_quantity item <=? p_totalStock p - aggregate w (ci_sku item)) eqn:E;
      [|discriminate]. apply Z.leb_le in E. lia.
Qed.

(** ** The cart, its controller, and cancellations through the cart *)

Lemma collect_cart_any (rs : list Item) (acc : list CartItem) (w w' : World)
  (r : result (list CartItem)) :
  CartService.collect_cart rs acc w = (r, w') ->
  Forall line_ok acc ->
  exists items, r = Ok items /\ Forall line_ok items.
Proof.
  revert acc w. induction rs as [|x rs IH]; intros acc w; simpl.
  - intros [= <- _] Hacc. exists acc. auto.
  - intros Hrun Hacc. unfold bind at 1 in Hrun. unfold try_catch in Hrun.
    destruct (bind (ProductService.getProductBySku (item_sku x)) _ w) as [[items|e] w1] eqn:Hone.
    + apply (IH _ _ Hrun).
      apply bind_inv_ok in Hone as (p & w2 & _ & Hret). injection Hret as <- _.
      apply Forall_app. split; [exact Hacc|]. constructor; [reflexivity|constructor].
    + simpl in Hrun. apply (IH _ _ Hrun). exact Hacc.
Qed.

(** X14: in every environment [getUserCart] returns a cart and never
    throws; the cart is the user's, every line's [totalPrice] is its price
    times its quantity as a double, [totalItems] is the sum of the lines'
    quantities and [totalAmount] adds the lines' price times quantity from
    the left, starting from 0, every product and every sum rounded to double
    precision; and nothing was written. *)
Theorem getUserCart_totals (userId : string) (w w' : World) (r : result Cart) :
  CartService.getUserCart userId w = (r, w') ->
  exists cart,
    r = Ok cart
    /\ cart_userId cart = userId
    /\ Forall line_ok (cart_items cart)
    /\ cart_totalItems cart = sumZ (map ci_quantity (cart_items cart))
    /\ cart_totalAmount cart
       = sum_left (map (fun item => Number.mul (ci_price item)
                                               (Number.of_Z (ci_quantity item)))
                       (cart_items cart))
    /\ same_stores w w'.
Proof.
  intros Hrun. pose proof (ro_getUserCart userId _ _ _ Hrun) as Hsame.
  unfold CartService.getUserCart in Hrun.
  apply bind_inv in Hrun as [(rs & w1 & Hres & Hrun)|(e & Hres & _)].
  2:{ apply (th_swallow (fun _ => False)) in Hres. contradiction. }
  apply bind_inv in Hrun as [(items & w2 & Hcol & Hrun)|(e & Hcol & _)].
  2:{ apply th_collect_cart in Hcol. contradiction. }
  injection Hrun as <- _.
  apply collect_cart_any in Hcol as (items' & [= <-] & Hok); [|constructor].
  eexists. split; [reflexivity|]. simpl. rewrite sum_fold, sum_left_fold.
  rewrite Z.add_0_l.
  split; [reflexivity|]. split; [exact Hok|]. split; [reflexivity|].
  split; [|exact Hsame].
  unfold sum_left. f_equal.
  clear -Hok. induction Hok as [|x xs Hx _ IH]; simpl; [reflexivity|].
  rewrite Hx, IH. reflexivity.
Qed.

Lemma getUserCart_totals_any (userId : string) (w w' : World) (r : result Cart) :
  CartService.getUserCart userId w = (r, w') ->
  exists cart, r = Ok cart /\ same_stores w w'.
Proof.
  intros Hrun. pose proof (ro_getUserCart userId _ _ _ Hrun) as Hsame.
  destruct r as [cart|e]; [exists cart; auto|].
  apply th_getUserCart in Hrun. contradiction.
Qed.

(** X15: in every environment the cart endpoint answers with status 200 and
    a cart, never with its 500 branch, and writes nothing; when Redis
    rejects the KEYS call, the cart it answers with is empty, with totals
    of 0. *)
Theorem cart_endpoint_always_200 (userId : string) (w : World) :
  exists cart w',
    CartController.getUserCart userId w = (Replied 200 cart, w')
    /\ same_stores w w'
    /\ (fails (next_event w) = true ->
        cart_items cart = [] /\ cart_totalItems cart = 0
        /\ cart_totalAmount cart = Number.zero).
Proof.
  unfold CartController.getUserCart.
  destruct (CartService.getUserCart userId w) as [r w'] eqn:Hrun.
  pose proof (getUserCart_totals_any userId w w' r Hrun) as (cart & -> & Hsame).
  exists cart, w'. split; [reflexivity|]. split; [exact Hsame|].
  intros Hf. unfold CartService.getUserCart in Hrun.
  erewrite bind_ok in Hrun.
  2:{ unfold RedisService.getUserReservations. erewrite try_throw.
      2:{ erewrite bind_throw; [reflexivity|]. unfold client.keys.
          erewrite bind_throw; [reflexivity|]. apply await_rejected. exact Hf. }
      reflexivity. }
  simpl in Hrun. injection Hrun as <- _. auto.
Qed.

Lemma cancel_loop_stops_at_missing_sku (u : string) (done rest : list CancelItem)
  (bad : CancelItem) (acc l : list Item) (w w1 : World) :
  cancel_sku bad = EmptyString ->
  CartService.cancel_loop u done acc w = (inr l, w1) ->
  CartService.cancel_loop u (done ++ bad :: rest) acc w = (inl SkuRequired, w1).
Proof.
  intros Hbad. revert acc w. induction done as [|item done IH]; intros acc w; simpl.
  - intros [= _ <-]. rewrite Hbad. reflexivity.
  - destruct (String.eqb (cancel_sku item) EmptyString); [discriminate|].
    destruct (RedisService.cancelReservation u (cancel_sku item) _ w) as [[c|e] w2];
      [|discriminate].
    apply IH.
Qed.

(** X16: in every environment, when the items of a cart cancellation that
    come before one without SKU are cancelled successfully, the call fails
    with 'SKU is required for cancellation' and the world is the one those
    earlier cancellations left: they are not undone, and no later item is
    looked at. *)
Theorem cart_cancel_keeps_earlier_items (userId : string) (done rest : list CancelItem)
  (bad : CancelItem) (l : list Item) (w w1 : World) :
  cancel_sku bad = EmptyString ->
  CartService.cancelReservation userId done w = (inr l, w1) ->
  CartService.cancelReservation userId (done ++ bad :: rest) w = (inl SkuRequired, w1).
Proof.
  intros Hbad. unfold CartService.cancelReservation.
  destruct (UserService.userExists userId w) as [[[|]|e] w0]; try discriminate.
  apply cancel_loop_stops_at_missing_sku. exact Hbad.
Qed.

(** X17: with the backend answering, a cart cancellation of one item on a
    live hold of [h] units cancels all of [h] when the quantity is left out
    or is 0, and [min quantity h] otherwise; the hold then reads [h] minus
    that amount, and the item is reported, with that amount, only when the
    amount is positive. *)
Theorem cart_cancel_one (userId sku : string) (quantity : option Z) (h : Z) (w : World) :
  quiet w ->
  fst (UserService.userExists userId w) = Ok true ->
  sku <> EmptyString ->
  redis_get (redis w) (now w) (RedisService.getReservationKey userId sku) = Some h ->
  let c := match quantity with
           | None | Some 0 => h
           | Some q => Z.min q h
           end in
  exists w',
    CartService.cancelReservation userId [mkCancelItem sku quantity] w
    = (inr (if 0 <? c then [mkItem sku c] else []), w')
    /\ fst (RedisService.getReservedQuantity userId sku w') = Ok (h - c)
    /\ fst (RedisService.getTotalReservedStock sku w') = Ok (aggregate w sku - c).
Proof.
  intros Hq Huser Hsku Hget c.
  assert (Hc : c = cancelled (CartService.or_null quantity) h).
  { subst c. destruct quantity as [[| |]|]; reflexivity. }
  pose proof (cancelReservation_quiet userId sku (CartService.or_null quantity) w Hq) as Hrun.
  simpl in Hrun. rewrite Hget in Hrun. fold (cancelled (CartService.or_null quantity) h) in Hrun.
  rewrite <- Hc in Hrun.
  eexists. split; [|split].
  - unfold CartService.cancelReservation.
    rewrite (userExists_quiet userId w Hq) in Huser |- *. simpl in Huser.
    injection Huser as ->. simpl.
    apply String.eqb_neq in Hsku. rewrite Hsku, Hrun.
    destruct (0 <? c); reflexivity.
  - assert (Hrem : 0 <= h - c) by (subst c; destruct quantity as [[| |]|]; lia).
    rewrite getReservedQuantity_quiet by (apply after_exec_quiet; exact Hq).
    simpl. f_equal. apply held_after_settle. exact Hrem.
  - rewrite getTotalReservedStock_quiet by (apply after_exec_quiet; exact Hq).
    simpl. f_equal. apply aggregate_after_settle.
Qed.

(** X18: for a user id that [ObjectId.isValid] rejects, reserving,
    cancelling through the cart and checking out all fail with 'User not
    found' before any backend call is made: the world, the schedule of its
    backend included, is untouched in every environment. *)
Theorem invalid_id_is_refused_without_backend (userId : string) (items : list Item)
  (cancelItems : list CancelItem) (ttlSeconds : Z) (w : World) :
  UserService.isValid userId = false ->
  CartService.reserveItems userId items ttlSeconds w = (Throw UserNotFound, w)
  /\ CartService.cancelReservation userId cancelItems w = (inl (Raised UserNotFound), w)
  /\ CheckoutService.processCheckout userId w = (Throw UserNotFound, w).
Proof.
  intros Hbad.
  assert (Huser : UserService.userExists userId w = (Ok false, w))
    by (unfold UserService.userExists; rewrite Hbad; reflexivity).
  split; [|split].
  - unfold CartService.reserveItems. rewrite (bind_ok _ _ _ _ _ Huser). reflexivity.
  - unfold CartService.cancelReservation. rewrite Huser. reflexivity.
  - unfold CheckoutService.processCheckout. rewrite (bind_ok _ _ _ _ _ Huser). reflexivity.
Qed.

(** ** Instances of the further properties *)

Lemma stock_nonneg_alice_holds_two : stock_nonneg alice_holds_two.
Proof.
  intros s p Hp.
  replace (products alice_holds_two)
    with ({[ "FLASH-001" := flash_deal 200 ]} : gmap string Product) in Hp
    by (vm_compute; reflexivity).
  apply lookup_singleton_Some in Hp as [_ <-]. simpl. lia.
Qed.

(** X1 at Alice's batch of 3 of 5 and 4 of 6 units. *)
Lemma reserveItems_within_stock_witness :
  aggregate alice_holds_most "FLASH-002" <= stock alice_holds_most "FLASH-002".
Proof.
  destruct (reserveItems_within_stock alice [mkItem "FLASH-001" 3; mkItem "FLASH-002" 4]
              [mkItem "FLASH-001" 3; mkItem "FLASH-002" 4] 600 (shop2 5 6) alice_holds_most)
    as (_ & _ & _ & Hroom).
  - reflexivity.
  - lia.
  - vm_compute. reflexivity.
  - apply Hroom. left. vm_compute. discriminate.
Defined.

(** X2 one millisecond before the 600 seconds are over. *)
Lemma reservation_lives_for_ttl_witness :
  fst (RedisService.getReservedQuantity alice "FLASH-001"
         (elapse 599999 (after (RedisService.reserveStock alice "FLASH-001" 3 600) (shop 10))))
  = Ok (if 599999 <? 1000 * 600 then held (shop 10) alice "FLASH-001" + 3 else 0).
Proof.
  destruct (reservation_lives_for_ttl alice "FLASH-001" 3 600 599999 (shop 10))
    as [Hhold _].
  - reflexivity.
  - lia.
  - lia.
  - exact Hhold.
Defined.

(** X3 at Alice's hold of 2 units. *)
Lemma cancel_again_is_noop_witness :
  RedisService.cancelReservation alice "FLASH-001" (Some 1)
    (after (RedisService.cancelReservation alice "FLASH-001" None) alice_holds_two)
  = (Ok 0, after (RedisService.cancelReservation alice "FLASH-001" None) alice_holds_two).
Proof. apply (cancel_again_is_noop alice "FLASH-001" (Some 1) alice_holds_two). reflexivity. Defined.

(** X4 at 1 of Alice's 2 units. *)
Lemma release_is_cancel_when_covered_witness :
  exists w',
    RedisService.releaseReservation alice "FLASH-001" 1 alice_holds_two = (Ok true, w')
    /\ RedisService.cancelReservation alice "FLASH-001" (Some 1) alice_holds_two = (Ok 1, w').
Proof.
  apply (release_is_cancel_when_covered alice "FLASH-001" 1 2 alice_holds_two).
  - reflexivity.
  - vm_compute. reflexivity.
  - lia.
Defined.

(** X5 at Alice's remainder of 3 units, which outlived the counter. *)
Lemma cancel_after_counter_expiry_witness :
  fst (RedisService.getTotalReservedStock "FLASH-001"
         (elapse 3600000
            (after (RedisService.cancelReservation alice "FLASH-001" (Some 1))
                   after_late_cancel)))
  = Ok (- cancelled (Some 1) 3).
Proof.
  destruct (cancel_after_counter_expiry alice "FLASH-001" (Some 1) 3 3600000 after_late_cancel)
    as (_ & _ & Hread).
  - reflexivity.
  - vm_compute. reflexivity.
  - vm_compute. reflexivity.
  - lia.
  - exact Hread.
Defined.

(** X6 at Alice's key for a SKU with a colon. *)
Lemma sku_of_key_round_trip_witness :
  RedisService.sku_of_key (RedisService.getReservationKey alice "A:x")
  = hd EmptyString (split_on ":" "A:x").
Proof.
  destruct (sku_of_key_round_trip alice "A:x") as [Hsku _].
  - vm_compute. reflexivity.
  - exact Hsku.
Defined.

(** X7 at Alice's holds on two products. *)
Lemma listing_is_live_holds_witness :
  mkItem (RedisService.sku_of_key (RedisService.getReservationKey alice "FLASH-002")) 4
  ∈ [mkItem "FLASH-001" 3; mkItem "FLASH-002" 4].
Proof.
  destruct (listing_is_live_holds alice alice_holds_most
              [mkItem "FLASH-001" 3; mkItem "FLASH-002" 4]) as [Hlisted _].
  - reflexivity.
  - reflexivity.
  - vm_compute. reflexivity.
  - apply Hlisted. vm_compute. reflexivity.
Defined.

(** X8 for 3 of 10 units. *)
Lemma availability_fails_open_witness :
  fst (ProductService.checkStockAvailability "FLASH-001" 3 counter_read_fails)
  = Ok (mkStockCheck (3 <=? 10) (Z.max 0 10) 10 0).
Proof.
  rewrite (availability_fails_open "FLASH-001" 3 (flash_deal 10) counter_read_fails).
  - reflexivity.
  - reflexivity.
  - reflexivity.
  - vm_compute. reflexivity.
Defined.

(** X9 at the product of which Alice holds 2 of 200 units. *)
Lemma getProductStatus_spec_witness :
  exists st,
    ProductService.getProductStatus "FLASH-001" alice_holds_two = (Ok st, alice_holds_two)
    /\ ps_availableStock st
       = Z.max 0 (p_totalStock (flash_deal 200) - aggregate alice_holds_two "FLASH-001").
Proof.
  pose proof (getProductStatus_spec "FLASH-001" alice_holds_two eq_refl) as Hspec.
  replace (active_product alice_holds_two "FLASH-001") with (Some (flash_deal 200)) in Hspec
    by (vm_compute; reflexivity).
  destruct Hspec as (st & Hrun & _ & _ & Havail & _).
  exists st. split; [exact Hrun | exact Havail].
Defined.

(** X10 at 2 of 10 units. *)
Lemma reduceStock_spec_witness :
  exists p,
    products (shop 10) !! "FLASH-001" = Some p
    /\ p_totalStock (flash_deal 8) = p_totalStock p - 2.
Proof.
  destruct (reduceStock_spec "FLASH-001" 2 (shop 10)
              (after (ProductService.reduceStock "FLASH-001" 2) (shop 10))
              (Ok (flash_deal 8)))
    as (p & Hp & _ & _ & Hless & _).
  - vm_compute. reflexivity.
  - exists p. split; [exact Hp | exact Hless].
Defined.

(** X11 at Alice's checkout of 2 of 200 units. *)
Lemma checkout_keeps_stock_nonneg_witness :
  stock_nonneg (after (CheckoutService.processCheckout alice) alice_holds_two).
Proof.
  apply (checkout_keeps_stock_nonneg alice alice_holds_two
           (after (CheckoutService.processCheckout alice) alice_holds_two)
           (fst (CheckoutService.processCheckout alice alice_holds_two))).
  - exact stock_nonneg_alice_holds_two.
  - unfold after. destruct (CheckoutService.processCheckout alice alice_holds_two).
    reflexivity.
Defined.

(** X12 at a cart whose two lines, for the keys of [A] and [A:x], both name
    the SKU [A]: each passes the checks for 3 of the 5 units, the second
    decrement fails. *)
Lemma failed_decrement_leaves_order_witness :
  exists order,
    orders (after (CheckoutService.processCheckout alice) alice_holds_twice)
    = orders alice_holds_twice ++ [order]
    /\ o_status order = "completed" /\ o_userId order = alice
    /\ redis (after (CheckoutService.processCheckout alice) alice_holds_twice)
       = redis alice_holds_twice.
Proof.
  apply (failed_decrement_leaves_order alice alice_holds_twice).
  vm_compute. reflexivity.
Defined.

(** X13 at Alice's checkout of 2 of 200 units. *)
Lemma checkout_needs_room_witness :
  2 <= held alice_holds_two alice "FLASH-001"
  /\ aggregate alice_holds_two "FLASH-001" + 2 <= stock alice_holds_two "FLASH-001".
Proof.
  apply (checkout_needs_room alice alice_holds_two
           (after (CartService.getUserCart alice) alice_holds_two)
           (after (CheckoutService.processCheckout alice) alice_holds_two)
           (mkCart alice [mkCartItem "p1" "FLASH-001" "Flash Deal Product" 9999%float 2 19998%float]
                   2 19998%float)
           (mkReceipt 0 alice [mkOrderItem "p1" "FLASH-001" 2 9999%float] 19998%float)
           eq_refl
           ltac:(vm_compute; reflexivity)
           ltac:(vm_compute; reflexivity)
           (mkCartItem "p1" "FLASH-001" "Flash Deal Product" 9999%float 2 19998%float)).
  apply list_elem_of_here.
Defined.

(** X14 at Alice's 3 units of a product priced 99.99: the total amount is
    the double 299.96999999999997. *)
Lemma getUserCart_totals_witness :
  exists cart,
    fst (CartService.getUserCart alice alice_holds_three) = Ok cart
    /\ cart_totalAmount cart
       = sum_left (map (fun item => Number.mul (ci_price item)
                                               (Number.of_Z (ci_quantity item)))
                       (cart_items cart))
    /\ cart_totalAmount cart = 299.96999999999997%float.
Proof.
  destruct (getUserCart_totals alice alice_holds_three
              (after (CartService.getUserCart alice) alice_holds_three)
              (fst (CartService.getUserCart alice alice_holds_three)))
    as (cart & Hcart & _ & _ & _ & Hamount & _).
  - unfold after. destruct (CartService.getUserCart alice alice_holds_three). reflexivity.
  - exists cart. split; [exact Hcart|]. split; [exact Hamount|].
    assert (Hrun : fst (CartService.getUserCart alice alice_holds_three)
                   = Ok (mkCart alice
                           [mkCartItem "p1" "FLASH-001" "Flash Deal Product" 99.99%float 3
                                       299.96999999999997%float]
                           3 299.96999999999997%float))
      by (vm_compute; reflexivity).
    rewrite Hrun in Hcart. injection Hcart as <-. reflexivity.
Defined.

(** X15 at Alice's cart when the backend is down. *)
Lemma cart_endpoint_always_200_witness :
  exists cart w',
    CartController.getUserCart alice backend_down = (Replied 200 cart, w')
    /\ cart_items cart = [].
Proof.
  destruct (cart_endpoint_always_200 alice backend_down) as (cart & w' & Hrun & _ & Hempty).
  exists cart, w'. split; [exact Hrun|]. apply Hempty. reflexivity.
Defined.

(** X16 at a cancellation whose second item has no SKU. *)
Lemma cart_cancel_keeps_earlier_items_witness :
  CartService.cancelReservation alice
    ([mkCancelItem "FLASH-001" (Some 1)]
     ++ mkCancelItem EmptyString None :: [mkCancelItem "FLASH-002" None])
    alice_holds_most
  = (inl SkuRequired,
     after (RedisService.cancelReservation alice "FLASH-001" (Some 1)) alice_holds_most).
Proof.
  apply (cart_cancel_keeps_earlier_items alice [mkCancelItem "FLASH-001" (Some 1)]
           [mkCancelItem "FLASH-002" None] (mkCancelItem EmptyString None)
           [mkItem "FLASH-001" 1]).
  - reflexivity.
  - vm_compute. reflexivity.
Defined.

(** X17 at a quantity of 0 on Alice's hold of 2 units. *)
Lemma cart_cancel_one_witness :
  exists w',
    CartService.cancelReservation alice [mkCancelItem "FLASH-001" (Some 0)] alice_holds_two
    = (inr (if 0 <? 2 then [mkItem "FLASH-001" 2] else []), w')
    /\ fst (RedisService.getReservedQuantity alice "FLASH-001" w') = Ok (2 - 2)
    /\ fst (RedisService.getTotalReservedStock "FLASH-001" w')
       = Ok (aggregate alice_holds_two "FLASH-001" - 2).
Proof.
  apply (cart_cancel_one alice "FLASH-001" (Some 0) 2 alice_holds_two).
  - reflexivity.
  - vm_compute. reflexivity.
  - discriminate.
  - vm_compute. reflexivity.
Defined.

(** X18 at a user id of six letters. *)
Lemma invalid_id_is_refused_without_backend_witness :
  CheckoutService.processCheckout "nobody" alice_holds_two = (Throw UserNotFound, alice_holds_two).
Proof.
  destruct (invalid_id_is_refused_without_backend "nobody" [] [] 600 alice_holds_two)
    as (_ & _ & Hcheckout).
  - reflexivity.
  - exact Hcheckout.
Defined.
